(** * Windowing / surface / render-loop bridge of native-threejs-starter

    A shallow embedding of the two entry points [main.ts] (imperative
    mode) and [r3f.tsx] (declarative mode): library resolution, window and
    surface creation, the struct decoder over the two scratch buffers, the
    event/render loop and the shutdown sequence.

    Native calls, console output, buffer reads and writes of the [running]
    flag are recorded in a trace; what the operating system and the native
    library answer is scripted in the [Host] and in the consumable part of
    the [World]. *)

From Stdlib Require Import ZArith String Ascii Bool Lia Arith List.
From Stdlib Require Import Strings.Byte.
Import ListNotations.

Local Open Scope string_scope.
Local Open Scope Z_scope.
Local Open Scope list_scope.

(** ** Bytes and the struct decoder *)

(** A [Deno.PointerValue]: the address, [null] being address 0. *)
Definition pointer := Z.
Definition null : pointer := 0.

(** Every target Deno compiles for has 8-byte pointers and is little-endian. *)
Definition pointerSize : nat := 8.

Definition byte_val (b : byte) : Z := Z.of_N (Byte.to_N b).

Fixpoint le_decode (bs : list byte) : Z :=
  match bs with
  | [] => 0
  | b :: rest => byte_val b + 256 * le_decode rest
  end.

(** The [len] bytes of [buf] from [off]; [None] when the read leaves [buf]. *)
Definition slice (buf : list byte) (off len : nat) : option (list byte) :=
  if (off + len <=? length buf)%nat
  then Some (firstn len (skipn off buf))
  else None.

(** [UnsafePointerView.getUint32(offset = 0)]: four bytes in the byte
    order of the machine, which is little-endian on Deno's targets. *)
Definition getUint32 (buf : list byte) (off : nat) : option Z :=
  option_map le_decode (slice buf off 4).

(** [UnsafePointerView.getPointer(offset = 0)]: a pointer-sized value. *)
Definition getPointer (buf : list byte) (off : nat) : option pointer :=
  option_map le_decode (slice buf off pointerSize).

(** A native call that writes [data] through a pointer to [buf]. *)
Definition blit (data buf : list byte) : list byte :=
  firstn (length buf) data ++ skipn (length data) buf.

(** Synthetic buffers are built with the inverse of the decoder. *)
Definition byte_of_Z (v : Z) : byte :=
  match Byte.of_N (Z.to_N (v mod 256)) with
  | Some b => b
  | None => x00
  end.

Fixpoint le_encode (n : nat) (v : Z) : list byte :=
  match n with
  | O => []
  | S k => byte_of_Z v :: le_encode k (v / 256)
  end.

(** ** Constants of the SDL2 helpers region (identical in both files) *)

Definition WIDTH : Z := 800.
Definition HEIGHT : Z := 600.

Definition SDL_INIT_VIDEO : Z := 0x00000020.
Definition SDL_WINDOW_SHOWN : Z := 0x00000004.
Definition SDL_WINDOW_RESIZABLE : Z := 0x00000020.
Definition SDL_QUIT : Z := 0x100.

Definition sizeOfEvent : nat := 56.
Definition sizeOfSDL_SysWMInfo : nat := 3 + 4 + 8 * 64.

Definition SDL_SYSWM_WINDOWS : Z := 1.
Definition SDL_SYSWM_X11 : Z := 2.
Definition SDL_SYSWM_COCOA : Z := 4.
Definition SDL_SYSWM_WAYLAND : Z := 6.
Definition SDL_SYSWM_WINRT : Z := 8.

(** [new Uint8Array(n)] is zero-filled. *)
Definition Uint8Array (n : nat) : list byte := repeat x00 n.

(** ** Observations *)

Inductive BufId := EventBuf | WmInfoBuf.

Inductive Action :=
| ActLog (msg : string) (args : list Z)        (* console.log *)
| ActError (msg : string)                      (* console.error *)
| ActStat (path : string)                      (* Deno.statSync *)
| ActCreateWindow (title : string) (x y w h flags : Z)
| ActMetalCreateView (window : pointer)
| ActGetVersion
| ActGetWindowWMInfo (window : pointer)
| ActPollEvent
| ActPeek (buf : BufId) (off len : nat)        (* a decoder read *)
| ActSetRunning (b : bool)                     (* a write of [running] *)
| ActRotate                                    (* cube.rotation.x/y += ... *)
| ActRender                                    (* renderer.render / an R3F frame *)
| ActPresent                                   (* surface.present() *)
| ActSleep (ms : Z)                            (* await setTimeout *)
| ActDestroyWindow (window : pointer)
| ActQuit                                      (* SDL_Quit *)
| ActExit (code : Z).                          (* Deno.exit *)

Definition Action_eq_dec (a b : Action) : {a = b} + {a <> b}.
Proof.
  repeat decide equality.
Defined.

(** ** Host and world *)

(** What one [SDL_PollEvent] call does: it returns [ret] after writing
    [written] to the event record, or the FFI call itself throws. *)
Inductive PollResult :=
| PollRet (ret : Z) (written : list byte)
| PollThrows (msg : string).

(** Answers that do not change while the program runs. *)
Record Host := mkHost {
  BUILD_OS : string;                (* Deno.build.os *)
  statOk : string -> bool;          (* Deno.statSync returns, or throws *)
  createWindowRet : pointer;        (* SDL_CreateWindow *)
  metalViewRet : pointer;           (* SDL_Metal_CreateView *)
  versionBytes : list byte;         (* written by SDL_GetVersion *)
  wmInfoRet : Z;                    (* SDL_GetWindowWMInfo *)
  wmInfoBytes : list byte           (* written by SDL_GetWindowWMInfo *)
}.

Record World := mkWorld {
  pollQueue : list PollResult;      (* coming SDL_PollEvent calls; then "no event" *)
  presentScript : list bool;        (* coming surface.present() calls: true = throws *)
  frameSchedule : list nat;         (* R3F frames run during each coming sleep *)
  eventBuf : list byte;
  wmInfoBuf : list byte;
  running : bool;
  frame : nat;
  trace : list Action
}.

Definition set_pollQueue (q : list PollResult) (w : World) : World :=
  mkWorld q (presentScript w) (frameSchedule w) (eventBuf w) (wmInfoBuf w)
          (running w) (frame w) (trace w).
Definition set_presentScript (p : list bool) (w : World) : World :=
  mkWorld (pollQueue w) p (frameSchedule w) (eventBuf w) (wmInfoBuf w)
          (running w) (frame w) (trace w).
Definition set_frameSchedule (s : list nat) (w : World) : World :=
  mkWorld (pollQueue w) (presentScript w) s (eventBuf w) (wmInfoBuf w)
          (running w) (frame w) (trace w).
Definition set_eventBuf (b : list byte) (w : World) : World :=
  mkWorld (pollQueue w) (presentScript w) (frameSchedule w) b (wmInfoBuf w)
          (running w) (frame w) (trace w).
Definition set_wmInfoBuf (b : list byte) (w : World) : World :=
  mkWorld (pollQueue w) (presentScript w) (frameSchedule w) (eventBuf w) b
          (running w) (frame w) (trace w).
Definition set_running (r : bool) (w : World) : World :=
  mkWorld (pollQueue w) (presentScript w) (frameSchedule w) (eventBuf w)
          (wmInfoBuf w) r (frame w) (trace w).
Definition set_frame (f : nat) (w : World) : World :=
  mkWorld (pollQueue w) (presentScript w) (frameSchedule w) (eventBuf w)
          (wmInfoBuf w) (running w) f (trace w).
Definition set_trace (t : list Action) (w : World) : World :=
  mkWorld (pollQueue w) (presentScript w) (frameSchedule w) (eventBuf w)
          (wmInfoBuf w) (running w) (frame w) t.

Definition buffer (b : BufId) (w : World) : list byte :=
  match b with
  | EventBuf => eventBuf w
  | WmInfoBuf => wmInfoBuf w
  end.

(** The world at module start: fresh scratch buffers, [running = true],
    [frame = 0], nothing observed yet. *)
Definition boot (polls : list PollResult) (presents : list bool)
    (frames : list nat) : World :=
  mkWorld polls presents frames
          (Uint8Array sizeOfEvent) (Uint8Array sizeOfSDL_SysWMInfo)
          true 0%nat [].

(** ** The effect monad *)

Inductive Result (A : Type) :=
| Ok (a : A)                 (* normal completion *)
| Throw (msg : string)       (* a JavaScript exception propagates *)
| Fault                      (* a decoder read left its buffer *)
| OutOfFuel.                 (* the loop was cut off by the model *)
Arguments Ok {A} a.
Arguments Throw {A} msg.
Arguments Fault {A}.
Arguments OutOfFuel {A}.

Definition M (A : Type) : Type := World -> Result A * World.

Definition ret {A} (a : A) : M A := fun w => (Ok a, w).

Definition bind {A B} (m : M A) (k : A -> M B) : M B :=
  fun w =>
    match m w with
    | (Ok a, w') => k a w'
    | (Throw e, w') => (Throw e, w')
    | (Fault, w') => (Fault, w')
    | (OutOfFuel, w') => (OutOfFuel, w')
    end.

Declare Scope js_scope.
Delimit Scope js_scope with js.
Notation "x <- m ;; k" := (bind m (fun x => k))
  (at level 61, m at next level, right associativity) : js_scope.
Notation "m ;; k" := (bind m (fun _ => k))
  (at level 61, right associativity) : js_scope.
Local Open Scope js_scope.

Definition throw {A} (msg : string) : M A := fun w => (Throw msg, w).

(** [try { m } catch (e) { h e }] *)
Definition tryCatch {A} (m : M A) (h : string -> M A) : M A :=
  fun w =>
    match m w with
    | (Throw e, w') => h e w'
    | r => r
    end.

Definition emit (a : Action) : M unit :=
  fun w => (Ok tt, set_trace (trace w ++ [a]) w).

Definition console_log (msg : string) (args : list Z) : M unit :=
  emit (ActLog msg args).
Definition console_error (msg : string) : M unit := emit (ActError msg).

Definition assign_running (b : bool) : M unit :=
  fun w => (Ok tt, set_running b (set_trace (trace w ++ [ActSetRunning b]) w)).

(** Decoder reads through a view of a scratch buffer. *)
Definition view_getUint32 (b : BufId) (off : nat) : M Z :=
  fun w =>
    let w' := set_trace (trace w ++ [ActPeek b off 4]) w in
    match getUint32 (buffer b w) off with
    | Some v => (Ok v, w')
    | None => (Fault, w')
    end.

Definition view_getPointer (b : BufId) (off : nat) : M pointer :=
  fun w =>
    let w' := set_trace (trace w ++ [ActPeek b off pointerSize]) w in
    match getPointer (buffer b w) off with
    | Some v => (Ok v, w')
    | None => (Fault, w')
    end.

(** ** Native calls and host services *)

Definition Deno_statSync (h : Host) (path : string) : M unit :=
  emit (ActStat path);;
  if statOk h path then ret tt else throw "NotFound".

(** [asCString]: the text followed by a NUL byte. *)
Definition asCString (text : string) : string :=
  String.append text (String Ascii.zero EmptyString).

Definition SDL_CreateWindow (h : Host) (title : string) (x y w_ h_ flags : Z)
    : M pointer :=
  emit (ActCreateWindow title x y w_ h_ flags);;
  ret (createWindowRet h).

Definition SDL_Metal_CreateView (h : Host) (window : pointer) : M pointer :=
  emit (ActMetalCreateView window);;
  ret (metalViewRet h).

Definition SDL_GetVersion (h : Host) : M unit :=
  fun w =>
    (Ok tt, set_wmInfoBuf (blit (versionBytes h) (wmInfoBuf w))
              (set_trace (trace w ++ [ActGetVersion]) w)).

Definition SDL_GetWindowWMInfo (h : Host) (window : pointer) : M Z :=
  fun w =>
    (Ok (wmInfoRet h),
     set_wmInfoBuf (blit (wmInfoBytes h) (wmInfoBuf w))
       (set_trace (trace w ++ [ActGetWindowWMInfo window]) w)).

(** The next scripted answer; an exhausted script is an empty queue. *)
Definition SDL_PollEvent : M Z :=
  fun w =>
    let w1 := set_trace (trace w ++ [ActPollEvent]) w in
    match pollQueue w with
    | [] => (Ok 0, w1)
    | PollRet r data :: q =>
        (Ok r, set_eventBuf (blit data (eventBuf w)) (set_pollQueue q w1))
    | PollThrows e :: q => (Throw e, set_pollQueue q w1)
    end.

Definition surface_present : M unit :=
  fun w =>
    let w1 := set_trace (trace w ++ [ActPresent]) w in
    match presentScript w with
    | [] => (Ok tt, w1)
    | false :: p => (Ok tt, set_presentScript p w1)
    | true :: p => (Throw "present failed", set_presentScript p w1)
    end.

Definition SDL_DestroyWindow (window : pointer) : M unit :=
  emit (ActDestroyWindow window).
Definition SDL_Quit : M unit := emit ActQuit.

(** ** resolveSdl2Library (the same text in main.ts and r3f.tsx) *)

Definition candidates : list string :=
  [ "/opt/homebrew/opt/sdl2/lib/libSDL2.dylib";
    "/opt/homebrew/lib/libSDL2.dylib";
    "/usr/local/opt/sdl2/lib/libSDL2.dylib";
    "/usr/local/lib/libSDL2.dylib";
    "SDL2" ].

(** The [for (const candidate of cs)] loop; [Some c] is [return c]. *)
Fixpoint probe (h : Host) (cs : list string) : M (option string) :=
  match cs with
  | [] => ret None
  | candidate :: rest =>
      r <- tryCatch (Deno_statSync h candidate;; ret (Some candidate))
                    (fun _ => ret None);;
      match r with
      | Some c => ret (Some c)
      | None => probe h rest
      end
  end.

Definition resolveSdl2Library (h : Host) : M string :=
  if negb (String.eqb (BUILD_OS h) "darwin") then ret "SDL2"
  else
    r <- probe h candidates;;
    match r with
    | Some c => ret c
    | None => ret "SDL2"
    end.

(** ** Windows and surfaces *)

Record WindowPair := mkWindowPair {
  window : pointer;
  metalView : pointer
}.

Record UnsafeWindowSurface := mkSurface {
  system : string;
  windowHandle : pointer;
  displayHandle : pointer;
  width : Z;
  height : Z
}.

Definition windowFlags : Z := Z.lor SDL_WINDOW_SHOWN SDL_WINDOW_RESIZABLE.

Module MainTs.

Definition createWindow (h : Host) (title : string) (width height : Z)
    : M WindowPair :=
  console_log "Creating SDL window" [width; height];;
  raw <- SDL_CreateWindow h (asCString title) 0x2FFF0000 0x2FFF0000
                          width height windowFlags;;
  if raw =? null then throw "SDL_CreateWindow failed"
  else
    console_log "SDL window created" [raw];;
    metalView <- (if String.eqb (BUILD_OS h) "darwin"
                  then SDL_Metal_CreateView h raw
                  else ret null);;
    console_log "Metal view created" [metalView];;
    ret (mkWindowPair raw metalView).

Definition createSurface (h : Host) (window metalView : pointer)
    (width height : Z) : M UnsafeWindowSurface :=
  console_log "Creating UnsafeWindowSurface" [width; height];;
  SDL_GetVersion h;;
  ok <- SDL_GetWindowWMInfo h window;;
  if ok =? 0 then throw "SDL_GetWindowWMInfo failed"
  else
    subsystem <- view_getUint32 WmInfoBuf 4;;
    if String.eqb (BUILD_OS h) "darwin" then
      nsView <- view_getPointer WmInfoBuf (4 + 4);;
      if negb (subsystem =? SDL_SYSWM_COCOA)
      then throw "Expected SDL_SYSWM_COCOA on macOS"
      else
        console_log "Using cocoa surface" [];;
        ret (mkSurface "cocoa" nsView metalView width height)
    else if String.eqb (BUILD_OS h) "windows" then
      hwnd <- view_getPointer WmInfoBuf (4 + 4);;
      if subsystem =? SDL_SYSWM_WINDOWS then
        hinstance <- view_getPointer WmInfoBuf (4 + 4 + 8 + 8);;
        console_log "Using win32 surface" [hwnd; hinstance];;
        ret (mkSurface "win32" hwnd hinstance width height)
      else if subsystem =? SDL_SYSWM_WINRT
      then throw "WinRT is not supported"
      else throw "Expected SDL_SYSWM_WINDOWS on Windows"
    else if String.eqb (BUILD_OS h) "linux" then
      display <- view_getPointer WmInfoBuf (4 + 4);;
      surface <- view_getPointer WmInfoBuf (4 + 4 + 8);;
      if subsystem =? SDL_SYSWM_X11 then
        console_log "Using x11 surface" [];;
        ret (mkSurface "x11" surface display width height)
      else if subsystem =? SDL_SYSWM_WAYLAND then
        console_log "Using wayland surface" [];;
        ret (mkSurface "wayland" surface display width height)
      else throw "Expected SDL_SYSWM_X11 or SDL_SYSWM_WAYLAND on Linux"
    else throw "Unsupported platform".

(** The inner [while (SDL_PollEvent(event) === 1)] loop.  [n] bounds the
    number of polls; [drainEvents] passes one more than the queue holds. *)
Fixpoint pollLoop (n : nat) : M unit :=
  match n with
  | O => fun w => (OutOfFuel, w)
  | S k =>
      r <- SDL_PollEvent;;
      if r =? 1 then
        type <- view_getUint32 EventBuf 0;;
        if type =? SDL_QUIT then
          console_log "SDL_QUIT received" [];;
          assign_running false
        else pollLoop k
      else ret tt
  end.

Definition drainEvents : M unit :=
  fun w => pollLoop (S (length (pollQueue w))) w.

Definition renderer_render : M unit := emit ActRender.

(** [if (frame === 0 || frame % 120 === 0) console.log(...)] *)
Definition logFrame : M unit :=
  fun w =>
    (if (frame w =? 0)%nat || (frame w mod 120 =? 0)%nat
     then console_log "Rendering frame" [Z.of_nat (frame w)]
     else ret tt) w.

(** [frame++] *)
Definition nextFrame : M unit :=
  fun w => (Ok tt, set_frame (S (frame w)) w).

(** One pass through the body of [while (running)]. *)
Definition iteration : M unit :=
  drainEvents;;
  emit ActRotate;;
  logFrame;;
  renderer_render;;
  surface_present;;
  nextFrame.

Fixpoint loop (fuel : nat) : M unit :=
  fun w =>
    if running w then
      match fuel with
      | O => (OutOfFuel, w)
      | S k => (iteration;; loop k) w
      end
    else (Ok tt, w).

(** [let running = true; let frame = 0;] *)
Definition declareLoopState : M unit :=
  fun w => (Ok tt, set_frame 0 (set_running true w)).

(** The "Main loop" region, from [let running = true] to the end. *)
Definition mainLoopRegion (window : pointer) (fuel : nat) : M unit :=
  declareLoopState;;
  console_log "Entering render loop" [];;
  loop fuel;;
  SDL_DestroyWindow window;;
  SDL_Quit;;
  console_log "Shutdown complete" [].

End MainTs.

Module R3f.

Definition createWindow (h : Host) (title : string) (width height : Z)
    : M WindowPair :=
  raw <- SDL_CreateWindow h (asCString title) 0x2FFF0000 0x2FFF0000
                          width height windowFlags;;
  if raw =? null then throw "SDL_CreateWindow failed"
  else
    metalView <- (if String.eqb (BUILD_OS h) "darwin"
                  then SDL_Metal_CreateView h raw
                  else ret null);;
    ret (mkWindowPair raw metalView).

Definition createSurface (h : Host) (window metalView : pointer)
    (width height : Z) : M UnsafeWindowSurface :=
  SDL_GetVersion h;;
  ok <- SDL_GetWindowWMInfo h window;;
  if ok =? 0 then throw "SDL_GetWindowWMInfo failed"
  else
    subsystem <- view_getUint32 WmInfoBuf 4;;
    if String.eqb (BUILD_OS h) "darwin" then
      nsView <- view_getPointer WmInfoBuf (4 + 4);;
      ret (mkSurface "cocoa" nsView metalView width height)
    else if String.eqb (BUILD_OS h) "windows" then
      hwnd <- view_getPointer WmInfoBuf (4 + 4);;
      hinstance <- view_getPointer WmInfoBuf (4 + 4 + 8 + 8);;
      ret (mkSurface "win32" hwnd hinstance width height)
    else if String.eqb (BUILD_OS h) "linux" then
      display <- view_getPointer WmInfoBuf (4 + 4);;
      surface <- view_getPointer WmInfoBuf (4 + 4 + 8);;
      if subsystem =? SDL_SYSWM_X11 then
        ret (mkSurface "x11" surface display width height)
      else if subsystem =? SDL_SYSWM_WAYLAND then
        ret (mkSurface "wayland" surface display width height)
      else throw "Expected SDL_SYSWM_X11 or SDL_SYSWM_WAYLAND on Linux"
    else throw "Unsupported platform".

(** The hook registered with [addAfterEffect]. *)
Definition afterEffect : M unit :=
  tryCatch surface_present
    (fun _ => console_error "Error in surface.present():";;
              assign_running false).

(** One frame of the reactive layer: it renders, then runs the hook. *)
Definition r3fFrame : M unit := emit ActRender;; afterEffect.

Fixpoint r3fFrames (n : nat) : M unit :=
  match n with
  | O => ret tt
  | S k => r3fFrame;; r3fFrames k
  end.

(** [await new Promise(r => setTimeout(r, ms))]: while the loop is
    suspended the reactive layer runs the frames scheduled for this
    sleep. *)
Definition scheduledFrames : M unit :=
  fun w =>
    match frameSchedule w with
    | [] => (Ok tt, w)
    | n :: s => r3fFrames n (set_frameSchedule s w)
    end.

Definition sleep (ms : Z) : M unit :=
  emit (ActSleep ms);;
  scheduledFrames.

Fixpoint pollLoop (n : nat) : M unit :=
  match n with
  | O => fun w => (OutOfFuel, w)
  | S k =>
      r <- SDL_PollEvent;;
      if r =? 1 then
        type <- view_getUint32 EventBuf 0;;
        if type =? SDL_QUIT then assign_running false
        else pollLoop k
      else ret tt
  end.

Definition drainEvents : M unit :=
  fun w => pollLoop (S (length (pollQueue w))) w.

Definition iteration : M unit :=
  tryCatch drainEvents
    (fun _ => console_error "Error in SDL loop:";;
              assign_running false);;
  sleep 1.

Fixpoint loop (fuel : nat) : M unit :=
  fun w =>
    if running w then
      match fuel with
      | O => (OutOfFuel, w)
      | S k => (iteration;; loop k) w
      end
    else (Ok tt, w).

(** [let running = true;] *)
Definition declareLoopState : M unit :=
  fun w => (Ok tt, set_running true w).

(** From [console.log("Entering SDL2 loop")] to the end of the module. *)
Definition mainLoopRegion (window : pointer) (fuel : nat) : M unit :=
  console_log "Entering SDL2 loop" [];;
  declareLoopState;;
  loop fuel;;
  SDL_DestroyWindow window;;
  SDL_Quit;;
  emit (ActExit 0).

End R3f.

(** * Properties *)

(** ** Decoder lemmas *)

Lemma byte_val_range (b : byte) : 0 <= byte_val b < 256.
Proof.
  unfold byte_val. pose proof (Byte.to_N_bounded b). lia.
Qed.

Lemma byte_val_of_Z (v : Z) : byte_val (byte_of_Z v) = v mod 256.
Proof.
  unfold byte_val, byte_of_Z.
  assert (Hr : 0 <= v mod 256 < 256) by (apply Z.mod_pos_bound; lia).
  destruct (Byte.of_N (Z.to_N (v mod 256))) as [b|] eqn:E.
  - apply Byte.to_of_N in E. rewrite E. lia.
  - apply Byte.of_N_None_iff in E. lia.
Qed.

Lemma le_encode_length (n : nat) (v : Z) : length (le_encode n v) = n.
Proof.
  revert v. induction n as [|n IH]; intros v; simpl; [reflexivity|].
  now rewrite IH.
Qed.

Lemma le_decode_encode (n : nat) (v : Z) :
  0 <= v < 256 ^ Z.of_nat n -> le_decode (le_encode n v) = v.
Proof.
  revert v. induction n as [|n IH]; intros v Hv.
  - simpl in *. lia.
  - cbn [le_encode le_decode]. rewrite byte_val_of_Z, IH.
    + pose proof (Z.div_mod v 256). lia.
    + rewrite Nat2Z.inj_succ, Z.pow_succ_r in Hv by lia.
      split; [apply Z.div_pos; lia|].
      apply Z.div_lt_upper_bound; lia.
Qed.

Lemma le_decode_range (bs : list byte) :
  0 <= le_decode bs < 256 ^ Z.of_nat (length bs).
Proof.
  induction bs as [|b bs IH].
  - simpl. lia.
  - cbn [le_decode length]. rewrite Nat2Z.inj_succ, Z.pow_succ_r by lia.
    pose proof (byte_val_range b). lia.
Qed.

Lemma blit_length (data buf : list byte) : length (blit data buf) = length buf.
Proof.
  unfold blit. rewrite length_app, length_firstn, length_skipn. lia.
Qed.

Lemma blit_exact (data buf : list byte) :
  length data = length buf -> blit data buf = data.
Proof.
  intros H. unfold blit. rewrite <- H, firstn_all, skipn_all2 by lia.
  apply app_nil_r.
Qed.

Lemma blit_prefix (data buf : list byte) :
  (length data <= length buf)%nat ->
  blit data buf = data ++ skipn (length data) buf.
Proof.
  intros H. unfold blit. now rewrite firstn_all2 by lia.
Qed.

Lemma slice_in_bounds (buf : list byte) (off len : nat) :
  (off + len <= length buf)%nat -> exists bs, slice buf off len = Some bs.
Proof.
  intros H. unfold slice.
  destruct (Nat.leb_spec (off + len) (length buf)); [eauto | lia].
Qed.

Lemma slice_skip (pre rest : list byte) (off len : nat) :
  length pre = off -> slice (pre ++ rest) off len = slice rest 0 len.
Proof.
  intros <-. unfold slice. rewrite length_app, skipn_app, skipn_all, Nat.sub_diag.
  simpl. destruct (Nat.leb_spec (length pre + len) (length pre + length rest));
    destruct (Nat.leb_spec len (length rest)); try lia; reflexivity.
Qed.

Lemma slice_here (mid post : list byte) (len : nat) :
  length mid = len -> slice (mid ++ post) 0 len = Some mid.
Proof.
  intros <-. unfold slice. rewrite length_app. simpl.
  destruct (Nat.leb_spec (length mid) (length mid + length post)); [|lia].
  now rewrite firstn_app, firstn_all, Nat.sub_diag, firstn_0, app_nil_r.
Qed.

(** The quit discriminant as it lies in a 56-byte event record. *)
Definition eventRecord (type : Z) : list byte :=
  le_encode 4 type ++ repeat x00 (sizeOfEvent - 4).

Lemma eventRecord_length (type : Z) : length (eventRecord type) = sizeOfEvent.
Proof.
  unfold eventRecord. rewrite length_app, le_encode_length, repeat_length.
  reflexivity.
Qed.

Lemma eventRecord_type (type : Z) :
  0 <= type < 2 ^ 32 -> getUint32 (eventRecord type) 0 = Some type.
Proof.
  intros H. unfold getUint32, eventRecord.
  rewrite slice_here by apply le_encode_length.
  cbn [option_map]. f_equal. apply le_decode_encode.
  change (256 ^ Z.of_nat 4) with (2 ^ 32). exact H.
Qed.

(** ** Reasoning about runs *)

(** What running [m] from [w] adds to the trace. *)
Definition run_trace {A} (m : M A) (w : World) : list Action :=
  skipn (length (trace w)) (trace (snd (m w))).

(** The two scratch buffers have the sizes they were allocated with. *)
Definition bufs_ok (w : World) : Prop :=
  length (eventBuf w) = sizeOfEvent /\
  length (wmInfoBuf w) = sizeOfSDL_SysWMInfo.

Section Respects.

(** [m] moves every world along a preorder [R]. *)
Variable R : World -> World -> Prop.
Hypothesis R_refl : forall w, R w w.
Hypothesis R_trans : forall a b c, R a b -> R b c -> R a c.

Definition respects {A} (m : M A) : Prop := forall w, R w (snd (m w)).

Lemma respects_ret {A} (a : A) : respects (ret a).
Proof. intros w. apply R_refl. Qed.

Lemma respects_throw {A} (e : string) : respects (@throw A e).
Proof. intros w. apply R_refl. Qed.

Lemma respects_bind {A B} (m : M A) (k : A -> M B) :
  respects m -> (forall a, respects (k a)) -> respects (bind m k).
Proof.
  intros Hm Hk w. unfold bind. specialize (Hm w).
  destruct (m w) as [[a| | |] w1]; simpl in *; auto.
  eapply R_trans; [exact Hm | apply Hk].
Qed.

Lemma respects_tryCatch {A} (m : M A) (h : string -> M A) :
  respects m -> (forall e, respects (h e)) -> respects (tryCatch m h).
Proof.
  intros Hm Hh w. unfold tryCatch. specialize (Hm w).
  destruct (m w) as [[a| e | |] w1]; simpl in *; auto.
  eapply R_trans; [exact Hm | apply Hh].
Qed.

Lemma respects_if {A} (b : bool) (m1 m2 : M A) :
  respects m1 -> respects m2 -> respects (if b then m1 else m2).
Proof. destruct b; auto. Qed.

End Respects.

(** The trace only grows, and by actions satisfying [P]. *)
Definition grows (P : Action -> Prop) (w w' : World) : Prop :=
  exists new, trace w' = trace w ++ new /\ Forall P new.

Lemma grows_refl P w : grows P w w.
Proof. exists []. split; [now rewrite app_nil_r | constructor]. Qed.

Lemma grows_trans P a b c : grows P a b -> grows P b c -> grows P a c.
Proof.
  intros (n1 & E1 & F1) (n2 & E2 & F2). exists (n1 ++ n2). split.
  - now rewrite E2, E1, app_assoc.
  - apply Forall_app; auto.
Qed.

Definition emits_only {A} (P : Action -> Prop) (m : M A) : Prop :=
  respects (grows P) m.

Lemma run_trace_app {A} (m : M A) (w : World) (new : list Action) :
  trace (snd (m w)) = trace w ++ new -> run_trace m w = new.
Proof.
  intros H. unfold run_trace. rewrite H, skipn_app, skipn_all, Nat.sub_diag.
  reflexivity.
Qed.

Lemma emits_only_run_trace {A} P (m : M A) (w : World) :
  emits_only P m ->
  trace (snd (m w)) = trace w ++ run_trace m w /\ Forall P (run_trace m w).
Proof.
  intros H. destruct (H w) as (new & E & F).
  rewrite (run_trace_app m w new E). auto.
Qed.

(** [running], once false, stays false. *)
Definition stays_stopped (w w' : World) : Prop :=
  running w = false -> running w' = false.

Lemma stays_stopped_refl w : stays_stopped w w.
Proof. intro H; exact H. Qed.

Lemma stays_stopped_trans a b c :
  stays_stopped a b -> stays_stopped b c -> stays_stopped a c.
Proof. unfold stays_stopped. auto. Qed.

(** The buffers keep their sizes. *)
Definition keeps_bufs (w w' : World) : Prop := bufs_ok w -> bufs_ok w'.

Lemma keeps_bufs_refl w : keeps_bufs w w.
Proof. intro H; exact H. Qed.

Lemma keeps_bufs_trans a b c :
  keeps_bufs a b -> keeps_bufs b c -> keeps_bufs a c.
Proof. unfold keeps_bufs. auto. Qed.

(** ** Library resolution *)

Lemma probe_step_missing (h : Host) (c : string) (rest : list string) (w : World) :
  statOk h c = false ->
  probe h (c :: rest) w = probe h rest (set_trace (trace w ++ [ActStat c]) w).
Proof.
  intros H. cbn [probe]. unfold bind, tryCatch, Deno_statSync, bind, emit.
  rewrite H. reflexivity.
Qed.

Lemma probe_step_found (h : Host) (c : string) (rest : list string) (w : World) :
  statOk h c = true ->
  probe h (c :: rest) w = (Ok (Some c), set_trace (trace w ++ [ActStat c]) w).
Proof.
  intros H. cbn [probe]. unfold bind, tryCatch, Deno_statSync, bind, emit.
  rewrite H. reflexivity.
Qed.

Lemma probe_finds (h : Host) (pre : list string) (c : string)
    (post : list string) (w : World) :
  Forall (fun p => statOk h p = false) pre ->
  statOk h c = true ->
  probe h (pre ++ c :: post) w =
    (Ok (Some c), set_trace (trace w ++ map ActStat (pre ++ [c])) w).
Proof.
  intros Hpre Hc. revert w.
  induction Hpre as [|p pre Hp _ IH]; intros w.
  - apply probe_step_found, Hc.
  - cbn [app]. rewrite probe_step_missing by exact Hp. rewrite IH.
    cbn [trace set_trace map app]. unfold set_trace; cbn.
    now rewrite <- app_assoc.
Qed.

Lemma probe_none (h : Host) (cs : list string) (w : World) :
  Forall (fun p => statOk h p = false) cs ->
  probe h cs w = (Ok None, set_trace (trace w ++ map ActStat cs) w).
Proof.
  intros Hcs. revert w.
  induction Hcs as [|p cs Hp _ IH]; intros w.
  - cbn. rewrite app_nil_r. now destruct w.
  - rewrite probe_step_missing by exact Hp. rewrite IH.
    unfold set_trace; cbn. now rewrite <- app_assoc.
Qed.

(** C6. On macOS [resolveSdl2Library] statSyncs the candidates in order and
    returns the first one that exists; when none exists it returns the bare
    name ["SDL2"]; on every other platform it returns ["SDL2"] at once,
    leaving the world (and so the trace of probes) untouched. *)
Theorem resolveSdl2Library_first_existing (h : Host) (w : World) :
  (BUILD_OS h = "darwin" ->
     (forall pre c post,
        candidates = pre ++ c :: post ->
        Forall (fun p => statOk h p = false) pre ->
        statOk h c = true ->
        resolveSdl2Library h w =
          (Ok c, set_trace (trace w ++ map ActStat (pre ++ [c])) w))
     /\ (Forall (fun p => statOk h p = false) candidates ->
         resolveSdl2Library h w =
           (Ok "SDL2", set_trace (trace w ++ map ActStat candidates) w)))
  /\ (BUILD_OS h <> "darwin" -> resolveSdl2Library h w = (Ok "SDL2", w)).
Proof.
  split.
  - intros Hos. unfold resolveSdl2Library.
    rewrite Hos, String.eqb_refl. cbn [negb].
    split.
    + intros pre c post Hc Hpre Hex. unfold bind at 1.
      rewrite Hc, probe_finds by assumption. reflexivity.
    + intros Hnone. unfold bind at 1. rewrite probe_none by assumption.
      reflexivity.
  - intros Hos. unfold resolveSdl2Library.
    destruct (String.eqb_spec (BUILD_OS h) "darwin") as [E|E]; [contradiction|].
    reflexivity.
Qed.

Definition onlySecondExists : Host :=
  mkHost "darwin" (String.eqb "/opt/homebrew/lib/libSDL2.dylib")
         1 1 [] 1 [].

Definition linuxHost : Host :=
  mkHost "linux" (fun _ => true) 1 0 [] 1 [].

Lemma resolveSdl2Library_first_existing_witness :
  fst (resolveSdl2Library onlySecondExists (boot [] [] []))
    = Ok "/opt/homebrew/lib/libSDL2.dylib"
  /\ resolveSdl2Library linuxHost (boot [] [] []) = (Ok "SDL2", boot [] [] []).
Proof.
  split.
  - rewrite (proj1 (proj1 (resolveSdl2Library_first_existing
                             onlySecondExists (boot [] [] [])) eq_refl)
               ["/opt/homebrew/opt/sdl2/lib/libSDL2.dylib"]
               "/opt/homebrew/lib/libSDL2.dylib"
               ["/usr/local/opt/sdl2/lib/libSDL2.dylib";
                "/usr/local/lib/libSDL2.dylib"; "SDL2"]).
    + reflexivity.
    + reflexivity.
    + repeat constructor.
    + reflexivity.
  - apply (proj2 (resolveSdl2Library_first_existing linuxHost (boot [] [] []))).
    discriminate.
Defined.

(** ** Window creation *)

Ltac unfold_calls :=
  unfold SDL_CreateWindow, SDL_Metal_CreateView, SDL_GetVersion,
    SDL_GetWindowWMInfo, SDL_DestroyWindow, SDL_Quit, Deno_statSync,
    console_log, console_error, assign_running, view_getUint32,
    view_getPointer, emit, tryCatch, bind, ret, throw.

(** Reduces the projections of updated worlds, everywhere; meant for a
    world that has been destructed into its fields. *)
Ltac world_simpl :=
  cbv beta iota zeta delta
    [set_pollQueue set_presentScript set_frameSchedule set_eventBuf
     set_wmInfoBuf set_running set_frame set_trace
     pollQueue presentScript frameSchedule eventBuf wmInfoBuf running frame
     trace buffer fst snd] in *.

(** Puts a trace [((t ++ [a]) ++ [b]) ++ ...] in the form [t ++ [a; b; ...]]. *)
Ltac flatten_trace := cbn; repeat rewrite <- app_assoc; cbn [app].

Ltac solve_run_trace :=
  erewrite run_trace_app by (flatten_trace; reflexivity).

Definition isCreateWindow
    (cw : Host -> string -> Z -> Z -> M WindowPair) : Prop :=
  cw = MainTs.createWindow \/ cw = R3f.createWindow.

(** C8. In both files [createWindow] throws exactly when the native
    create-window call returns null.  Otherwise, on macOS it calls
    [SDL_Metal_CreateView] on the new window and returns whatever that call
    gave, null included; on the other platforms the view handle is null
    and no view-creation call is made. *)
Theorem createWindow_throws_iff_null
    (cw : Host -> string -> Z -> Z -> M WindowPair)
    (h : Host) (title : string) (wd ht : Z) (w : World) :
  isCreateWindow cw ->
  let raw := createWindowRet h in
  let tr := run_trace (cw h title wd ht) w in
  (fst (cw h title wd ht w) = Throw "SDL_CreateWindow failed" <-> raw = null)
  /\ (raw <> null -> BUILD_OS h = "darwin" ->
      fst (cw h title wd ht w) = Ok (mkWindowPair raw (metalViewRet h))
      /\ count_occ Action_eq_dec tr (ActMetalCreateView raw) = 1%nat)
  /\ (raw <> null -> BUILD_OS h <> "darwin" ->
      fst (cw h title wd ht w) = Ok (mkWindowPair raw null)
      /\ forall p, ~ In (ActMetalCreateView p) tr)
  /\ (raw = null -> forall p, ~ In (ActMetalCreateView p) tr).
Proof.
  intros Hcw raw tr. subst tr.
  assert (Hraw : raw = createWindowRet h) by reflexivity. clearbody raw.
  destruct Hcw as [-> | ->];
    unfold MainTs.createWindow, R3f.createWindow; unfold_calls;
    rewrite <- Hraw;
    destruct (Z.eqb_spec raw null) as [Hn|Hn];
    destruct (String.eqb_spec (BUILD_OS h) "darwin") as [Ho|Ho];
    (repeat split; try tauto; try discriminate; intros;
     try solve_run_trace; try contradiction;
     try (cbn; reflexivity);
     try (cbn; intuition discriminate)).
  all: repeat first [ rewrite count_occ_cons_eq by reflexivity
                    | rewrite count_occ_cons_neq by discriminate ];
    reflexivity.
Qed.

Definition macHostNullView : Host := mkHost "darwin" (fun _ => false) 4096 0 [] 1 [].

Lemma createWindow_throws_iff_null_witness :
  fst (MainTs.createWindow macHostNullView "t" 800 600 (boot [] [] []))
    = Ok (mkWindowPair 4096 null)
  /\ fst (R3f.createWindow linuxHost "t" 800 600 (boot [] [] []))
    = Ok (mkWindowPair 1 null).
Proof.
  split.
  - refine (proj1 (proj1 (proj2 (createWindow_throws_iff_null
             MainTs.createWindow macHostNullView
             "t" 800 600 (boot [] [] []) (or_introl eq_refl))) _ _)).
    + discriminate.
    + reflexivity.
  - refine (proj1 (proj1 (proj2 (proj2 (createWindow_throws_iff_null
             R3f.createWindow linuxHost
             "t" 800 600 (boot [] [] []) (or_intror eq_refl)))) _ _)).
    + discriminate.
    + discriminate.
Defined.

(** ** What a piece of the program may do

    [may P m]: whatever the start world, [m] extends the trace by actions
    in [P] only, never turns [running] back on, and leaves the scratch
    buffers at their sizes. *)

Definition step_ok (P : Action -> Prop) (w w' : World) : Prop :=
  grows P w w' /\ stays_stopped w w' /\ keeps_bufs w w'.

Definition may {A} (P : Action -> Prop) (m : M A) : Prop :=
  respects (step_ok P) m.

Section May.

Variable P : Action -> Prop.

Lemma step_ok_refl w : step_ok P w w.
Proof.
  split; [|split];
    [apply grows_refl | apply stays_stopped_refl | apply keeps_bufs_refl].
Qed.

Lemma step_ok_trans a b c : step_ok P a b -> step_ok P b c -> step_ok P a c.
Proof.
  intros (G1 & S1 & K1) (G2 & S2 & K2). split; [|split].
  - eapply grows_trans; eauto.
  - eapply stays_stopped_trans; eauto.
  - eapply keeps_bufs_trans; eauto.
Qed.

Lemma may_ret {A} (a : A) : may P (ret a).
Proof. apply respects_ret, step_ok_refl. Qed.

Lemma may_throw {A} (e : string) : may P (@throw A e).
Proof. apply respects_throw, step_ok_refl. Qed.

Lemma may_bind {A B} (m : M A) (k : A -> M B) :
  may P m -> (forall a, may P (k a)) -> may P (bind m k).
Proof. apply respects_bind, step_ok_trans. Qed.

Lemma may_tryCatch {A} (m : M A) (h : string -> M A) :
  may P m -> (forall e, may P (h e)) -> may P (tryCatch m h).
Proof. apply respects_tryCatch, step_ok_trans. Qed.

Lemma may_if {A} (b : bool) (m1 m2 : M A) :
  may P m1 -> may P m2 -> may P (if b then m1 else m2).
Proof. apply respects_if. Qed.

(** A world update that appends one allowed action and touches neither
    [running] nor the sizes of the buffers. *)
Lemma step_ok_append (a : Action) (w w' : World) :
  P a ->
  trace w' = trace w ++ [a] ->
  (running w = false -> running w' = false) ->
  length (eventBuf w') = length (eventBuf w) ->
  length (wmInfoBuf w') = length (wmInfoBuf w) ->
  step_ok P w w'.
Proof.
  intros Ha Ht Hr He Hw. split; [|split].
  - exists [a]. split; [exact Ht | repeat constructor; exact Ha].
  - exact Hr.
  - intros [H1 H2]. split; congruence.
Qed.

(** A world update that is not observed at all. *)
Lemma step_ok_silent (w w' : World) :
  trace w' = trace w ->
  (running w = false -> running w' = false) ->
  length (eventBuf w') = length (eventBuf w) ->
  length (wmInfoBuf w') = length (wmInfoBuf w) ->
  step_ok P w w'.
Proof.
  intros Ht Hr He Hw. split; [|split].
  - exists []. split; [now rewrite app_nil_r | constructor].
  - exact Hr.
  - intros [H1 H2]. split; congruence.
Qed.

Lemma may_emit (a : Action) : P a -> may P (emit a).
Proof. intros Ha w. now apply (step_ok_append a). Qed.

Lemma may_console_log msg args : P (ActLog msg args) -> may P (console_log msg args).
Proof. apply may_emit. Qed.

Lemma may_console_error msg : P (ActError msg) -> may P (console_error msg).
Proof. apply may_emit. Qed.

Lemma may_assign_stopped : P (ActSetRunning false) -> may P (assign_running false).
Proof. intros Ha w. now apply (step_ok_append (ActSetRunning false)). Qed.

Lemma may_view_getUint32 b off : P (ActPeek b off 4) -> may P (view_getUint32 b off).
Proof.
  intros Ha w. unfold view_getUint32.
  destruct (getUint32 (buffer b w) off); now apply (step_ok_append (ActPeek b off 4)).
Qed.

Lemma may_view_getPointer b off :
  P (ActPeek b off pointerSize) -> may P (view_getPointer b off).
Proof.
  intros Ha w. unfold view_getPointer.
  destruct (getPointer (buffer b w) off);
    now apply (step_ok_append (ActPeek b off pointerSize)).
Qed.

Lemma may_SDL_GetVersion h : P ActGetVersion -> may P (SDL_GetVersion h).
Proof.
  intros Ha w. apply (step_ok_append ActGetVersion); auto.
  cbn. apply blit_length.
Qed.

Lemma may_SDL_GetWindowWMInfo h win :
  P (ActGetWindowWMInfo win) -> may P (SDL_GetWindowWMInfo h win).
Proof.
  intros Ha w. apply (step_ok_append (ActGetWindowWMInfo win)); auto.
  cbn. apply blit_length.
Qed.

Lemma may_SDL_PollEvent : P ActPollEvent -> may P SDL_PollEvent.
Proof.
  intros Ha w. unfold SDL_PollEvent.
  destruct (pollQueue w) as [|[r data|e] q];
    apply (step_ok_append ActPollEvent); auto.
  cbn. apply blit_length.
Qed.

Lemma may_surface_present : P ActPresent -> may P surface_present.
Proof.
  intros Ha w. unfold surface_present.
  destruct (presentScript w) as [|[|] p];
    now apply (step_ok_append ActPresent).
Qed.

Lemma may_SDL_DestroyWindow win : P (ActDestroyWindow win) -> may P (SDL_DestroyWindow win).
Proof. apply may_emit. Qed.

Lemma may_SDL_Quit : P ActQuit -> may P SDL_Quit.
Proof. apply may_emit. Qed.

End May.

Lemma may_weaken {A} (P Q : Action -> Prop) (m : M A) :
  (forall a, P a -> Q a) -> may P m -> may Q m.
Proof.
  intros HPQ Hm w. destruct (Hm w) as ((new & E & F) & S & K).
  split; [|split]; auto. exists new. split; [exact E|].
  eapply Forall_impl; eauto.
Qed.

Lemma may_run_trace {A} P (m : M A) (w : World) :
  may P m ->
  trace (snd (m w)) = trace w ++ run_trace m w /\ Forall P (run_trace m w).
Proof.
  intros H. apply emits_only_run_trace. intros w0. apply (H w0).
Qed.

(** No decoder read leaves its buffer. *)
Definition nofault {A} (m : M A) : Prop :=
  forall w, bufs_ok w -> fst (m w) <> Fault.

Lemma nofault_bind {A B} P (m : M A) (k : A -> M B) :
  nofault m -> may P m -> (forall a, nofault (k a)) -> nofault (bind m k).
Proof.
  intros Hm Hp Hk w Hw. unfold bind.
  specialize (Hm w Hw). destruct (Hp w) as (_ & _ & Kb). specialize (Kb Hw).
  destruct (m w) as [[a| | |] w1]; cbn in *; try congruence.
  now apply Hk.
Qed.

Lemma nofault_tryCatch {A} P (m : M A) (h : string -> M A) :
  nofault m -> may P m -> (forall e, nofault (h e)) -> nofault (tryCatch m h).
Proof.
  intros Hm Hp Hh w Hw. unfold tryCatch.
  specialize (Hm w Hw). destruct (Hp w) as (_ & _ & Kb). specialize (Kb Hw).
  destruct (m w) as [[a| e | |] w1]; cbn in *; try congruence.
  now apply Hh.
Qed.

Lemma nofault_if {A} (b : bool) (m1 m2 : M A) :
  nofault m1 -> nofault m2 -> nofault (if b then m1 else m2).
Proof. destruct b; auto. Qed.

Lemma nofault_ret {A} (a : A) : nofault (ret a).
Proof. intros w _. discriminate. Qed.

Lemma nofault_throw {A} (e : string) : nofault (@throw A e).
Proof. intros w _. discriminate. Qed.

Lemma nofault_emit a : nofault (emit a).
Proof. intros w _. discriminate. Qed.

Definition bufSize (b : BufId) : nat :=
  match b with
  | EventBuf => sizeOfEvent
  | WmInfoBuf => sizeOfSDL_SysWMInfo
  end.

Lemma buffer_length b w : bufs_ok w -> length (buffer b w) = bufSize b.
Proof. intros [He Hw]. destruct b; assumption. Qed.

Lemma nofault_view_getUint32 b off :
  (off + 4 <= bufSize b)%nat -> nofault (view_getUint32 b off).
Proof.
  intros Hb w Hw. unfold view_getUint32, getUint32.
  destruct (slice_in_bounds (buffer b w) off 4) as [bs ->].
  - rewrite buffer_length by assumption. exact Hb.
  - discriminate.
Qed.

Lemma nofault_view_getPointer b off :
  (off + pointerSize <= bufSize b)%nat -> nofault (view_getPointer b off).
Proof.
  intros Hb w Hw. unfold view_getPointer, getPointer.
  destruct (slice_in_bounds (buffer b w) off pointerSize) as [bs ->].
  - rewrite buffer_length by assumption. exact Hb.
  - discriminate.
Qed.

(** ** The actions each part of the program can perform *)

Definition anything (a : Action) : Prop := True.

Definition surface_alphabet (a : Action) : Prop :=
  match a with
  | ActLog _ _ | ActGetVersion | ActGetWindowWMInfo _ => True
  | ActPeek WmInfoBuf off len =>
      (off = 4 /\ len = 4)%nat
      \/ ((off = 8 \/ off = 16 \/ off = 24) /\ len = 8)%nat
  | _ => False
  end.

Definition drain_alphabet (a : Action) : Prop :=
  match a with
  | ActPollEvent | ActLog _ _ | ActError _ | ActSetRunning false => True
  | ActPeek EventBuf off len => (off = 0 /\ len = 4)%nat
  | _ => False
  end.

Definition frame_alphabet (a : Action) : Prop :=
  match a with
  | ActRender | ActPresent | ActError _ | ActSetRunning false => True
  | _ => False
  end.

Definition main_loop_alphabet (a : Action) : Prop :=
  match a with
  | ActPollEvent | ActLog _ _ | ActSetRunning false
  | ActRotate | ActRender | ActPresent => True
  | ActPeek EventBuf off len => (off = 0 /\ len = 4)%nat
  | _ => False
  end.

Definition r3f_loop_alphabet (a : Action) : Prop :=
  match a with
  | ActPollEvent | ActError _ | ActSetRunning false
  | ActRender | ActPresent | ActSleep 1 => True
  | ActPeek EventBuf off len => (off = 0 /\ len = 4)%nat
  | _ => False
  end.

Ltac may_step side :=
  first
    [ apply may_bind; [|intros ?]
    | apply may_tryCatch; [|intros ?]
    | apply may_if
    | apply may_ret
    | apply may_throw
    | apply may_console_log; side
    | apply may_console_error; side
    | apply may_assign_stopped; side
    | apply may_view_getUint32; side
    | apply may_view_getPointer; side
    | apply may_SDL_GetVersion; side
    | apply may_SDL_GetWindowWMInfo; side
    | apply may_SDL_PollEvent; side
    | apply may_surface_present; side
    | apply may_emit; side ].

Ltac may_tac side := repeat (may_step side).

Section SurfaceMay.

Variable P : Action -> Prop.
Hypothesis HP : forall a, surface_alphabet a -> P a.

Ltac side := solve [apply HP; cbn; intuition auto].

Lemma main_createSurface_may h win mv wd ht :
  may P (MainTs.createSurface h win mv wd ht).
Proof. unfold MainTs.createSurface. may_tac side. Qed.

Lemma r3f_createSurface_may h win mv wd ht :
  may P (R3f.createSurface h win mv wd ht).
Proof. unfold R3f.createSurface. may_tac side. Qed.

End SurfaceMay.

Section DrainMay.

Variable P : Action -> Prop.
Hypothesis HP : forall a, drain_alphabet a -> P a.

Ltac side := solve [apply HP; cbn; intuition auto].

Lemma main_pollLoop_may n : may P (MainTs.pollLoop n).
Proof.
  induction n as [|n IH]; cbn [MainTs.pollLoop].
  - intros w. apply step_ok_refl.
  - may_tac side. exact IH.
Qed.

Lemma main_drainEvents_may : may P MainTs.drainEvents.
Proof. intros w. apply main_pollLoop_may. Qed.

Lemma r3f_pollLoop_may n : may P (R3f.pollLoop n).
Proof.
  induction n as [|n IH]; cbn [R3f.pollLoop].
  - intros w. apply step_ok_refl.
  - may_tac side. exact IH.
Qed.

Lemma r3f_drainEvents_may : may P R3f.drainEvents.
Proof. intros w. apply r3f_pollLoop_may. Qed.

(** The [try { ... } catch] around the drain of r3f.tsx. *)
Lemma r3f_guarded_drain_may :
  may P (tryCatch R3f.drainEvents
           (fun _ => console_error "Error in SDL loop:";; assign_running false)).
Proof.
  apply may_tryCatch; [apply r3f_drainEvents_may | intros e].
  may_tac side.
Qed.

End DrainMay.

Section FrameMay.

Variable P : Action -> Prop.
Hypothesis HP : forall a, frame_alphabet a -> P a.

Ltac side := solve [apply HP; cbn; intuition auto].

Lemma r3f_afterEffect_may : may P R3f.afterEffect.
Proof. unfold R3f.afterEffect. may_tac side. Qed.

Lemma r3f_r3fFrame_may : may P R3f.r3fFrame.
Proof.
  unfold R3f.r3fFrame.
  apply may_bind; [apply may_emit; side | intros _; apply r3f_afterEffect_may].
Qed.

Lemma r3f_r3fFrames_may n : may P (R3f.r3fFrames n).
Proof.
  induction n as [|n IH]; cbn [R3f.r3fFrames].
  - apply may_ret.
  - apply may_bind; [apply r3f_r3fFrame_may | intros _; exact IH].
Qed.

Lemma r3f_scheduledFrames_may : may P R3f.scheduledFrames.
Proof.
  intros w. unfold R3f.scheduledFrames.
  destruct (frameSchedule w) as [|n s]; [apply step_ok_refl|].
  eapply step_ok_trans; [|apply r3f_r3fFrames_may].
  now apply step_ok_silent.
Qed.

End FrameMay.

Section MainLoopMay.

Variable P : Action -> Prop.
Hypothesis HP : forall a, main_loop_alphabet a -> P a.

Ltac side := solve [apply HP; cbn; intuition auto].

(** The drain of main.ts writes no error message. *)
Lemma main_drainEvents_may_loop : may P MainTs.drainEvents.
Proof.
  intros w. unfold MainTs.drainEvents.
  generalize (S (length (pollQueue w))). intros n. revert w.
  induction n as [|n IH]; cbn [MainTs.pollLoop].
  - intros w. apply step_ok_refl.
  - may_tac side. exact IH.
Qed.

Lemma main_logFrame_may : may P MainTs.logFrame.
Proof.
  intros w. unfold MainTs.logFrame.
  destruct ((frame w =? 0)%nat || (frame w mod 120 =? 0)%nat).
  - apply may_console_log. side.
  - apply may_ret.
Qed.

Lemma main_nextFrame_may : may P MainTs.nextFrame.
Proof. intros w. now apply step_ok_silent. Qed.

Lemma main_iteration_may : may P MainTs.iteration.
Proof.
  unfold MainTs.iteration, MainTs.renderer_render.
  apply may_bind; [apply main_drainEvents_may_loop | intros _].
  apply may_bind; [apply may_emit; side | intros _].
  apply may_bind; [apply main_logFrame_may | intros _].
  apply may_bind; [apply may_emit; side | intros _].
  apply may_bind; [apply may_surface_present; side | intros _].
  apply main_nextFrame_may.
Qed.

Lemma main_loop_may fuel : may P (MainTs.loop fuel).
Proof.
  induction fuel as [|fuel IH]; intros w; cbn [MainTs.loop];
    destruct (running w); try apply step_ok_refl.
  apply (may_bind P MainTs.iteration (fun _ => MainTs.loop fuel)).
  - apply main_iteration_may.
  - intros _. exact IH.
Qed.

End MainLoopMay.

Section R3fLoopMay.

Variable P : Action -> Prop.
Hypothesis HP : forall a, r3f_loop_alphabet a -> P a.

Ltac side := solve [apply HP; cbn; intuition auto].

Lemma r3f_guarded_drain_may_loop :
  may P (tryCatch R3f.drainEvents
           (fun _ => console_error "Error in SDL loop:";; assign_running false)).
Proof.
  apply may_tryCatch; [|intros e; may_tac side].
  intros w. unfold R3f.drainEvents.
  generalize (S (length (pollQueue w))). intros n. revert w.
  induction n as [|n IH]; cbn [R3f.pollLoop].
  - intros w. apply step_ok_refl.
  - may_tac side. exact IH.
Qed.

Lemma r3f_sleep_may : may P (R3f.sleep 1).
Proof.
  unfold R3f.sleep.
  apply may_bind; [apply may_emit; side | intros _].
  apply r3f_scheduledFrames_may.
  intros a Ha. apply HP.
  destruct a; cbn in *; tauto.
Qed.

Lemma r3f_iteration_may : may P R3f.iteration.
Proof.
  unfold R3f.iteration.
  apply may_bind; [apply r3f_guarded_drain_may_loop | intros _; apply r3f_sleep_may].
Qed.

Lemma r3f_loop_may fuel : may P (R3f.loop fuel).
Proof.
  induction fuel as [|fuel IH]; intros w; cbn [R3f.loop];
    destruct (running w); try apply step_ok_refl.
  apply (may_bind P R3f.iteration (fun _ => R3f.loop fuel)).
  - apply r3f_iteration_may.
  - intros _. exact IH.
Qed.

End R3fLoopMay.

(** ** Every decoder read stays inside its buffer *)

Lemma nofault_SDL_GetVersion h : nofault (SDL_GetVersion h).
Proof. intros w _. discriminate. Qed.

Lemma nofault_SDL_GetWindowWMInfo h win : nofault (SDL_GetWindowWMInfo h win).
Proof. intros w _. discriminate. Qed.

Lemma nofault_SDL_PollEvent : nofault SDL_PollEvent.
Proof.
  intros w _. unfold SDL_PollEvent.
  destruct (pollQueue w) as [|[r data|e] q]; discriminate.
Qed.

Lemma nofault_surface_present : nofault surface_present.
Proof.
  intros w _. unfold surface_present.
  destruct (presentScript w) as [|[|] p]; discriminate.
Qed.

Lemma nofault_assign_running b : nofault (assign_running b).
Proof. intros w _. discriminate. Qed.

Ltac trivial_side := solve [exact I].

Ltac in_bounds :=
  unfold pointerSize, bufSize, sizeOfSDL_SysWMInfo, sizeOfEvent; lia.

Ltac nofault_step :=
  first
    [ apply (nofault_bind anything); [ | may_tac trivial_side | intros ? ]
    | apply (nofault_tryCatch anything); [ | may_tac trivial_side | intros ? ]
    | apply nofault_if
    | apply nofault_ret
    | apply nofault_throw
    | apply nofault_emit
    | apply nofault_assign_running
    | apply nofault_SDL_GetVersion
    | apply nofault_SDL_GetWindowWMInfo
    | apply nofault_SDL_PollEvent
    | apply nofault_surface_present
    | apply nofault_view_getUint32; in_bounds
    | apply nofault_view_getPointer; in_bounds ].

Lemma main_createSurface_nofault h win mv wd ht :
  nofault (MainTs.createSurface h win mv wd ht).
Proof. unfold MainTs.createSurface. repeat nofault_step. Qed.

Lemma r3f_createSurface_nofault h win mv wd ht :
  nofault (R3f.createSurface h win mv wd ht).
Proof. unfold R3f.createSurface. repeat nofault_step. Qed.

(** With [n] above the number of queued answers, the inner loop ends by
    itself: it never runs into the bound. *)
Lemma main_pollLoop_total (n : nat) (w : World) :
  (length (pollQueue w) < n)%nat -> fst (MainTs.pollLoop n w) <> OutOfFuel.
Proof.
  revert w. induction n as [|n IH]; intros w Hn; [lia|].
  cbn [MainTs.pollLoop]. unfold bind at 1. unfold SDL_PollEvent.
  destruct (pollQueue w) as [|[r data|e] q] eqn:Eq; cbn [length] in Hn.
  - cbn. discriminate.
  - destruct (r =? 1); [|discriminate].
    unfold bind at 1, view_getUint32.
    match goal with |- context [getUint32 ?b ?o] => destruct (getUint32 b o) end;
      [|discriminate].
    destruct (z =? SDL_QUIT); [discriminate|].
    apply IH. cbn. lia.
  - discriminate.
Qed.

Lemma r3f_pollLoop_total (n : nat) (w : World) :
  (length (pollQueue w) < n)%nat -> fst (R3f.pollLoop n w) <> OutOfFuel.
Proof.
  revert w. induction n as [|n IH]; intros w Hn; [lia|].
  cbn [R3f.pollLoop]. unfold bind at 1. unfold SDL_PollEvent.
  destruct (pollQueue w) as [|[r data|e] q] eqn:Eq; cbn [length] in Hn.
  - cbn. discriminate.
  - destruct (r =? 1); [|discriminate].
    unfold bind at 1, view_getUint32.
    match goal with |- context [getUint32 ?b ?o] => destruct (getUint32 b o) end;
      [|discriminate].
    destruct (z =? SDL_QUIT); [discriminate|].
    apply IH. cbn. lia.
  - discriminate.
Qed.

Lemma main_pollLoop_nofault n : nofault (MainTs.pollLoop n).
Proof.
  induction n as [|n IH]; cbn [MainTs.pollLoop].
  - intros w _. discriminate.
  - repeat nofault_step. exact IH.
Qed.

Lemma r3f_pollLoop_nofault n : nofault (R3f.pollLoop n).
Proof.
  induction n as [|n IH]; cbn [R3f.pollLoop].
  - intros w _. discriminate.
  - repeat nofault_step. exact IH.
Qed.

Lemma main_drainEvents_nofault : nofault MainTs.drainEvents.
Proof. intros w. apply main_pollLoop_nofault. Qed.

Lemma r3f_drainEvents_nofault : nofault R3f.drainEvents.
Proof. intros w. apply r3f_pollLoop_nofault. Qed.

Lemma main_iteration_nofault : nofault MainTs.iteration.
Proof.
  unfold MainTs.iteration, MainTs.renderer_render.
  apply (nofault_bind anything);
    [apply main_drainEvents_nofault
    | apply main_drainEvents_may; intros; exact I | intros _].
  apply (nofault_bind anything);
    [apply nofault_emit | apply may_emit; exact I | intros _].
  apply (nofault_bind anything);
    [ | apply main_logFrame_may; intros; exact I | intros _].
  { intros w _. unfold MainTs.logFrame.
    destruct (_ || _); discriminate. }
  apply (nofault_bind anything);
    [apply nofault_emit | apply may_emit; exact I | intros _].
  apply (nofault_bind anything);
    [apply nofault_surface_present | apply may_surface_present; exact I
    | intros _].
  intros w _. discriminate.
Qed.

Lemma main_loop_nofault fuel : nofault (MainTs.loop fuel).
Proof.
  induction fuel as [|fuel IH]; intros w Hw; cbn [MainTs.loop];
    destruct (running w); try discriminate.
  apply (nofault_bind anything MainTs.iteration (fun _ => MainTs.loop fuel));
    auto using main_iteration_nofault.
  apply main_iteration_may. intros; exact I.
Qed.

Lemma r3f_r3fFrames_nofault n : nofault (R3f.r3fFrames n).
Proof.
  induction n as [|n IH]; cbn [R3f.r3fFrames].
  - apply nofault_ret.
  - unfold R3f.r3fFrame, R3f.afterEffect. repeat nofault_step. exact IH.
Qed.

Lemma r3f_iteration_nofault : nofault R3f.iteration.
Proof.
  unfold R3f.iteration.
  apply (nofault_bind anything).
  - apply (nofault_tryCatch anything).
    + apply r3f_drainEvents_nofault.
    + apply r3f_drainEvents_may. intros; exact I.
    + intros e. repeat nofault_step.
  - apply may_tryCatch; [apply r3f_drainEvents_may; intros; exact I|].
    intros e. may_tac trivial_side.
  - intros _. unfold R3f.sleep.
    apply (nofault_bind anything);
      [apply nofault_emit | apply may_emit; exact I | intros _].
    intros w Hw. unfold R3f.scheduledFrames.
    destruct (frameSchedule w) as [|n s]; [discriminate|].
    apply r3f_r3fFrames_nofault. exact Hw.
Qed.

Lemma r3f_loop_nofault fuel : nofault (R3f.loop fuel).
Proof.
  induction fuel as [|fuel IH]; intros w Hw; cbn [R3f.loop];
    destruct (running w); try discriminate.
  apply (nofault_bind anything R3f.iteration (fun _ => R3f.loop fuel));
    auto using r3f_iteration_nofault.
  apply r3f_iteration_may. intros; exact I.
Qed.

(** The reads the decoder is documented to make, per buffer. *)
Definition peek_documented (a : Action) : Prop :=
  match a with
  | ActPeek EventBuf off len => (off = 0 /\ len = 4)%nat
  | ActPeek WmInfoBuf off len =>
      (off = 4 /\ len = 4)%nat
      \/ ((off = 8 \/ off = 16 \/ off = 24) /\ len = 8)%nat
  | _ => True
  end.

Definition peek_in_bounds (a : Action) : Prop :=
  match a with
  | ActPeek b off len => (off + len <= bufSize b)%nat
  | _ => True
  end.

(** What "the reads of [m] stay in bounds" means: from buffers of the
    allocated sizes, [m] never faults, performs documented reads only, and
    leaves the buffers at their sizes. *)
Definition reads_in_bounds {A} (m : M A) : Prop :=
  forall w, bufs_ok w ->
    fst (m w) <> Fault
    /\ Forall peek_documented (run_trace m w)
    /\ bufs_ok (snd (m w)).

Lemma reads_in_bounds_intro {A} (P : Action -> Prop) (m : M A) :
  (forall a, P a -> peek_documented a) ->
  may P m -> nofault m -> reads_in_bounds m.
Proof.
  intros HP Hm Hn w Hw. split; [now apply Hn|]. split.
  - eapply Forall_impl; [exact HP|]. now apply may_run_trace.
  - destruct (Hm w) as (_ & _ & K). now apply K.
Qed.

(** C10. The event record is 56 bytes and the window-manager-info buffer
    519; every documented read (4 bytes at 0 of the former; 4 bytes at 4
    and 8 bytes at 8, 16, 24 of the latter, ending at byte 32 at most) fits;
    and both [createSurface] variants, both drains and both loops make
    documented reads only and never fault, whatever the buffers hold. *)
Theorem decoder_reads_in_bounds :
  sizeOfEvent = 56%nat
  /\ sizeOfSDL_SysWMInfo = 519%nat
  /\ (forall a, peek_documented a -> peek_in_bounds a)
  /\ (forall off len, peek_documented (ActPeek WmInfoBuf off len) ->
      (off + len <= 32)%nat)
  /\ (forall h win mv wd ht,
        reads_in_bounds (MainTs.createSurface h win mv wd ht)
        /\ reads_in_bounds (R3f.createSurface h win mv wd ht))
  /\ reads_in_bounds MainTs.drainEvents
  /\ reads_in_bounds R3f.drainEvents
  /\ (forall fuel,
        reads_in_bounds (MainTs.loop fuel) /\ reads_in_bounds (R3f.loop fuel)).
Proof.
  split; [reflexivity|]. split; [reflexivity|]. split; [|split].
  - intros [] H; try exact I.
    destruct buf; unfold peek_documented in H;
      unfold peek_in_bounds, bufSize, sizeOfEvent, sizeOfSDL_SysWMInfo; lia.
  - intros off len H. unfold peek_documented in H. lia.
  - assert (HS : forall a, surface_alphabet a -> peek_documented a)
      by (intros [] H; try exact I; destruct buf; cbn in *; tauto).
    assert (HM : forall a, main_loop_alphabet a -> peek_documented a)
      by (intros [] H; try exact I; destruct buf; cbn in *; tauto).
    assert (HR : forall a, r3f_loop_alphabet a -> peek_documented a)
      by (intros [] H; try exact I; destruct buf; cbn in *; tauto).
    assert (HD : forall a, drain_alphabet a -> peek_documented a)
      by (intros [] H; try exact I; destruct buf; cbn in *; tauto).
    split; [intros h win mv wd ht; split
          | split; [| split; [| intros fuel; split]]].
    + apply (reads_in_bounds_intro surface_alphabet); auto.
      * now apply main_createSurface_may.
      * apply main_createSurface_nofault.
    + apply (reads_in_bounds_intro surface_alphabet); auto.
      * now apply r3f_createSurface_may.
      * apply r3f_createSurface_nofault.
    + apply (reads_in_bounds_intro drain_alphabet); auto.
      * now apply main_drainEvents_may.
      * apply main_drainEvents_nofault.
    + apply (reads_in_bounds_intro drain_alphabet); auto.
      * now apply r3f_drainEvents_may.
      * apply r3f_drainEvents_nofault.
    + apply (reads_in_bounds_intro main_loop_alphabet); auto.
      * now apply main_loop_may.
      * apply main_loop_nofault.
    + apply (reads_in_bounds_intro r3f_loop_alphabet); auto.
      * now apply r3f_loop_may.
      * apply r3f_loop_nofault.
Qed.

(** ** Surface creation *)

(** The window-manager-info buffer once [SDL_GetVersion] and
    [SDL_GetWindowWMInfo] have written to it. *)
Definition wmInfoAfterQuery (h : Host) (w : World) : list byte :=
  blit (wmInfoBytes h) (blit (versionBytes h) (wmInfoBuf w)).

(** What [createSurface] of main.ts comes to, in terms of the four fields
    it can decode. *)
Lemma main_createSurface_result h win mv wd ht w sub p8 p16 p24 :
  wmInfoRet h <> 0 ->
  getUint32 (wmInfoAfterQuery h w) 4 = Some sub ->
  getPointer (wmInfoAfterQuery h w) 8 = Some p8 ->
  getPointer (wmInfoAfterQuery h w) 16 = Some p16 ->
  getPointer (wmInfoAfterQuery h w) 24 = Some p24 ->
  fst (MainTs.createSurface h win mv wd ht w) =
    if String.eqb (BUILD_OS h) "darwin" then
      if sub =? SDL_SYSWM_COCOA
      then Ok (mkSurface "cocoa" p8 mv wd ht)
      else Throw "Expected SDL_SYSWM_COCOA on macOS"
    else if String.eqb (BUILD_OS h) "windows" then
      if sub =? SDL_SYSWM_WINDOWS then Ok (mkSurface "win32" p8 p24 wd ht)
      else if sub =? SDL_SYSWM_WINRT then Throw "WinRT is not supported"
      else Throw "Expected SDL_SYSWM_WINDOWS on Windows"
    else if String.eqb (BUILD_OS h) "linux" then
      if sub =? SDL_SYSWM_X11 then Ok (mkSurface "x11" p16 p8 wd ht)
      else if sub =? SDL_SYSWM_WAYLAND then Ok (mkSurface "wayland" p16 p8 wd ht)
      else Throw "Expected SDL_SYSWM_X11 or SDL_SYSWM_WAYLAND on Linux"
    else Throw "Unsupported platform".
Proof.
  unfold wmInfoAfterQuery. intros Hok Hs H8 H16 H24.
  destruct w as [pq ps fs eb wb rn fr tr].
  unfold MainTs.createSurface. unfold_calls. world_simpl. cbn [Nat.add].
  destruct (Z.eqb_spec (wmInfoRet h) 0) as [E|_]; [contradiction|].
  rewrite Hs.
  destruct (String.eqb (BUILD_OS h) "darwin").
  { rewrite H8. destruct (sub =? SDL_SYSWM_COCOA); reflexivity. }
  destruct (String.eqb (BUILD_OS h) "windows").
  { rewrite H8. destruct (sub =? SDL_SYSWM_WINDOWS).
    - rewrite H24. reflexivity.
    - destruct (sub =? SDL_SYSWM_WINRT); reflexivity. }
  destruct (String.eqb (BUILD_OS h) "linux"); [|reflexivity].
  rewrite H8, H16.
  destruct (sub =? SDL_SYSWM_X11); [reflexivity|].
  destruct (sub =? SDL_SYSWM_WAYLAND); reflexivity.
Qed.

(** The same for r3f.tsx, whose macOS and Windows branches do not look at
    the discriminant. *)
Lemma r3f_createSurface_result h win mv wd ht w sub p8 p16 p24 :
  wmInfoRet h <> 0 ->
  getUint32 (wmInfoAfterQuery h w) 4 = Some sub ->
  getPointer (wmInfoAfterQuery h w) 8 = Some p8 ->
  getPointer (wmInfoAfterQuery h w) 16 = Some p16 ->
  getPointer (wmInfoAfterQuery h w) 24 = Some p24 ->
  fst (R3f.createSurface h win mv wd ht w) =
    if String.eqb (BUILD_OS h) "darwin" then
      Ok (mkSurface "cocoa" p8 mv wd ht)
    else if String.eqb (BUILD_OS h) "windows" then
      Ok (mkSurface "win32" p8 p24 wd ht)
    else if String.eqb (BUILD_OS h) "linux" then
      if sub =? SDL_SYSWM_X11 then Ok (mkSurface "x11" p16 p8 wd ht)
      else if sub =? SDL_SYSWM_WAYLAND then Ok (mkSurface "wayland" p16 p8 wd ht)
      else Throw "Expected SDL_SYSWM_X11 or SDL_SYSWM_WAYLAND on Linux"
    else Throw "Unsupported platform".
Proof.
  unfold wmInfoAfterQuery. intros Hok Hs H8 H16 H24.
  destruct w as [pq ps fs eb wb rn fr tr].
  unfold R3f.createSurface. unfold_calls. world_simpl. cbn [Nat.add].
  destruct (Z.eqb_spec (wmInfoRet h) 0) as [E|_]; [contradiction|].
  rewrite Hs.
  destruct (String.eqb (BUILD_OS h) "darwin").
  { rewrite H8. reflexivity. }
  destruct (String.eqb (BUILD_OS h) "windows").
  { rewrite H8, H24. reflexivity. }
  destruct (String.eqb (BUILD_OS h) "linux"); [|reflexivity].
  rewrite H8, H16.
  destruct (sub =? SDL_SYSWM_X11); [reflexivity|].
  destruct (sub =? SDL_SYSWM_WAYLAND); reflexivity.
Qed.

(** A synthetic window-manager-info record with known field values: four
    bytes of version header, the discriminant, then three pointer-sized
    slots at 8, 16 and 24. *)
Definition syntheticWmInfo (version : list byte)
    (subsystem slot8 slot16 slot24 : Z) (rest : list byte) : list byte :=
  version ++ le_encode 4 subsystem ++ le_encode pointerSize slot8
          ++ le_encode pointerSize slot16 ++ le_encode pointerSize slot24
          ++ rest.

Lemma getUint32_at (pre rest : list byte) (off : nat) (v : Z) :
  length pre = off -> 0 <= v < 2 ^ 32 ->
  getUint32 (pre ++ le_encode 4 v ++ rest) off = Some v.
Proof.
  intros Hl Hv. unfold getUint32.
  rewrite slice_skip by exact Hl.
  rewrite slice_here by apply le_encode_length.
  cbn [option_map]. f_equal. apply le_decode_encode.
  change (256 ^ Z.of_nat 4) with (2 ^ 32). exact Hv.
Qed.

Lemma getPointer_at (pre rest : list byte) (off : nat) (v : Z) :
  length pre = off -> 0 <= v < 2 ^ 64 ->
  getPointer (pre ++ le_encode pointerSize v ++ rest) off = Some v.
Proof.
  intros Hl Hv. unfold getPointer.
  rewrite slice_skip by exact Hl.
  rewrite slice_here by apply le_encode_length.
  cbn [option_map]. f_equal. apply le_decode_encode.
  change (256 ^ Z.of_nat pointerSize) with (2 ^ 64). exact Hv.
Qed.

Lemma syntheticWmInfo_fields version sub s8 s16 s24 rest tail :
  length version = 4%nat ->
  0 <= sub < 2 ^ 32 -> 0 <= s8 < 2 ^ 64 ->
  0 <= s16 < 2 ^ 64 -> 0 <= s24 < 2 ^ 64 ->
  let buf := syntheticWmInfo version sub s8 s16 s24 rest ++ tail in
  getUint32 buf 4 = Some sub
  /\ getPointer buf 8 = Some s8
  /\ getPointer buf 16 = Some s16
  /\ getPointer buf 24 = Some s24.
Proof.
  intros Hv Hsub H8 H16 H24. unfold syntheticWmInfo. cbn zeta.
  repeat rewrite <- app_assoc.
  split; [now apply getUint32_at|].
  split.
  - rewrite (app_assoc version). apply getPointer_at; auto.
    rewrite length_app, le_encode_length, Hv. reflexivity.
  - split.
    + rewrite (app_assoc version), (app_assoc (version ++ _)).
      apply getPointer_at; auto.
      rewrite !length_app, !le_encode_length, Hv. reflexivity.
    + rewrite (app_assoc version), (app_assoc (version ++ _)),
        (app_assoc ((version ++ _) ++ _)).
      apply getPointer_at; auto.
      rewrite !length_app, !le_encode_length, Hv. reflexivity.
Qed.

Lemma wmInfoAfterQuery_synthetic h w version sub s8 s16 s24 rest :
  bufs_ok w ->
  wmInfoBytes h = syntheticWmInfo version sub s8 s16 s24 rest ->
  (length (wmInfoBytes h) <= sizeOfSDL_SysWMInfo)%nat ->
  exists tail,
    wmInfoAfterQuery h w = syntheticWmInfo version sub s8 s16 s24 rest ++ tail.
Proof.
  intros [_ Hw] Hb Hl. unfold wmInfoAfterQuery.
  rewrite blit_prefix by (rewrite blit_length, Hw; exact Hl).
  rewrite Hb. eauto.
Qed.

(** C5. On a synthetic window-manager-info record (version header, the
    discriminant as a little-endian u32 at offset 4, pointer-sized values at
    8, 16 and 24) both [createSurface] variants decode the discriminant at
    offset 4 and hand the surface exactly the documented fields: macOS/Cocoa
    the view at 8; Windows/Win32 the window at 8 and the instance at
    8 + pointerSize + 8 = 24; Linux the display at 8 and the surface/window
    at 8 + pointerSize = 16. *)
Theorem createSurface_reads_documented_offsets
    (h : Host) (w : World) (win mv wd ht : Z)
    (version rest : list byte) (sub s8 s16 s24 : Z) :
  bufs_ok w ->
  wmInfoRet h <> 0 ->
  wmInfoBytes h = syntheticWmInfo version sub s8 s16 s24 rest ->
  (length (wmInfoBytes h) <= sizeOfSDL_SysWMInfo)%nat ->
  length version = 4%nat ->
  0 <= sub < 2 ^ 32 ->
  0 <= s8 < 2 ^ 64 -> 0 <= s16 < 2 ^ 64 -> 0 <= s24 < 2 ^ 64 ->
  let buf := wmInfoAfterQuery h w in
  let main := fst (MainTs.createSurface h win mv wd ht w) in
  let r3f := fst (R3f.createSurface h win mv wd ht w) in
  (getUint32 buf 4 = Some sub
   /\ getPointer buf 8 = Some s8
   /\ getPointer buf (8 + pointerSize) = Some s16
   /\ getPointer buf (8 + pointerSize + 8) = Some s24)
  /\ (BUILD_OS h = "darwin" -> sub = SDL_SYSWM_COCOA ->
      main = Ok (mkSurface "cocoa" s8 mv wd ht) /\ r3f = main)
  /\ (BUILD_OS h = "windows" -> sub = SDL_SYSWM_WINDOWS ->
      main = Ok (mkSurface "win32" s8 s24 wd ht) /\ r3f = main)
  /\ (BUILD_OS h = "linux" -> sub = SDL_SYSWM_X11 ->
      main = Ok (mkSurface "x11" s16 s8 wd ht) /\ r3f = main)
  /\ (BUILD_OS h = "linux" -> sub = SDL_SYSWM_WAYLAND ->
      main = Ok (mkSurface "wayland" s16 s8 wd ht) /\ r3f = main).
Proof.
  intros Hw Hok Hb Hl Hv Hsub H8 H16 H24 buf main r3f.
  destruct (wmInfoAfterQuery_synthetic h w version sub s8 s16 s24 rest Hw Hb Hl)
    as [tail Ht].
  destruct (syntheticWmInfo_fields version sub s8 s16 s24 rest tail
              Hv Hsub H8 H16 H24) as (F4 & F8 & F16 & F24).
  rewrite <- Ht in F4, F8, F16, F24. fold buf in F4, F8, F16, F24.
  split; [repeat split; assumption|].
  assert (Em := main_createSurface_result h win mv wd ht w sub s8 s16 s24
                  Hok F4 F8 F16 F24).
  assert (Er := r3f_createSurface_result h win mv wd ht w sub s8 s16 s24
                  Hok F4 F8 F16 F24).
  fold main in Em. fold r3f in Er.
  split; [|split; [|split]];
    intros Hos Hs; rewrite Er, Em, Hos, Hs; split; reflexivity.
Qed.

Definition cocoaRecord : list byte :=
  syntheticWmInfo [x02; x1e; x0a; x00] SDL_SYSWM_COCOA 4660 22136 39612 [].

Definition macHost : Host :=
  mkHost "darwin" (fun _ => false) 4096 8192 [x02; x1e; x0a] 1 cocoaRecord.

Lemma createSurface_reads_documented_offsets_witness :
  fst (MainTs.createSurface macHost 4096 8192 WIDTH HEIGHT (boot [] [] []))
    = Ok (mkSurface "cocoa" 4660 8192 WIDTH HEIGHT).
Proof.
  refine (proj1 (proj1 (proj2 (createSurface_reads_documented_offsets
    macHost (boot [] [] []) 4096 8192 WIDTH HEIGHT
    [x02; x1e; x0a; x00] [] SDL_SYSWM_COCOA 4660 22136 39612
    _ _ _ _ _ _ _ _ _)) _ _)).
  all: try reflexivity.
  all: try (split; reflexivity).
  all: try (unfold SDL_SYSWM_COCOA; lia).
  - cbn. discriminate.
  - apply Nat.leb_le. reflexivity.
Defined.

(** ** Subsystem check *)

(** The discriminants valid on each target. *)
Definition validSubsystem (os : string) (sub : Z) : bool :=
  if String.eqb os "darwin" then sub =? SDL_SYSWM_COCOA
  else if String.eqb os "windows" then sub =? SDL_SYSWM_WINDOWS
  else if String.eqb os "linux"
       then (sub =? SDL_SYSWM_X11) || (sub =? SDL_SYSWM_WAYLAND)
  else false.

(** The messages with which [createSurface] refuses a subsystem. *)
Definition unsupportedSubsystemError (msg : string) : Prop :=
  In msg [ "Expected SDL_SYSWM_COCOA on macOS";
           "WinRT is not supported";
           "Expected SDL_SYSWM_WINDOWS on Windows";
           "Expected SDL_SYSWM_X11 or SDL_SYSWM_WAYLAND on Linux" ].

Definition supportedOs (os : string) : Prop :=
  os = "darwin" \/ os = "windows" \/ os = "linux".

Lemma decoded_fields h w :
  bufs_ok w ->
  exists sub p8 p16 p24,
    getUint32 (wmInfoAfterQuery h w) 4 = Some sub
    /\ getPointer (wmInfoAfterQuery h w) 8 = Some p8
    /\ getPointer (wmInfoAfterQuery h w) 16 = Some p16
    /\ getPointer (wmInfoAfterQuery h w) 24 = Some p24.
Proof.
  intros [_ Hw].
  assert (Hl : length (wmInfoAfterQuery h w) = sizeOfSDL_SysWMInfo)
    by (unfold wmInfoAfterQuery; now rewrite !blit_length).
  unfold getUint32, getPointer.
  destruct (slice_in_bounds (wmInfoAfterQuery h w) 4 4) as [b4 ->];
    [rewrite Hl; in_bounds|].
  destruct (slice_in_bounds (wmInfoAfterQuery h w) 8 pointerSize) as [b8 ->];
    [rewrite Hl; in_bounds|].
  destruct (slice_in_bounds (wmInfoAfterQuery h w) 16 pointerSize) as [b16 ->];
    [rewrite Hl; in_bounds|].
  destruct (slice_in_bounds (wmInfoAfterQuery h w) 24 pointerSize) as [b24 ->];
    [rewrite Hl; in_bounds|].
  cbn [option_map]. eauto 10.
Qed.

(** main.ts keeps the property stated by C2: on each of the three targets
    a discriminant outside the valid set is refused, and no surface is
    returned. *)
Lemma main_createSurface_rejects_invalid h win mv wd ht w sub :
  bufs_ok w ->
  wmInfoRet h <> 0 ->
  supportedOs (BUILD_OS h) ->
  getUint32 (wmInfoAfterQuery h w) 4 = Some sub ->
  validSubsystem (BUILD_OS h) sub = false ->
  exists msg,
    fst (MainTs.createSurface h win mv wd ht w) = Throw msg
    /\ unsupportedSubsystemError msg.
Proof.
  intros Hw Hok Hos Hs Hv.
  destruct (decoded_fields h w Hw) as (sub' & p8 & p16 & p24 & F4 & F8 & F16 & F24).
  rewrite Hs in F4. injection F4 as <-.
  rewrite (main_createSurface_result h win mv wd ht w sub p8 p16 p24)
    by assumption.
  unfold validSubsystem in Hv. unfold unsupportedSubsystemError.
  destruct Hos as [E | [E | E]]; rewrite E in Hv |- *; cbn in Hv |- *.
  - rewrite Hv. eexists; split; [reflexivity | cbn; tauto].
  - rewrite Hv. destruct (sub =? SDL_SYSWM_WINRT);
      eexists; (split; [reflexivity | cbn; tauto]).
  - apply orb_false_iff in Hv as [-> ->].
    eexists; split; [reflexivity | cbn; tauto].
Qed.

(** The record SDL fills in for an X11 window, met by a macOS build. *)
Definition x11Record : list byte :=
  syntheticWmInfo [x02; x1e; x0a; x00] SDL_SYSWM_X11 4660 22136 39612 [].

Definition macHostX11 : Host :=
  mkHost "darwin" (fun _ => false) 4096 8192 [x02; x1e; x0a] 1 x11Record.

(** C2, at the failing input.  With [BUILD_OS = "darwin"] and the X11
    discriminant (2, not in macOS's valid set) [createSurface] of r3f.tsx
    returns a cocoa surface, where [createSurface] of main.ts throws
    "Expected SDL_SYSWM_COCOA on macOS". *)
Theorem r3f_createSurface_accepts_foreign_subsystem :
  getUint32 (wmInfoAfterQuery macHostX11 (boot [] [] [])) 4 = Some SDL_SYSWM_X11
  /\ validSubsystem (BUILD_OS macHostX11) SDL_SYSWM_X11 = false
  /\ fst (R3f.createSurface macHostX11 4096 8192 WIDTH HEIGHT (boot [] [] []))
     = Ok (mkSurface "cocoa" 4660 8192 WIDTH HEIGHT)
  /\ fst (MainTs.createSurface macHostX11 4096 8192 WIDTH HEIGHT (boot [] [] []))
     = Throw "Expected SDL_SYSWM_COCOA on macOS".
Proof. vm_compute. repeat split; reflexivity. Qed.

(** The macOS and Windows branches of r3f.tsx return a surface whatever
    the discriminant is. *)
Lemma r3f_createSurface_ignores_discriminant h win mv wd ht w :
  bufs_ok w ->
  wmInfoRet h <> 0 ->
  BUILD_OS h = "darwin" \/ BUILD_OS h = "windows" ->
  exists s, fst (R3f.createSurface h win mv wd ht w) = Ok s.
Proof.
  intros Hw Hok Hos.
  destruct (decoded_fields h w Hw) as (sub & p8 & p16 & p24 & F4 & F8 & F16 & F24).
  rewrite (r3f_createSurface_result h win mv wd ht w sub p8 p16 p24)
    by assumption.
  destruct Hos as [-> | ->]; cbn; eauto.
Qed.

(** ** The drain pass *)

(** The world once [SDL_PollEvent] has returned 1 with [rec] in the event
    record and the discriminant has been read. *)
Definition polled (rec : list byte) (q : list PollResult) (w : World) : World :=
  mkWorld q (presentScript w) (frameSchedule w) rec (wmInfoBuf w)
          (running w) (frame w)
          (trace w ++ [ActPollEvent; ActPeek EventBuf 0 4]).

Definition stop_with (log : list Action) (w : World) : World :=
  set_running false (set_trace (trace w ++ log ++ [ActSetRunning false]) w).

Ltac poll_step Hq Hl :=
  world_simpl; subst;
  unfold bind, SDL_PollEvent, view_getUint32; world_simpl;
  change (1 =? 1) with true; world_simpl;
  rewrite blit_exact by exact Hl.

Lemma main_pollLoop_other n w rec q :
  pollQueue w = PollRet 1 rec :: q ->
  length rec = length (eventBuf w) ->
  (exists ty, getUint32 rec 0 = Some ty /\ ty <> SDL_QUIT) ->
  MainTs.pollLoop (S n) w = MainTs.pollLoop n (polled rec q w).
Proof.
  intros Hq Hl (ty & Hty & Hne). unfold polled.
  destruct w as [pq ps fs eb wb rn fr tr]. cbn [MainTs.pollLoop].
  poll_step Hq Hl. rewrite Hty.
  destruct (Z.eqb_spec ty SDL_QUIT) as [E|_]; [contradiction|].
  now rewrite <- app_assoc.
Qed.

Lemma r3f_pollLoop_other n w rec q :
  pollQueue w = PollRet 1 rec :: q ->
  length rec = length (eventBuf w) ->
  (exists ty, getUint32 rec 0 = Some ty /\ ty <> SDL_QUIT) ->
  R3f.pollLoop (S n) w = R3f.pollLoop n (polled rec q w).
Proof.
  intros Hq Hl (ty & Hty & Hne). unfold polled.
  destruct w as [pq ps fs eb wb rn fr tr]. cbn [R3f.pollLoop].
  poll_step Hq Hl. rewrite Hty.
  destruct (Z.eqb_spec ty SDL_QUIT) as [E|_]; [contradiction|].
  now rewrite <- app_assoc.
Qed.

Lemma main_pollLoop_quit n w rec q :
  pollQueue w = PollRet 1 rec :: q ->
  length rec = length (eventBuf w) ->
  getUint32 rec 0 = Some SDL_QUIT ->
  MainTs.pollLoop (S n) w =
    (Ok tt, stop_with [ActLog "SDL_QUIT received" []] (polled rec q w)).
Proof.
  intros Hq Hl Hty. unfold polled, stop_with.
  destruct w as [pq ps fs eb wb rn fr tr]. cbn [MainTs.pollLoop].
  poll_step Hq Hl. rewrite Hty. change (SDL_QUIT =? SDL_QUIT) with true.
  unfold console_log, assign_running, emit, bind. world_simpl.
  now rewrite <- !app_assoc.
Qed.

Lemma r3f_pollLoop_quit n w rec q :
  pollQueue w = PollRet 1 rec :: q ->
  length rec = length (eventBuf w) ->
  getUint32 rec 0 = Some SDL_QUIT ->
  R3f.pollLoop (S n) w = (Ok tt, stop_with [] (polled rec q w)).
Proof.
  intros Hq Hl Hty. unfold polled, stop_with.
  destruct w as [pq ps fs eb wb rn fr tr]. cbn [R3f.pollLoop].
  poll_step Hq Hl. rewrite Hty. change (SDL_QUIT =? SDL_QUIT) with true.
  unfold assign_running. world_simpl.
  now rewrite <- !app_assoc.
Qed.

(** A dequeued record that is not a quit event. *)
Definition otherEvent (rec : list byte) : Prop :=
  length rec = sizeOfEvent
  /\ exists ty, getUint32 rec 0 = Some ty /\ ty <> SDL_QUIT.

(** A dequeued quit event: discriminant 0x100 at offset 0 of the record. *)
Definition quitEvent (rec : list byte) : Prop :=
  length rec = sizeOfEvent /\ getUint32 rec 0 = Some SDL_QUIT.

(** The trace of [n] polls that each found an event and read its type. *)
Fixpoint polls (n : nat) : list Action :=
  match n with
  | O => []
  | S k => ActPollEvent :: ActPeek EventBuf 0 4 :: polls k
  end.

Lemma polls_no_write n b : count_occ Action_eq_dec (polls n) (ActSetRunning b) = 0%nat.
Proof.
  induction n as [|n IH]; [reflexivity|]. cbn [polls].
  now rewrite !count_occ_cons_neq by discriminate.
Qed.

Section Drain.

Variables (quit : list byte) (rest : list PollResult).
Hypothesis Hquit : quitEvent quit.

Lemma main_drain_to_quit pre : forall w,
  length (eventBuf w) = sizeOfEvent ->
  pollQueue w = map (PollRet 1) pre ++ PollRet 1 quit :: rest ->
  Forall otherEvent pre ->
  MainTs.drainEvents w =
    (Ok tt,
     mkWorld rest (presentScript w) (frameSchedule w) quit (wmInfoBuf w)
       false (frame w)
       (trace w ++ polls (S (length pre))
                ++ [ActLog "SDL_QUIT received" []; ActSetRunning false])).
Proof.
  destruct Hquit as [Hql Hqt].
  induction pre as [|rec pre IH]; intros w Hb Hq Hpre.
  - unfold MainTs.drainEvents. cbn [map app] in Hq.
    rewrite (main_pollLoop_quit _ w quit rest) by congruence.
    unfold stop_with, polled. world_simpl. cbn [polls length].
    now rewrite <- !app_assoc.
  - inversion Hpre as [|? ? [Hrl Hrt] Hpre']; subst.
    cbn [map app] in Hq. unfold MainTs.drainEvents. rewrite Hq. cbn [length].
    rewrite (main_pollLoop_other _ w rec _ Hq) by congruence.
    specialize (IH (polled rec (map (PollRet 1) pre ++ PollRet 1 quit :: rest) w)).
    unfold MainTs.drainEvents in IH. cbn [pollQueue polled] in IH.
    rewrite IH by (cbn; auto).
    unfold polled. world_simpl. cbn [polls length].
    now rewrite <- !app_assoc.
Qed.

Lemma r3f_drain_to_quit pre : forall w,
  length (eventBuf w) = sizeOfEvent ->
  pollQueue w = map (PollRet 1) pre ++ PollRet 1 quit :: rest ->
  Forall otherEvent pre ->
  R3f.drainEvents w =
    (Ok tt,
     mkWorld rest (presentScript w) (frameSchedule w) quit (wmInfoBuf w)
       false (frame w)
       (trace w ++ polls (S (length pre)) ++ [ActSetRunning false])).
Proof.
  destruct Hquit as [Hql Hqt].
  induction pre as [|rec pre IH]; intros w Hb Hq Hpre.
  - unfold R3f.drainEvents. cbn [map app] in Hq.
    rewrite (r3f_pollLoop_quit _ w quit rest) by congruence.
    unfold stop_with, polled. world_simpl. cbn [polls length].
    now rewrite <- !app_assoc.
  - inversion Hpre as [|? ? [Hrl Hrt] Hpre']; subst.
    cbn [map app] in Hq. unfold R3f.drainEvents. rewrite Hq. cbn [length].
    rewrite (r3f_pollLoop_other _ w rec _ Hq) by congruence.
    specialize (IH (polled rec (map (PollRet 1) pre ++ PollRet 1 quit :: rest) w)).
    unfold R3f.drainEvents in IH. cbn [pollQueue polled] in IH.
    rewrite IH by (cbn; auto).
    unfold polled. world_simpl. cbn [polls length].
    now rewrite <- !app_assoc.
Qed.

End Drain.

(** C4. Non-quit events followed by one quit event: in both files one
    drain pass polls and decodes each preceding event, then the quit event,
    writes [running = false] exactly once, and breaks there, leaving what
    was queued behind the quit event unpolled. *)
Theorem drain_stops_at_first_quit
    (w : World) (pre : list (list byte)) (quit : list byte)
    (rest : list PollResult) :
  running w = true ->
  length (eventBuf w) = sizeOfEvent ->
  pollQueue w = map (PollRet 1) pre ++ PollRet 1 quit :: rest ->
  Forall otherEvent pre ->
  quitEvent quit ->
  let main := MainTs.drainEvents w in
  let r3f := R3f.drainEvents w in
  (fst main = Ok tt
   /\ run_trace MainTs.drainEvents w =
        polls (length pre)
        ++ [ActPollEvent; ActPeek EventBuf 0 4;
            ActLog "SDL_QUIT received" []; ActSetRunning false]
   /\ count_occ Action_eq_dec (run_trace MainTs.drainEvents w)
        (ActSetRunning false) = 1%nat
   /\ running (snd main) = false
   /\ pollQueue (snd main) = rest)
  /\
  (fst r3f = Ok tt
   /\ run_trace R3f.drainEvents w =
        polls (length pre)
        ++ [ActPollEvent; ActPeek EventBuf 0 4; ActSetRunning false]
   /\ count_occ Action_eq_dec (run_trace R3f.drainEvents w)
        (ActSetRunning false) = 1%nat
   /\ running (snd r3f) = false
   /\ pollQueue (snd r3f) = rest).
Proof.
  intros Hrun Hb Hq Hpre Hquit main r3f.
  assert (Hshift : forall tail,
            polls (S (length pre)) ++ tail
            = polls (length pre) ++ ActPollEvent :: ActPeek EventBuf 0 4 :: tail).
  { intros tail. induction (length pre) as [|n IH]; [reflexivity|].
    cbn [polls app] in *. now rewrite IH. }
  split.
  - assert (Et : run_trace MainTs.drainEvents w =
                 polls (length pre)
                 ++ [ActPollEvent; ActPeek EventBuf 0 4;
                     ActLog "SDL_QUIT received" []; ActSetRunning false]).
    { apply run_trace_app.
      rewrite (main_drain_to_quit quit rest Hquit pre w Hb Hq Hpre).
      cbn [snd trace]. now rewrite Hshift. }
    subst main. rewrite Et.
    rewrite (main_drain_to_quit quit rest Hquit pre w Hb Hq Hpre).
    repeat split.
    rewrite count_occ_app, polls_no_write.
    repeat first [ rewrite count_occ_cons_eq by reflexivity
                 | rewrite count_occ_cons_neq by discriminate ].
    reflexivity.
  - assert (Et : run_trace R3f.drainEvents w =
                 polls (length pre)
                 ++ [ActPollEvent; ActPeek EventBuf 0 4; ActSetRunning false]).
    { apply run_trace_app.
      rewrite (r3f_drain_to_quit quit rest Hquit pre w Hb Hq Hpre).
      cbn [snd trace]. now rewrite Hshift. }
    subst r3f. rewrite Et.
    rewrite (r3f_drain_to_quit quit rest Hquit pre w Hb Hq Hpre).
    repeat split.
    rewrite count_occ_app, polls_no_write.
    repeat first [ rewrite count_occ_cons_eq by reflexivity
                 | rewrite count_occ_cons_neq by discriminate ].
    reflexivity.
Qed.

(** A key-down record (0x300), a mouse-motion record (0x400). *)
Definition keyDown : list byte := eventRecord 0x300.
Definition mouseMotion : list byte := eventRecord 0x400.
Definition quitRecord : list byte := eventRecord SDL_QUIT.

Lemma otherEvent_eventRecord (ty : Z) :
  0 <= ty < 2 ^ 32 -> ty <> SDL_QUIT -> otherEvent (eventRecord ty).
Proof.
  intros Hr Hne. split; [apply eventRecord_length|].
  exists ty. split; [now apply eventRecord_type | exact Hne].
Qed.

Lemma quitEvent_quitRecord : quitEvent quitRecord.
Proof.
  split; [apply eventRecord_length|].
  apply eventRecord_type. unfold SDL_QUIT. lia.
Qed.

Lemma drain_stops_at_first_quit_witness :
  running (snd (MainTs.drainEvents
                  (boot [PollRet 1 keyDown; PollRet 1 mouseMotion;
                         PollRet 1 quitRecord; PollRet 1 keyDown] [] [])))
    = false
  /\ pollQueue (snd (R3f.drainEvents
                  (boot [PollRet 1 keyDown; PollRet 1 mouseMotion;
                         PollRet 1 quitRecord; PollRet 1 keyDown] [] [])))
    = [PollRet 1 keyDown].
Proof.
  pose proof (drain_stops_at_first_quit
    (boot [PollRet 1 keyDown; PollRet 1 mouseMotion;
           PollRet 1 quitRecord; PollRet 1 keyDown] [] [])
    [keyDown; mouseMotion] quitRecord [PollRet 1 keyDown]
    eq_refl eq_refl eq_refl
    (Forall_cons _ (otherEvent_eventRecord 0x300 ltac:(lia) ltac:(discriminate))
       (Forall_cons _ (otherEvent_eventRecord 0x400 ltac:(lia) ltac:(discriminate))
          (Forall_nil _)))
    quitEvent_quitRecord) as H.
  cbv zeta in H.
  split; [exact (proj1 (proj2 (proj2 (proj2 (proj1 H)))))
         | exact (proj2 (proj2 (proj2 (proj2 (proj2 H)))))].
Defined.

Lemma decoder_reads_in_bounds_witness :
  fst (MainTs.drainEvents (boot [PollRet 1 quitRecord] [] [])) <> Fault
  /\ peek_in_bounds (ActPeek WmInfoBuf 24 8).
Proof.
  destruct decoder_reads_in_bounds as (_ & _ & Hb & _ & _ & Hd & _).
  split.
  - exact (proj1 (Hd (boot [PollRet 1 quitRecord] [] [])
                      (conj eq_refl eq_refl))).
  - apply Hb. unfold peek_documented. lia.
Defined.

(** ** The loop state *)

(** The steps that run once the loop has been entered: the parts of the
    two loops, and the post-render hook with the frames that invoke it. *)
Inductive loopStep : M unit -> Prop :=
| step_main_drain : loopStep MainTs.drainEvents
| step_main_iteration : loopStep MainTs.iteration
| step_main_loop fuel : loopStep (MainTs.loop fuel)
| step_r3f_hook : loopStep R3f.afterEffect
| step_r3f_frame : loopStep R3f.r3fFrame
| step_r3f_sleep : loopStep (R3f.sleep 1)
| step_r3f_drain : loopStep R3f.drainEvents
| step_r3f_iteration : loopStep R3f.iteration
| step_r3f_loop fuel : loopStep (R3f.loop fuel).

(** No write of [running] stores [true]. *)
Definition writes_stop_only (a : Action) : Prop :=
  forall b, a = ActSetRunning b -> b = false.

Lemma alphabet_writes_stop_only (a : Action) :
  drain_alphabet a \/ frame_alphabet a \/ main_loop_alphabet a
  \/ r3f_loop_alphabet a ->
  writes_stop_only a.
Proof.
  intros H b ->. destruct b; [|reflexivity]. cbn in H. tauto.
Qed.

Lemma loopStep_may (m : M unit) : loopStep m -> may writes_stop_only m.
Proof.
  intros []; [ apply main_drainEvents_may | apply main_iteration_may
             | apply main_loop_may | apply r3f_afterEffect_may
             | apply r3f_r3fFrame_may | apply r3f_sleep_may
             | apply r3f_drainEvents_may | apply r3f_iteration_may
             | apply r3f_loop_may ];
    intros a Ha; apply alphabet_writes_stop_only; tauto.
Qed.

(** C9. The loop state is the boolean [running] (Running or Stopped, no
    third state), and Stopped is absorbing: a step of either loop, of the
    hook or of a frame that invokes it, started with [running = false],
    ends with [running = false]; and whatever the start, every write of
    [running] such a step performs stores [false]. *)
Theorem stopped_is_absorbing (m : M unit) (w : World) :
  loopStep m ->
  (running w = true \/ running w = false)
  /\ (running w = false -> running (snd (m w)) = false)
  /\ (forall b, In (ActSetRunning b) (run_trace m w) -> b = false).
Proof.
  intros Hm. apply loopStep_may in Hm.
  split; [destruct (running w); auto|]. split.
  - destruct (Hm w) as (_ & Hs & _). exact Hs.
  - intros b Hin. destruct (may_run_trace _ m w Hm) as [_ Hall].
    rewrite Forall_forall in Hall. exact (Hall _ Hin b eq_refl).
Qed.

(** The world a failed present leaves behind: the hook has stopped the
    loop. *)
Definition afterFailedPresent : World :=
  snd (R3f.afterEffect (boot [] [true] [])).

Lemma stopped_is_absorbing_witness :
  running afterFailedPresent = false
  /\ running (snd (R3f.loop 3 afterFailedPresent)) = false
  /\ running (snd (R3f.r3fFrame afterFailedPresent)) = false.
Proof.
  split; [reflexivity|]. split.
  - exact (proj1 (proj2 (stopped_is_absorbing (R3f.loop 3) afterFailedPresent
                           (step_r3f_loop 3))) eq_refl).
  - exact (proj1 (proj2 (stopped_is_absorbing R3f.r3fFrame afterFailedPresent
                           step_r3f_frame)) eq_refl).
Defined.

(** ** How the parts of the loops end *)

Definition isShutdown (a : Action) : bool :=
  match a with
  | ActDestroyWindow _ | ActQuit => true
  | _ => false
  end.

Definition isSleep (a : Action) : bool :=
  match a with
  | ActSleep _ => true
  | _ => false
  end.

(** The frame tick (scene mutation, render) and the present call. *)
Definition isFrameAction (a : Action) : bool :=
  match a with
  | ActRotate | ActRender | ActPresent => true
  | _ => false
  end.

Lemma filter_none (P : Action -> Prop) (f : Action -> bool) (tr : list Action) :
  (forall a, P a -> f a = false) -> Forall P tr -> filter f tr = [].
Proof.
  intros Hf Htr. induction Htr as [|a tr Ha _ IH]; [reflexivity|].
  cbn [filter]. now rewrite (Hf a Ha).
Qed.

Lemma bind_ok {A B} (m : M A) (k : A -> M B) (w w1 : World) (a : A) :
  m w = (Ok a, w1) -> bind m k w = k a w1.
Proof. intros H. unfold bind. now rewrite H. Qed.

Lemma bind_throw {A B} (m : M A) (k : A -> M B) (w w1 : World) (e : string) :
  m w = (Throw e, w1) -> bind m k w = (Throw e, w1).
Proof. intros H. unfold bind. now rewrite H. Qed.

Lemma r3f_afterEffect_ok (w : World) : fst (R3f.afterEffect w) = Ok tt.
Proof.
  unfold R3f.afterEffect, tryCatch, surface_present.
  destruct (presentScript w) as [|[|] p]; reflexivity.
Qed.

Lemma r3f_r3fFrames_ok (n : nat) (w : World) : fst (R3f.r3fFrames n w) = Ok tt.
Proof.
  revert w. induction n as [|n IH]; intros w; [reflexivity|].
  cbn [R3f.r3fFrames]. unfold R3f.r3fFrame.
  unfold bind at 1. unfold bind at 1. cbn [emit].
  pose proof (r3f_afterEffect_ok (set_trace (trace w ++ [ActRender]) w)) as H.
  destruct (R3f.afterEffect _) as [r w1]. cbn in H. subst r. apply IH.
Qed.

Lemma r3f_sleep_ok (ms : Z) (w : World) : fst (R3f.sleep ms w) = Ok tt.
Proof.
  unfold R3f.sleep, bind, emit, R3f.scheduledFrames. cbn [frameSchedule set_trace].
  destruct (frameSchedule w) as [|n s]; [reflexivity|].
  apply r3f_r3fFrames_ok.
Qed.

(** Under its [try]/[catch] the drain of r3f.tsx always completes. *)
Lemma r3f_guarded_drain_ok (w : World) :
  bufs_ok w ->
  fst (tryCatch R3f.drainEvents
         (fun _ => console_error "Error in SDL loop:";; assign_running false) w)
  = Ok tt.
Proof.
  intros Hw. unfold tryCatch.
  pose proof (r3f_drainEvents_nofault w Hw) as Hf.
  pose proof (r3f_pollLoop_total (S (length (pollQueue w))) w (Nat.lt_succ_diag_r _))
    as Ht.
  fold (R3f.drainEvents w) in Ht.
  destruct (R3f.drainEvents w) as [[[]| e | |] w1]; cbn in *;
    try reflexivity; congruence.
Qed.

Lemma r3f_iteration_ok (w : World) : bufs_ok w -> fst (R3f.iteration w) = Ok tt.
Proof.
  intros Hw. unfold R3f.iteration. unfold bind at 1.
  pose proof (r3f_guarded_drain_ok w Hw) as H.
  destruct (tryCatch _ _ w) as [r w1]. cbn in H. subst r.
  apply r3f_sleep_ok.
Qed.

(** The loop of r3f.tsx lets no exception out. *)
Lemma r3f_loop_outcome (fuel : nat) (w : World) :
  bufs_ok w ->
  fst (R3f.loop fuel w) = Ok tt \/ fst (R3f.loop fuel w) = OutOfFuel.
Proof.
  revert w. induction fuel as [|fuel IH]; intros w Hw; cbn [R3f.loop];
    destruct (running w); auto.
  unfold bind.
  pose proof (r3f_iteration_ok w Hw) as Hi.
  destruct (r3f_iteration_may anything (fun _ _ => I) w) as (_ & _ & Hk).
  destruct (R3f.iteration w) as [r w1]. cbn in Hi, Hk. subst r.
  apply IH. now apply Hk.
Qed.

(** The console line of a frame: [frame === 0 || frame % 120 === 0]. *)
Definition frameLog (f : nat) : list Action :=
  if (f =? 0)%nat || (f mod 120 =? 0)%nat
  then [ActLog "Rendering frame" [Z.of_nat f]]
  else [].

(** What follows the drain in an iteration of main.ts. *)
Definition afterDrain : M unit :=
  emit ActRotate;;
  MainTs.logFrame;;
  MainTs.renderer_render;;
  surface_present;;
  MainTs.nextFrame.

Lemma main_iteration_after_drain (w w1 : World) :
  MainTs.drainEvents w = (Ok tt, w1) -> MainTs.iteration w = afterDrain w1.
Proof. intros H. unfold MainTs.iteration. now rewrite (bind_ok _ _ w w1 tt H). Qed.

Lemma main_iteration_drain_throws (w w1 : World) (e : string) :
  MainTs.drainEvents w = (Throw e, w1) -> MainTs.iteration w = (Throw e, w1).
Proof. intros H. unfold MainTs.iteration. now rewrite (bind_throw _ _ w w1 e H). Qed.

Lemma afterDrain_run (w : World) :
  let r := afterDrain w in
  trace (snd r) = trace w ++ ActRotate :: frameLog (frame w) ++ [ActRender; ActPresent]
  /\ running (snd r) = running w
  /\ (hd false (presentScript w) = false -> fst r = Ok tt)
  /\ (hd false (presentScript w) = true -> fst r = Throw "present failed").
Proof.
  destruct w as [pq ps fs eb wb rn fr tr].
  unfold afterDrain, MainTs.logFrame, MainTs.renderer_render, MainTs.nextFrame,
    surface_present, frameLog.
  unfold_calls. world_simpl.
  destruct ((fr =? 0)%nat || (fr mod 120 =? 0)%nat);
    destruct ps as [|[|] ps]; world_simpl; cbn [hd app];
    rewrite <- ?app_assoc; cbn [app];
    (split; [reflexivity|]); (split; [reflexivity|]);
    split; intros H; first [reflexivity | discriminate H].
Qed.

(** ** Frame tick and present after the drain *)



Lemma main_drain_trace (w w1 : World) (r : Result unit) :
  MainTs.drainEvents w = (r, w1) ->
  exists d, trace w1 = trace w ++ d /\ filter isFrameAction d = [].
Proof.
  intros H.
  destruct (main_drainEvents_may drain_alphabet (fun _ Ha => Ha) w)
    as ((d & E & F) & _). rewrite H in E. cbn in E.
  exists d. split; [exact E|].
  apply (filter_none drain_alphabet); [|exact F].
  intros a Ha. destruct a; cbn in *; tauto.
Qed.

Lemma frameLog_no_frame (f : nat) : filter isFrameAction (frameLog f) = [].
Proof. unfold frameLog. destruct (_ || _); reflexivity. Qed.

(** An iteration of main.ts from its completed drain on, and the loop
    around it when that drain has stopped it. *)
Lemma main_iteration_frame (w w1 : World) :
  MainTs.drainEvents w = (Ok tt, w1) ->
  let w2 := snd (MainTs.iteration w) in
  trace w2 = trace w1 ++ ActRotate :: frameLog (frame w1) ++ [ActRender; ActPresent]
  /\ filter isFrameAction (run_trace MainTs.iteration w)
     = [ActRotate; ActRender; ActPresent]
  /\ (running w = true -> running w1 = false ->
      hd false (presentScript w1) = false ->
      forall fuel,
        MainTs.loop (S fuel) w = (Ok tt, w2)
        /\ filter isFrameAction (run_trace (MainTs.loop (S fuel)) w)
           = [ActRotate; ActRender; ActPresent]).
Proof.
  intros Hd w2.
  assert (Hi := main_iteration_after_drain w w1 Hd).
  destruct (afterDrain_run w1) as (Ht & Hr & Hok & _). rewrite <- Hi in Ht, Hr, Hok.
  fold w2 in Ht, Hr.
  destruct (main_drain_trace w w1 _ Hd) as (d & Ed & Fd).
  assert (Hrun : run_trace MainTs.iteration w
                 = d ++ ActRotate :: frameLog (frame w1) ++ [ActRender; ActPresent]).
  { apply run_trace_app. fold w2. rewrite Ht, Ed. now rewrite <- app_assoc. }
  assert (Hfil : filter isFrameAction (run_trace MainTs.iteration w)
                 = [ActRotate; ActRender; ActPresent]).
  { rewrite Hrun, filter_app, Fd. cbn [app filter isFrameAction].
    now rewrite filter_app, frameLog_no_frame. }
  split; [exact Ht|]. split; [exact Hfil|].
  intros Hw Hw1 Hp fuel. specialize (Hok Hp).
  assert (Hloop : MainTs.loop (S fuel) w = (Ok tt, w2)).
  { cbn [MainTs.loop]. rewrite Hw. unfold bind.
    destruct (MainTs.iteration w) as [r w2'] eqn:E. cbn in Hok, Hr, w2.
    subst r w2. destruct fuel; cbn [MainTs.loop];
      rewrite Hr, Hw1; reflexivity. }
  split; [exact Hloop|].
  unfold run_trace in *. rewrite Hloop. exact Hfil.
Qed.




(** ** The yield *)

(** C7 as stated: the iteration ends with a yield, that is with a sleep
    during which only the frames of the reactive layer run. *)
Definition ends_with_yield (tr : list Action) : Prop :=
  exists body ms during,
    tr = body ++ ActSleep ms :: during /\ Forall frame_alphabet during.

(** C7 fails on main.ts, whose iterations do not sleep at all. *)
Lemma main_iteration_never_yields :
  ~ ends_with_yield (run_trace MainTs.iteration (boot [] [] [])).
Proof.
  intros (body & ms & during & E & _).
  assert (Hin : In (ActSleep ms) (run_trace MainTs.iteration (boot [] [] [])))
    by (rewrite E; apply in_elt).
  vm_compute in Hin. intuition discriminate.
Qed.

(** C7, amended.  Every iteration of the loop of r3f.tsx completes, and
    yields exactly once, for 1 ms, as its last step, whatever the drain
    did (events or none, exception or none); while it is suspended only
    frames of the reactive layer run.  The loop of main.ts never yields. *)
Theorem r3f_iteration_yields_unconditionally (w : World) :
  bufs_ok w ->
  fst (R3f.iteration w) = Ok tt
  /\ (exists body during,
        run_trace R3f.iteration w = body ++ ActSleep 1 :: during
        /\ Forall drain_alphabet body
        /\ Forall frame_alphabet during)
  /\ filter isSleep (run_trace R3f.iteration w) = [ActSleep 1]
  /\ (forall fuel, filter isSleep (run_trace (MainTs.loop fuel) w) = []).
Proof.
  intros Hw.
  assert (Hdec : exists body during,
             run_trace R3f.iteration w = body ++ ActSleep 1 :: during
             /\ Forall drain_alphabet body
             /\ Forall frame_alphabet during).
  { unfold R3f.iteration.
    pose proof (r3f_guarded_drain_ok w Hw) as Hg.
    destruct (r3f_guarded_drain_may drain_alphabet (fun _ Ha => Ha) w)
      as ((body & Eb & Fb) & _).
    destruct (tryCatch R3f.drainEvents _ w) as [r w1] eqn:Eg.
    cbn in Hg, Eb. subst r.
    exists body.
    destruct (r3f_scheduledFrames_may frame_alphabet (fun _ Ha => Ha)
                (set_trace (trace w1 ++ [ActSleep 1]) w1))
      as ((during & Ed & Fd) & _).
    exists during. split; [|split; assumption].
    apply run_trace_app. rewrite (bind_ok _ _ w w1 tt Eg).
    unfold R3f.sleep, bind at 1, emit. cbn [trace set_trace] in Ed.
    rewrite Ed, Eb. now rewrite <- !app_assoc. }
  split; [now apply r3f_iteration_ok|]. split; [exact Hdec|]. split.
  - destruct Hdec as (body & during & E & Fb & Fd). rewrite E.
    rewrite filter_app. cbn [filter isSleep].
    rewrite (filter_none drain_alphabet isSleep body),
            (filter_none frame_alphabet isSleep during); auto.
    + intros a Ha. destruct a; cbn in *; tauto.
    + intros a Ha. destruct a; cbn in *; tauto.
  - intros fuel.
    destruct (may_run_trace _ _ w (main_loop_may main_loop_alphabet
                                     (fun _ Ha => Ha) fuel)) as [_ F].
    apply (filter_none main_loop_alphabet); [|exact F].
    intros a Ha. destruct a; cbn in *; tauto.
Qed.

Lemma r3f_iteration_yields_unconditionally_witness :
  filter isSleep
    (run_trace R3f.iteration (boot [PollRet 1 keyDown; PollThrows "closed"] [] [2%nat]))
  = [ActSleep 1].
Proof.
  refine (proj1 (proj2 (proj2 (r3f_iteration_yields_unconditionally
    (boot [PollRet 1 keyDown; PollThrows "closed"] [] [2%nat]) _)))).
  split; reflexivity.
Defined.

(** ** Shutdown *)

(** C1 as stated: over the whole run, the shutdown calls are one
    [SDL_DestroyWindow] followed by one [SDL_Quit]. *)
Definition shuts_down_once (window : pointer) (tr : list Action) : Prop :=
  filter isShutdown tr = [ActDestroyWindow window; ActQuit].

Lemma loop_alphabets_no_shutdown (a : Action) :
  main_loop_alphabet a \/ r3f_loop_alphabet a -> isShutdown a = false.
Proof. destruct a; cbn; tauto. Qed.

(** The world in which each loop is entered. *)
Definition r3fEntered (w : World) : World :=
  set_running true (set_trace (trace w ++ [ActLog "Entering SDL2 loop" []]) w).

Definition mainEntered (w : World) : World :=
  set_trace (trace w ++ [ActLog "Entering render loop" []])
    (set_frame 0 (set_running true w)).

Lemma r3f_region_unfold (window : pointer) (fuel : nat) (w : World) :
  R3f.mainLoopRegion window fuel w =
    (R3f.loop fuel;; SDL_DestroyWindow window;; SDL_Quit;; emit (ActExit 0))
      (r3fEntered w).
Proof. reflexivity. Qed.

Lemma main_region_unfold (window : pointer) (fuel : nat) (w : World) :
  MainTs.mainLoopRegion window fuel w =
    (MainTs.loop fuel;; SDL_DestroyWindow window;; SDL_Quit;;
     console_log "Shutdown complete" []) (mainEntered w).
Proof. reflexivity. Qed.

Lemma shutdown_run (window : pointer) (last : Action) (w : World) :
  (SDL_DestroyWindow window;; SDL_Quit;; emit last) w =
    (Ok tt, set_trace (trace w ++ [ActDestroyWindow window; ActQuit; last]) w).
Proof.
  destruct w as [pq ps fs eb wb rn fr tr]. unfold_calls. world_simpl.
  now rewrite <- !app_assoc.
Qed.

(** r3f.tsx keeps the property: whenever its loop exits, by a quit event,
    a failed present or a failed poll, the shutdown sequence runs once. *)
Lemma r3f_region_shuts_down_once (window : pointer) (fuel : nat) (w : World) :
  bufs_ok w ->
  fst (R3f.mainLoopRegion window fuel w) <> OutOfFuel ->
  fst (R3f.mainLoopRegion window fuel w) = Ok tt
  /\ shuts_down_once window (run_trace (R3f.mainLoopRegion window fuel) w).
Proof.
  intros Hw Hfuel. unfold shuts_down_once, run_trace.
  rewrite r3f_region_unfold in *.
  assert (Hw0 : bufs_ok (r3fEntered w)) by exact Hw.
  destruct (may_run_trace _ _ (r3fEntered w)
              (r3f_loop_may r3f_loop_alphabet (fun _ Ha => Ha) fuel)) as [Et Ft].
  assert (Hnone := filter_none r3f_loop_alphabet isShutdown _
             (fun a Ha => loop_alphabets_no_shutdown a (or_intror Ha)) Ft).
  destruct (r3f_loop_outcome fuel _ Hw0) as [Hr|Hr];
    destruct (R3f.loop fuel (r3fEntered w)) as [r w1] eqn:E;
    cbn [fst snd] in Hr, Et; subst r.
  - rewrite (bind_ok _ _ _ _ _ E), shutdown_run. split; [reflexivity|].
    cbn [snd trace set_trace]. rewrite Et. cbn [trace r3fEntered set_running set_trace].
    rewrite <- !app_assoc, skipn_app, skipn_all, Nat.sub_diag.
    cbn [skipn app filter isShutdown]. rewrite filter_app, Hnone. reflexivity.
  - exfalso. apply Hfuel. unfold bind. now rewrite E.
Qed.

(** main.ts runs the shutdown sequence once when its loop returns, and not
    at all when an exception leaves the loop. *)
Lemma main_region_shutdown (window : pointer) (fuel : nat) (w : World) :
  let r := MainTs.mainLoopRegion window fuel w in
  (fst r = Ok tt ->
   shuts_down_once window (run_trace (MainTs.mainLoopRegion window fuel) w))
  /\ (fst r <> Ok tt ->
      filter isShutdown (run_trace (MainTs.mainLoopRegion window fuel) w) = []).
Proof.
  unfold shuts_down_once, run_trace. cbv zeta.
  rewrite main_region_unfold.
  destruct (may_run_trace _ _ (mainEntered w)
              (main_loop_may main_loop_alphabet (fun _ Ha => Ha) fuel)) as [Et Ft].
  assert (Hnone := filter_none main_loop_alphabet isShutdown _
             (fun a Ha => loop_alphabets_no_shutdown a (or_introl Ha)) Ft).
  assert (Etr : trace (snd (MainTs.loop fuel (mainEntered w)))
                = trace w ++ ActLog "Entering render loop" []
                    :: run_trace (MainTs.loop fuel) (mainEntered w)).
  { rewrite Et. cbn [trace mainEntered set_trace set_frame set_running].
    now rewrite <- app_assoc. }
  destruct (MainTs.loop fuel (mainEntered w)) as [r w1] eqn:E.
  cbn [snd] in Etr.
  destruct r as [[]| e | |].
  - rewrite (bind_ok _ _ _ _ _ E),
      (shutdown_run window (ActLog "Shutdown complete" [])).
    cbn [fst snd trace set_trace]. split; [intros _ | congruence].
    rewrite Etr, <- !app_assoc, skipn_app, skipn_all, Nat.sub_diag.
    cbn [skipn app filter isShutdown]. rewrite filter_app, Hnone. reflexivity.
  - unfold bind. rewrite E. cbn [fst snd]. split; [discriminate | intros _].
    rewrite Etr, skipn_app, skipn_all, Nat.sub_diag.
    cbn [skipn app filter isShutdown]. exact Hnone.
  - unfold bind. rewrite E. cbn [fst snd]. split; [discriminate | intros _].
    rewrite Etr, skipn_app, skipn_all, Nat.sub_diag.
    cbn [skipn app filter isShutdown]. exact Hnone.
  - unfold bind. rewrite E. cbn [fst snd]. split; [discriminate | intros _].
    rewrite Etr, skipn_app, skipn_all, Nat.sub_diag.
    cbn [skipn app filter isShutdown]. exact Hnone.
Qed.

(** C1, at the failing input.  No quit event arrives and the third
    present throws.  In main.ts the exception leaves the loop and the
    module: neither [SDL_DestroyWindow] nor [SDL_Quit] is called.  In
    r3f.tsx, on the same script, the hook catches it, the loop exits and
    the shutdown sequence runs once. *)
Theorem main_present_failure_skips_shutdown :
  let main := MainTs.mainLoopRegion 4096 10 (boot [] [false; false; true] []) in
  let r3f := R3f.mainLoopRegion 4096 10
               (boot [] [false; false; true] [1; 1; 1]%nat) in
  fst main = Throw "present failed"
  /\ filter isShutdown (trace (snd main)) = []
  /\ ~ shuts_down_once 4096 (trace (snd main))
  /\ fst r3f = Ok tt
  /\ shuts_down_once 4096 (trace (snd r3f)).
Proof.
  cbv zeta. unfold shuts_down_once.
  repeat split; try (vm_compute; reflexivity).
  vm_compute. discriminate.
Qed.

(** The quit path of main.ts does exit, whatever fuel the loop is given
    beyond one iteration: one drain pass reaches the quit event, the frame
    of that iteration is presented, and the shutdown sequence runs once. *)
Lemma main_region_exits_on_quit (window : pointer) (fuel : nat) (w : World)
    (pre : list (list byte)) (quit : list byte) (rest : list PollResult) :
  length (eventBuf w) = sizeOfEvent ->
  pollQueue w = map (PollRet 1) pre ++ PollRet 1 quit :: rest ->
  Forall otherEvent pre ->
  quitEvent quit ->
  hd false (presentScript w) = false ->
  fst (MainTs.mainLoopRegion window (S fuel) w) = Ok tt
  /\ shuts_down_once window
       (run_trace (MainTs.mainLoopRegion window (S fuel)) w).
Proof.
  intros Hb Hq Hpre Hquit Hp.
  assert (Hok : fst (MainTs.mainLoopRegion window (S fuel) w) = Ok tt).
  { rewrite main_region_unfold.
    pose proof (main_drain_to_quit quit rest Hquit pre (mainEntered w) Hb Hq Hpre)
      as Hd.
    destruct (main_iteration_frame (mainEntered w) _ Hd)
      as (_ & _ & Hloop).
    destruct (Hloop eq_refl eq_refl Hp fuel) as [El _].
    rewrite (bind_ok _ _ _ _ _ El).
    exact (f_equal fst
             (shutdown_run window (ActLog "Shutdown complete" []) _)). }
  split; [exact Hok|].
  now apply (main_region_shutdown window (S fuel) w).
Qed.

(** * Further properties of the code *)

(** ** The drain pass in general *)

(** The world after an [SDL_PollEvent] that returned with [data] written
    to the event record, and after the following read of the
    discriminant. *)
Definition afterPoll (data : list byte) (q : list PollResult) (w : World) : World :=
  set_eventBuf (blit data (eventBuf w))
    (set_pollQueue q (set_trace (trace w ++ [ActPollEvent]) w)).

Definition peeked (w : World) : World :=
  set_trace (trace w ++ [ActPeek EventBuf 0 4]) w.

Lemma main_pollLoop_unfold (n : nat) (w : World) :
  MainTs.pollLoop (S n) w =
    match pollQueue w with
    | [] => (Ok tt, set_trace (trace w ++ [ActPollEvent]) w)
    | PollRet r data :: q =>
        if r =? 1 then
          match getUint32 (blit data (eventBuf w)) 0 with
          | Some ty =>
              if ty =? SDL_QUIT
              then (Ok tt, stop_with [ActLog "SDL_QUIT received" []]
                             (peeked (afterPoll data q w)))
              else MainTs.pollLoop n (peeked (afterPoll data q w))
          | None => (Fault, peeked (afterPoll data q w))
          end
        else (Ok tt, afterPoll data q w)
    | PollThrows e :: q =>
        (Throw e, set_pollQueue q (set_trace (trace w ++ [ActPollEvent]) w))
    end.
Proof.
  destruct w as [pq ps fs eb wb rn fr tr]. cbn [MainTs.pollLoop].
  unfold bind at 1. unfold SDL_PollEvent, afterPoll, peeked, stop_with.
  world_simpl.
  destruct pq as [|[r data|e] q]; try reflexivity.
  destruct (r =? 1); [|reflexivity].
  unfold bind at 1. unfold view_getUint32. world_simpl.
  destruct (getUint32 (blit data eb) 0) as [ty|]; [|reflexivity].
  destruct (ty =? SDL_QUIT); [|reflexivity].
  unfold_calls. world_simpl. now rewrite <- !app_assoc.
Qed.

Lemma r3f_pollLoop_unfold (n : nat) (w : World) :
  R3f.pollLoop (S n) w =
    match pollQueue w with
    | [] => (Ok tt, set_trace (trace w ++ [ActPollEvent]) w)
    | PollRet r data :: q =>
        if r =? 1 then
          match getUint32 (blit data (eventBuf w)) 0 with
          | Some ty =>
              if ty =? SDL_QUIT
              then (Ok tt, stop_with [] (peeked (afterPoll data q w)))
              else R3f.pollLoop n (peeked (afterPoll data q w))
          | None => (Fault, peeked (afterPoll data q w))
          end
        else (Ok tt, afterPoll data q w)
    | PollThrows e :: q =>
        (Throw e, set_pollQueue q (set_trace (trace w ++ [ActPollEvent]) w))
    end.
Proof.
  destruct w as [pq ps fs eb wb rn fr tr]. cbn [R3f.pollLoop].
  unfold bind at 1. unfold SDL_PollEvent, afterPoll, peeked, stop_with.
  world_simpl.
  destruct pq as [|[r data|e] q]; try reflexivity.
  destruct (r =? 1); [|reflexivity].
  unfold bind at 1. unfold view_getUint32. world_simpl.
  destruct (getUint32 (blit data eb) 0) as [ty|]; [|reflexivity].
  destruct (ty =? SDL_QUIT); [|reflexivity].
  unfold_calls. world_simpl. now rewrite <- !app_assoc.
Qed.

Definition isDrain (drain : M unit) : Prop :=
  drain = MainTs.drainEvents \/ drain = R3f.drainEvents.

(** X1. A drain pass that finds no event, because the queue is empty or
    because [SDL_PollEvent] returns anything but 1 (0, or an error value
    such as -1), makes that one poll and nothing else: no discriminant is
    read, [running] and the frame counter keep their values, and the pass
    completes; the same in both files. *)
Theorem drain_without_event (drain : M unit) (w : World) :
  isDrain drain ->
  pollQueue w = []
  \/ (exists r data q, pollQueue w = PollRet r data :: q /\ r <> 1) ->
  fst (drain w) = Ok tt
  /\ run_trace drain w = [ActPollEvent]
  /\ running (snd (drain w)) = running w
  /\ frame (snd (drain w)) = frame w
  /\ pollQueue (snd (drain w)) = tl (pollQueue w).
Proof.
  intros Hd Hq.
  assert (E : drain w =
              match pollQueue w with
              | [] => (Ok tt, set_trace (trace w ++ [ActPollEvent]) w)
              | PollRet r data :: q => (Ok tt, afterPoll data q w)
              | PollThrows e :: q => drain w
              end).
  { destruct Hd as [-> | ->];
      [unfold MainTs.drainEvents; rewrite main_pollLoop_unfold
      |unfold R3f.drainEvents; rewrite r3f_pollLoop_unfold];
      (destruct Hq as [Hq | (r & data & q & Hq & Hr)]; rewrite Hq;
       [reflexivity|]; apply Z.eqb_neq in Hr; now rewrite Hr). }
  assert (Et : trace (snd (drain w)) = trace w ++ [ActPollEvent]
               /\ fst (drain w) = Ok tt
               /\ running (snd (drain w)) = running w
               /\ frame (snd (drain w)) = frame w
               /\ pollQueue (snd (drain w)) = tl (pollQueue w)).
  { rewrite E. destruct Hq as [Hq | (r & data & q & Hq & Hr)]; rewrite Hq;
      cbn; rewrite ?Hq; repeat split; reflexivity. }
  destruct Et as (Et & Hr & Hrun & Hf & Hp).
  repeat split; try assumption. now apply run_trace_app.
Qed.

Lemma drain_without_event_witness :
  run_trace R3f.drainEvents (boot [PollRet (-1) []; PollRet 1 quitRecord] [] [])
    = [ActPollEvent]
  /\ fst (MainTs.drainEvents (boot [] [] [])) = Ok tt.
Proof.
  split.
  - refine (proj1 (proj2 (drain_without_event R3f.drainEvents
      (boot [PollRet (-1) []; PollRet 1 quitRecord] [] [])
      (or_intror eq_refl) (or_intror _)))).
    exists (-1), [], [PollRet 1 quitRecord]. split; [reflexivity | discriminate].
  - exact (proj1 (drain_without_event MainTs.drainEvents (boot [] [] [])
                    (or_introl eq_refl) (or_introl eq_refl))).
Defined.

(** What a drain pass does to the queue: it takes [consumed] off its
    front. *)
Definition drain_summary (w : World) (r : Result unit) (w' : World) : Prop :=
  length (eventBuf w') = length (eventBuf w)
  /\ exists consumed,
       pollQueue w = consumed ++ pollQueue w'
       /\ (pollQueue w <> [] -> consumed <> [])
       /\ (running w = true -> running w' = true \/ r = Ok tt)
       /\ (forall pre rec post,
             consumed = pre ++ PollRet 1 rec :: post ->
             quitEvent rec ->
             post = [] /\ running w' = false /\ r = Ok tt).

Lemma r3f_pollLoop_summary (n : nat) : forall w,
  length (eventBuf w) = sizeOfEvent ->
  (length (pollQueue w) < n)%nat ->
  drain_summary w (fst (R3f.pollLoop n w)) (snd (R3f.pollLoop n w)).
Proof.
  induction n as [|n IH]; intros w Hb Hn; [lia|].
  rewrite r3f_pollLoop_unfold.
  destruct (pollQueue w) as [|[r data|e] q] eqn:Eq.
  - (* empty queue *)
    split; [reflexivity|]. exists []. cbn [fst snd pollQueue set_trace].
    rewrite Eq. repeat split; auto.
    all: destruct pre as [|x pre]; discriminate H.
  - destruct (Z.eqb_spec r 1) as [-> | Hr].
    + assert (Hbl : length (blit data (eventBuf w)) = sizeOfEvent)
        by now rewrite blit_length.
      destruct (getUint32 (blit data (eventBuf w)) 0) as [ty|] eqn:Ety.
      * destruct (Z.eqb_spec ty SDL_QUIT) as [-> | Hty].
        -- (* the quit event *)
           split; [cbn; now rewrite blit_length|].
           exists [PollRet 1 data]. cbn. rewrite Eq.
           repeat split; auto; try discriminate.
           all: destruct pre as [|x [|y pre]]; cbn in H; try discriminate H;
             injection H as _ H; now symmetry.
        -- (* another event: the loop goes on *)
           specialize (IH (peeked (afterPoll data q w))).
           destruct IH as (Hl & consumed & Hc & Hne & Hrun & Hquit);
             [exact Hbl | cbn in *; lia |].
           split; [rewrite Hl; cbn; apply blit_length|].
           exists (PollRet 1 data :: consumed). cbn in Hc, Hrun. rewrite Eq.
           repeat split.
           ++ cbn. now rewrite <- Hc.
           ++ discriminate.
           ++ exact Hrun.
           ++ destruct pre as [|x pre]; cbn in H.
              ** injection H as <- _. destruct H0 as [Hlen Hq0].
                 rewrite blit_exact in Ety by congruence. congruence.
              ** injection H as _ H. exact (proj1 (Hquit _ _ _ H H0)).
           ++ destruct pre as [|x pre]; cbn in H.
              ** injection H as <- _. destruct H0 as [Hlen Hq0].
                 rewrite blit_exact in Ety by congruence. congruence.
              ** injection H as _ H. exact (proj1 (proj2 (Hquit _ _ _ H H0))).
           ++ destruct pre as [|x pre]; cbn in H.
              ** injection H as <- _. destruct H0 as [Hlen Hq0].
                 rewrite blit_exact in Ety by congruence. congruence.
              ** injection H as _ H. exact (proj2 (proj2 (Hquit _ _ _ H H0))).
      * (* unreachable with a 56-byte record *)
        exfalso. unfold getUint32 in Ety.
        destruct (slice_in_bounds (blit data (eventBuf w)) 0 4) as [bs Hs];
          [rewrite Hbl; unfold sizeOfEvent; lia|].
        rewrite Hs in Ety. discriminate Ety.
    + (* a return value other than 1 ends the pass *)
      split; [cbn; now rewrite blit_length|].
      exists [PollRet r data]. cbn. rewrite Eq.
      repeat split; auto; try discriminate.
      all: destruct pre as [|x [|y pre]]; cbn in H; try discriminate H;
        injection H as H _; congruence.
  - (* the poll itself throws *)
    split; [reflexivity|].
    exists [PollThrows e]. cbn. rewrite Eq.
    repeat split; auto; try discriminate.
    all: destruct pre as [|x [|y pre]]; cbn in H; discriminate H.
Qed.


(** ** The two drains side by side *)

Definition isLog (a : Action) : bool :=
  match a with
  | ActLog _ _ => true
  | _ => false
  end.

Definition notLog (a : Action) : bool := negb (isLog a).

(** Two worlds that differ in their traces at most. *)
Definition sameButTrace (w1 w2 : World) : Prop :=
  set_trace [] w1 = set_trace [] w2.

(** Two traces that extend [t0] and differ, from there on, in console
    lines of the first only. *)
Definition traces_agree (t0 tr1 tr2 : list Action) : Prop :=
  exists n1 n2, tr1 = t0 ++ n1 /\ tr2 = t0 ++ n2 /\ filter notLog n1 = n2.

Definition agree (t0 : list Action) (w1 w2 : World) : Prop :=
  sameButTrace w1 w2 /\ traces_agree t0 (trace w1) (trace w2).

Lemma traces_agree_app t0 tr1 tr2 e1 e2 :
  traces_agree t0 tr1 tr2 -> filter notLog e1 = e2 ->
  traces_agree t0 (tr1 ++ e1) (tr2 ++ e2).
Proof.
  intros (n1 & n2 & -> & -> & Hf) He.
  exists (n1 ++ e1), (n2 ++ e2). rewrite <- !app_assoc, filter_app, Hf, He.
  auto.
Qed.

Lemma pollLoop_agree (t0 : list Action) (n : nat) : forall w1 w2,
  agree t0 w1 w2 ->
  fst (MainTs.pollLoop n w1) = fst (R3f.pollLoop n w2)
  /\ agree t0 (snd (MainTs.pollLoop n w1)) (snd (R3f.pollLoop n w2)).
Proof.
  induction n as [|n IH]; intros w1 w2 Hw; [split; [reflexivity | exact Hw]|].
  rewrite main_pollLoop_unfold, r3f_pollLoop_unfold.
  destruct w1 as [pq ps fs eb wb rn fr tr1], w2 as [pq2 ps2 fs2 eb2 wb2 rn2 fr2 tr2].
  destruct Hw as [Hs Ht]. unfold sameButTrace in Hs. cbn in Hs, Ht.
  injection Hs as <- <- <- <- <- <- <-.
  unfold afterPoll, peeked, stop_with. world_simpl.
  assert (Hp : traces_agree t0 (tr1 ++ [ActPollEvent]) (tr2 ++ [ActPollEvent]))
    by now apply traces_agree_app.
  assert (Hk : traces_agree t0 ((tr1 ++ [ActPollEvent]) ++ [ActPeek EventBuf 0 4])
                              ((tr2 ++ [ActPollEvent]) ++ [ActPeek EventBuf 0 4]))
    by now apply traces_agree_app.
  destruct pq as [|[r data|e] q].
  - split; [reflexivity|]. split; [reflexivity | exact Hp].
  - destruct (r =? 1).
    + destruct (getUint32 (blit data eb) 0) as [ty|].
      * destruct (ty =? SDL_QUIT).
        -- split; [reflexivity|]. split; [reflexivity|].
           cbn [trace]. now apply traces_agree_app.
        -- apply IH. split; [reflexivity | exact Hk].
      * split; [reflexivity|]. split; [reflexivity | exact Hk].
    + split; [reflexivity|]. split; [reflexivity | exact Hp].
  - split; [reflexivity|]. split; [reflexivity | exact Hp].
Qed.

Lemma drainEvents_agree (w : World) :
  fst (MainTs.drainEvents w) = fst (R3f.drainEvents w)
  /\ agree (trace w) (snd (MainTs.drainEvents w)) (snd (R3f.drainEvents w)).
Proof.
  unfold MainTs.drainEvents, R3f.drainEvents. apply pollLoop_agree.
  split; [reflexivity|]. exists [], []. now rewrite app_nil_r.
Qed.

(** X2. The drain passes of main.ts and of r3f.tsx do the same thing:
    from the same world they end the same way and leave the same queue,
    event record and [running]; the one difference is the console line
    "SDL_QUIT received" of main.ts. *)
Theorem drains_differ_in_log_only (w : World) :
  fst (MainTs.drainEvents w) = fst (R3f.drainEvents w)
  /\ sameButTrace (snd (MainTs.drainEvents w)) (snd (R3f.drainEvents w))
  /\ filter notLog (run_trace MainTs.drainEvents w)
     = run_trace R3f.drainEvents w.
Proof.
  destruct (drainEvents_agree w) as (Hr & Hs & n1 & n2 & E1 & E2 & Hf).
  split; [exact Hr|]. split; [exact Hs|].
  now rewrite (run_trace_app _ w n1 E1), (run_trace_app _ w n2 E2).
Qed.

Lemma sameButTrace_fields (w1 w2 : World) :
  sameButTrace w1 w2 ->
  pollQueue w1 = pollQueue w2 /\ running w1 = running w2
  /\ eventBuf w1 = eventBuf w2 /\ frame w1 = frame w2
  /\ presentScript w1 = presentScript w2
  /\ frameSchedule w1 = frameSchedule w2
  /\ wmInfoBuf w1 = wmInfoBuf w2.
Proof.
  destruct w1, w2. unfold sameButTrace. cbn.
  intros H. injection H as -> -> -> -> -> -> ->. repeat split.
Qed.

Lemma r3f_drain_summary (w : World) :
  length (eventBuf w) = sizeOfEvent ->
  drain_summary w (fst (R3f.drainEvents w)) (snd (R3f.drainEvents w)).
Proof.
  intros Hb. apply r3f_pollLoop_summary; [exact Hb | lia].
Qed.

Lemma main_drain_summary (w : World) :
  length (eventBuf w) = sizeOfEvent ->
  drain_summary w (fst (MainTs.drainEvents w)) (snd (MainTs.drainEvents w)).
Proof.
  intros Hb. destruct (drainEvents_agree w) as (Hr & Hs & _).
  apply sameButTrace_fields in Hs as (Hq & Hrun & He & _).
  pose proof (r3f_drain_summary w Hb) as H.
  unfold drain_summary in *. now rewrite Hr, Hq, Hrun, He.
Qed.

(** X3. No quit event is lost.  In both files, a drain pass takes a front
    part off the queue; if that part holds a quit event, the quit event is
    the last thing the pass dequeued, the pass completed, and [running] is
    false: nothing queued behind it is polled in that pass, and it is
    never stepped over. *)
Theorem dequeued_quit_stops_drain (drain : M unit) (w : World) :
  isDrain drain ->
  length (eventBuf w) = sizeOfEvent ->
  exists consumed,
    pollQueue w = consumed ++ pollQueue (snd (drain w))
    /\ forall pre rec post,
         consumed = pre ++ PollRet 1 rec :: post ->
         quitEvent rec ->
         post = []
         /\ running (snd (drain w)) = false
         /\ fst (drain w) = Ok tt.
Proof.
  intros Hd Hb.
  assert (H : drain_summary w (fst (drain w)) (snd (drain w)))
    by (destruct Hd as [-> | ->];
        [now apply main_drain_summary | now apply r3f_drain_summary]).
  destruct H as (_ & consumed & Hc & _ & _ & Hq).
  exists consumed. split; [exact Hc | exact Hq].
Qed.

Lemma dequeued_quit_stops_drain_witness :
  exists consumed,
    [PollRet 1 keyDown; PollRet 1 quitRecord; PollRet 1 mouseMotion]
      = consumed
        ++ pollQueue (snd (MainTs.drainEvents
             (boot [PollRet 1 keyDown; PollRet 1 quitRecord;
                    PollRet 1 mouseMotion] [] []))).
Proof.
  destruct (dequeued_quit_stops_drain MainTs.drainEvents
              (boot [PollRet 1 keyDown; PollRet 1 quitRecord;
                     PollRet 1 mouseMotion] [] [])
              (or_introl eq_refl) eq_refl) as (consumed & Hc & _).
  exists consumed. exact Hc.
Defined.


(** ** The loops exit once a quit event is queued *)

(** What the steps outside the drain leave alone. *)
Definition keeps_queue (w w' : World) : Prop :=
  pollQueue w' = pollQueue w
  /\ eventBuf w' = eventBuf w
  /\ wmInfoBuf w' = wmInfoBuf w.

Lemma keeps_queue_refl w : keeps_queue w w.
Proof. repeat split. Qed.

Lemma keeps_queue_trans a b c :
  keeps_queue a b -> keeps_queue b c -> keeps_queue a c.
Proof.
  intros (H1 & H2 & H3) (H4 & H5 & H6). repeat split; congruence.
Qed.

Lemma afterDrain_keeps_queue (w : World) : keeps_queue w (snd (afterDrain w)).
Proof.
  destruct w as [pq ps fs eb wb rn fr tr].
  unfold afterDrain, MainTs.logFrame, MainTs.renderer_render, MainTs.nextFrame,
    surface_present.
  unfold_calls. world_simpl.
  destruct ((fr =? 0)%nat || (fr mod 120 =? 0)%nat);
    destruct ps as [|[|] ps]; repeat split.
Qed.

Lemma r3f_afterEffect_keeps_queue : respects keeps_queue R3f.afterEffect.
Proof.
  intros w. destruct w as [pq ps fs eb wb rn fr tr].
  unfold R3f.afterEffect, surface_present. unfold_calls. world_simpl.
  destruct ps as [|[|] ps]; repeat split.
Qed.

Lemma r3f_r3fFrames_keeps_queue (n : nat) : respects keeps_queue (R3f.r3fFrames n).
Proof.
  induction n as [|n IH]; cbn [R3f.r3fFrames].
  - apply respects_ret, keeps_queue_refl.
  - apply respects_bind; [apply keeps_queue_trans | | intros _; exact IH].
    unfold R3f.r3fFrame.
    apply respects_bind;
      [apply keeps_queue_trans | | intros _; apply r3f_afterEffect_keeps_queue].
    intros w. repeat split.
Qed.

Lemma r3f_sleep_keeps_queue (ms : Z) : respects keeps_queue (R3f.sleep ms).
Proof.
  unfold R3f.sleep.
  apply respects_bind; [apply keeps_queue_trans | intros w; repeat split |].
  intros _ w. unfold R3f.scheduledFrames.
  destruct (frameSchedule w) as [|n s]; [apply keeps_queue_refl|].
  eapply keeps_queue_trans; [|apply r3f_r3fFrames_keeps_queue].
  repeat split.
Qed.

Lemma main_loop_stopped (fuel : nat) (w : World) :
  running w = false -> MainTs.loop fuel w = (Ok tt, w).
Proof. intros H. destruct fuel; cbn [MainTs.loop]; now rewrite H. Qed.

Lemma r3f_loop_stopped (fuel : nat) (w : World) :
  running w = false -> R3f.loop fuel w = (Ok tt, w).
Proof. intros H. destruct fuel; cbn [R3f.loop]; now rewrite H. Qed.

(** A quit event waits in the queue. *)
Definition quitQueued (w : World) : Prop :=
  exists rec, In (PollRet 1 rec) (pollQueue w) /\ quitEvent rec.

(** After a drain pass the loop is stopped or the quit event still waits,
    in a shorter queue. *)
Lemma drain_summary_progress (w : World) (r : Result unit) (w' : World) :
  drain_summary w r w' ->
  quitQueued w ->
  running w' = false
  \/ (quitQueued w' /\ (length (pollQueue w') < length (pollQueue w))%nat).
Proof.
  intros (_ & consumed & Hc & Hne & _ & Hq) (rec & Hin & Hrec).
  assert (Hnil : pollQueue w <> []) by (intros E; rewrite E in Hin; destruct Hin).
  specialize (Hne Hnil).
  rewrite Hc in Hin. apply in_app_or in Hin as [Hin | Hin].
  - apply in_split in Hin as (pre & post & E).
    left. exact (proj1 (proj2 (Hq pre rec post E Hrec))).
  - right. split; [exists rec; auto|].
    rewrite Hc, length_app. destruct consumed; [contradiction | cbn; lia].
Qed.

Lemma main_loop_exits (fuel : nat) : forall w,
  bufs_ok w -> quitQueued w -> (length (pollQueue w) <= fuel)%nat ->
  fst (MainTs.loop fuel w) <> OutOfFuel.
Proof.
  induction fuel as [|fuel IH]; intros w Hw Hq Hl.
  - destruct Hq as (rec & Hin & _).
    destruct (pollQueue w); [destruct Hin | cbn in Hl; lia].
  - cbn [MainTs.loop]. destruct (running w); [|discriminate].
    change MainTs.iteration with (MainTs.drainEvents;; afterDrain).
    pose proof (main_drain_summary w (proj1 Hw)) as Hs.
    pose proof (main_pollLoop_total (S (length (pollQueue w))) w
                  (Nat.lt_succ_diag_r _)) as Ht.
    fold (MainTs.drainEvents w) in Ht.
    destruct (main_drainEvents_may anything (fun _ _ => I) w) as (_ & _ & Hk).
    destruct (MainTs.drainEvents w) as [r0 w1] eqn:Ed. cbn [fst snd] in *.
    destruct r0 as [[]| e | |];
      try (unfold bind; rewrite Ed; cbn; congruence).
    unfold bind at 1. rewrite (bind_ok _ _ w w1 tt Ed).
    destruct (afterDrain_run w1) as (_ & Hrun & Hok & Hthrow).
    destruct (afterDrain_keeps_queue w1) as (Kq & Ke & Kw).
    destruct (afterDrain w1) as [r1 w2] eqn:Ea. cbn [fst snd] in *.
    destruct (hd false (presentScript w1)).
    + rewrite (Hthrow eq_refl). discriminate.
    + rewrite (Hok eq_refl).
      destruct (drain_summary_progress _ _ _ Hs Hq) as [Hstop | [Hq1 Hl1]].
      * rewrite main_loop_stopped by congruence. discriminate.
      * apply IH.
        -- destruct (Hk Hw) as [H1 H2]. split; congruence.
        -- destruct Hq1 as (rec & Hin & Hrec). exists rec. now rewrite Kq.
        -- rewrite Kq. lia.
Qed.

Lemma r3f_loop_exits (fuel : nat) : forall w,
  bufs_ok w -> quitQueued w -> (length (pollQueue w) <= fuel)%nat ->
  fst (R3f.loop fuel w) = Ok tt.
Proof.
  induction fuel as [|fuel IH]; intros w Hw Hq Hl.
  - destruct Hq as (rec & Hin & _).
    destruct (pollQueue w); [destruct Hin | cbn in Hl; lia].
  - cbn [R3f.loop]. destruct (running w); [|reflexivity].
    unfold R3f.iteration.
    pose proof (r3f_drain_summary w (proj1 Hw)) as Hs.
    pose proof (r3f_guarded_drain_ok w Hw) as Hg.
    destruct (r3f_guarded_drain_may anything (fun _ _ => I) w) as (_ & _ & Hk).
    unfold tryCatch in Hg, Hk |- *.
    unfold bind at 1. unfold bind at 1.
    destruct (R3f.drainEvents w) as [r0 w1] eqn:Ed. cbn [fst snd] in Hs.
    assert (Hstep : forall w1',
              bufs_ok w1' ->
              running w1' = false
              \/ (quitQueued w1'
                  /\ (length (pollQueue w1') < length (pollQueue w))%nat) ->
              fst (let (r, w') := R3f.sleep 1 w1' in
                   match r with
                   | Ok _ => R3f.loop fuel w'
                   | Throw e => (Throw e, w')
                   | Fault => (Fault, w')
                   | OutOfFuel => (OutOfFuel, w')
                   end) = Ok tt).
    { intros w1' Hw1 Hcase.
      pose proof (r3f_sleep_ok 1 w1') as Hsl.
      destruct (r3f_sleep_keeps_queue 1 w1') as (Kq & Ke & Kw).
      destruct (r3f_sleep_may anything (fun _ _ => I) w1') as (_ & Hst & _).
      destruct (R3f.sleep 1 w1') as [r2 w2]. cbn [fst snd] in *. subst r2.
      destruct Hcase as [Hstop | [(rec & Hin & Hrec) Hl1]].
      - now rewrite r3f_loop_stopped by (apply Hst, Hstop).
      - apply IH.
        + destruct Hw1 as [H1 H2]. split; congruence.
        + exists rec. now rewrite Kq.
        + rewrite Kq. lia. }
    destruct r0 as [[]| e | |]; cbn [fst snd] in *; try discriminate Hg.
    + apply Hstep; [now apply Hk|].
      exact (drain_summary_progress _ _ _ Hs Hq).
    + unfold_calls. apply Hstep; [|left; reflexivity].
      specialize (Hk Hw). exact Hk.
Qed.

(** X4. A queued quit event ends the loop.  With the two scratch buffers
    at their sizes and a quit event somewhere in the queue of coming poll
    answers, as many iterations as the queue has entries are enough for
    either loop to exit, whatever else is queued and however presents
    turn out: the loop of r3f.tsx returns normally, the loop of main.ts
    returns or is left by an exception. *)
Theorem queued_quit_ends_the_loop (w : World) (fuel : nat) :
  bufs_ok w ->
  quitQueued w ->
  (length (pollQueue w) <= fuel)%nat ->
  fst (R3f.loop fuel w) = Ok tt
  /\ (fst (MainTs.loop fuel w) = Ok tt
      \/ exists e, fst (MainTs.loop fuel w) = Throw e).
Proof.
  intros Hw Hq Hl. split; [now apply r3f_loop_exits|].
  pose proof (main_loop_exits fuel w Hw Hq Hl) as Hne.
  pose proof (main_loop_nofault fuel w Hw) as Hnf.
  destruct (fst (MainTs.loop fuel w)) as [[]| e | |]; eauto; contradiction.
Qed.

Lemma queued_quit_ends_the_loop_witness :
  fst (R3f.loop 3 (boot [PollRet 1 keyDown; PollRet 0 [];
                         PollRet 1 quitRecord] [] [])) = Ok tt.
Proof.
  refine (proj1 (queued_quit_ends_the_loop
    (boot [PollRet 1 keyDown; PollRet 0 []; PollRet 1 quitRecord] [] []) 3
    (conj eq_refl eq_refl) _ _)).
  - exists quitRecord. split; [cbn; auto | exact quitEvent_quitRecord].
  - cbn. lia.
Defined.


(** ** Frames: renders, presents and the frame counter *)

Definition occ (a : Action) (tr : list Action) : nat :=
  count_occ Action_eq_dec tr a.

Lemma occ_app a tr1 tr2 : occ a (tr1 ++ tr2) = (occ a tr1 + occ a tr2)%nat.
Proof. apply count_occ_app. Qed.

Lemma occ_none (P : Action -> Prop) (a : Action) (tr : list Action) :
  ~ P a -> Forall P tr -> occ a tr = 0%nat.
Proof.
  intros Ha Htr. apply count_occ_not_In. intros Hin.
  rewrite Forall_forall in Htr. exact (Ha (Htr a Hin)).
Qed.













(** The drain leaves the frame counter and the scripts of presents and
    frames alone. *)
Lemma r3f_pollLoop_keeps_frame (n : nat) : forall w,
  frame (snd (R3f.pollLoop n w)) = frame w
  /\ presentScript (snd (R3f.pollLoop n w)) = presentScript w
  /\ frameSchedule (snd (R3f.pollLoop n w)) = frameSchedule w.
Proof.
  induction n as [|n IH]; intros w; [repeat split|].
  rewrite r3f_pollLoop_unfold.
  destruct (pollQueue w) as [|[r data|e] q]; [repeat split | | repeat split].
  destruct (r =? 1); [|repeat split].
  destruct (getUint32 (blit data (eventBuf w)) 0) as [ty|]; [|repeat split].
  destruct (ty =? SDL_QUIT); [repeat split|].
  destruct (IH (peeked (afterPoll data q w))) as (H1 & H2 & H3).
  now rewrite H1, H2, H3.
Qed.

Lemma main_drain_keeps_frame (w : World) :
  frame (snd (MainTs.drainEvents w)) = frame w
  /\ presentScript (snd (MainTs.drainEvents w)) = presentScript w
  /\ frameSchedule (snd (MainTs.drainEvents w)) = frameSchedule w.
Proof.
  destruct (drainEvents_agree w) as (_ & Hs & _).
  apply sameButTrace_fields in Hs as (_ & _ & _ & Hf & Hp & Hfs & _).
  rewrite Hf, Hp, Hfs. apply r3f_pollLoop_keeps_frame.
Qed.

Lemma afterDrain_frame (w : World) :
  fst (afterDrain w) = Ok tt -> frame (snd (afterDrain w)) = S (frame w).
Proof.
  destruct w as [pq ps fs eb wb rn fr tr].
  unfold afterDrain, MainTs.logFrame, MainTs.renderer_render, MainTs.nextFrame,
    surface_present.
  unfold_calls. world_simpl.
  destruct ((fr =? 0)%nat || (fr mod 120 =? 0)%nat);
    destruct ps as [|[|] ps]; cbn; intros H;
    first [reflexivity | discriminate H].
Qed.

(** Console lines of the frame counter carry multiples of 120 only. *)
Definition frameLine (a : Action) : Prop :=
  forall z, a = ActLog "Rendering frame" [z] -> z mod 120 = 0.

Lemma main_pollLoop_frameLine (n : nat) : may frameLine (MainTs.pollLoop n).
Proof.
  induction n as [|n IH]; cbn [MainTs.pollLoop].
  - intros w. apply step_ok_refl.
  - may_tac ltac:(solve [intros z Hz; discriminate Hz]). exact IH.
Qed.

Lemma main_logFrame_frameLine : may frameLine MainTs.logFrame.
Proof.
  intros w. unfold MainTs.logFrame.
  destruct (Nat.eqb_spec (frame w) 0) as [E0|_]; cbn [orb].
  - apply may_console_log. intros z Hz. injection Hz as <-. now rewrite E0.
  - destruct (Nat.eqb_spec (frame w mod 120) 0) as [E|_].
    + apply may_console_log. intros z Hz. injection Hz as <-.
      change 120 with (Z.of_nat 120). rewrite <- Nat2Z.inj_mod, E. reflexivity.
    + apply may_ret.
Qed.

Lemma main_loop_frameLine (fuel : nat) : may frameLine (MainTs.loop fuel).
Proof.
  induction fuel as [|fuel IH]; intros w; cbn [MainTs.loop];
    destruct (running w); try apply step_ok_refl.
  apply (may_bind frameLine MainTs.iteration (fun _ => MainTs.loop fuel));
    [|intros _; exact IH].
  unfold MainTs.iteration, MainTs.renderer_render.
  apply may_bind; [intros w0; apply main_pollLoop_frameLine | intros _].
  apply may_bind; [apply may_emit; intros z Hz; discriminate Hz | intros _].
  apply may_bind; [apply main_logFrame_frameLine | intros _].
  apply may_bind; [apply may_emit; intros z Hz; discriminate Hz | intros _].
  apply may_bind;
    [apply may_surface_present; intros z Hz; discriminate Hz | intros _].
  apply main_nextFrame_may.
Qed.

Lemma run_trace_same {A} (m : M A) (w : World) :
  snd (m w) = w -> run_trace m w = [].
Proof.
  intros H. apply run_trace_app. rewrite H. now rewrite app_nil_r.
Qed.

Lemma main_loop_frame_count (fuel : nat) : forall w,
  fst (MainTs.loop fuel w) = Ok tt ->
  frame (snd (MainTs.loop fuel w))
  = (frame w + occ ActPresent (run_trace (MainTs.loop fuel) w))%nat.
Proof.
  induction fuel as [|fuel IH]; intros w Hok.
  - destruct (running w) eqn:R; [cbn [MainTs.loop] in Hok; rewrite R in Hok;
                                 discriminate Hok|].
    rewrite run_trace_same by now rewrite main_loop_stopped.
    rewrite main_loop_stopped by exact R. cbn. lia.
  - destruct (running w) eqn:R.
    2:{ rewrite run_trace_same by now rewrite main_loop_stopped.
        rewrite main_loop_stopped by exact R. cbn. lia. }
    assert (Eloop : MainTs.loop (S fuel) w
                    = ((MainTs.drainEvents;; afterDrain);; MainTs.loop fuel) w)
      by (cbn [MainTs.loop]; now rewrite R).
    destruct (main_drain_keeps_frame w) as (Hf & _).
    destruct (main_drainEvents_may drain_alphabet (fun _ Ha => Ha) w)
      as ((d & Ed & Fd) & _).
    destruct (MainTs.drainEvents w) as [r0 w1] eqn:E0. cbn [fst snd] in *.
    destruct r0 as [[]| e | |];
      try (rewrite Eloop in Hok; unfold bind in Hok; rewrite E0 in Hok;
           discriminate Hok).
    pose proof (afterDrain_frame w1) as Hfr.
    destruct (afterDrain_run w1) as (Ht & _).
    destruct (afterDrain w1) as [r1 w2] eqn:E1. cbn [fst snd] in *.
    assert (Eit : (MainTs.drainEvents;; afterDrain) w = (r1, w2))
      by now rewrite (bind_ok _ _ w w1 tt E0).
    destruct r1 as [[]| e | |];
      try (rewrite Eloop in Hok; unfold bind at 1 in Hok; rewrite Eit in Hok;
           discriminate Hok).
    assert (Eres : MainTs.loop (S fuel) w = MainTs.loop fuel w2)
      by now rewrite Eloop, (bind_ok _ _ w w2 tt Eit).
    rewrite Eres in Hok. specialize (IH w2 Hok).
    destruct (may_run_trace _ _ w2 (main_loop_may main_loop_alphabet
                                      (fun _ Ha => Ha) fuel)) as [Et _].
    assert (Erun : run_trace (MainTs.loop (S fuel)) w
                   = d ++ (ActRotate :: frameLog (frame w1)
                           ++ [ActRender; ActPresent])
                       ++ run_trace (MainTs.loop fuel) w2).
    { apply run_trace_app. rewrite Eres, Et, Ht, Ed.
      now rewrite <- !app_assoc. }
    rewrite Erun, Eres, IH, (Hfr eq_refl), Hf, !occ_app.
    rewrite (occ_none drain_alphabet ActPresent d) by (cbn; tauto).
    unfold frameLog, occ. destruct (_ || _); cbn; lia.
Qed.

(** X6. The frame counter of main.ts counts presented frames.  When the
    loop returns normally, [frame] has grown by the number of
    [surface.present()] calls of the run; and in any run, a console line
    "Rendering frame" is written for multiples of 120 only, which the
    test [frame % 120 === 0] decides alone: [frame === 0] adds nothing. *)
Theorem frame_counts_presents (fuel : nat) (w : World) :
  (fst (MainTs.loop fuel w) = Ok tt ->
   frame (snd (MainTs.loop fuel w))
   = (frame w + occ ActPresent (run_trace (MainTs.loop fuel) w))%nat)
  /\ (forall z, In (ActLog "Rendering frame" [z]) (run_trace (MainTs.loop fuel) w) ->
      z mod 120 = 0)
  /\ run_trace MainTs.logFrame w
     = if (frame w mod 120 =? 0)%nat
       then [ActLog "Rendering frame" [Z.of_nat (frame w)]]
       else [].
Proof.
  split; [apply main_loop_frame_count|]. split.
  - intros z Hin.
    destruct (may_run_trace _ _ w (main_loop_frameLine fuel)) as [_ F].
    rewrite Forall_forall in F. exact (F _ Hin z eq_refl).
  - apply run_trace_app. unfold MainTs.logFrame.
    destruct (Nat.eqb_spec (frame w) 0) as [E0|N0]; cbn [orb].
    + rewrite E0. reflexivity.
    + destruct (frame w mod 120 =? 0)%nat; [reflexivity|].
      cbn. now rewrite app_nil_r.
Qed.

Lemma frame_counts_presents_witness :
  frame (snd (MainTs.loop 5 (boot [PollRet 0 []; PollRet 1 quitRecord] [] [])))
  = (0 + occ ActPresent
           (run_trace (MainTs.loop 5)
              (boot [PollRet 0 []; PollRet 1 quitRecord] [] [])))%nat.
Proof.
  exact (proj1 (frame_counts_presents 5
                  (boot [PollRet 0 []; PollRet 1 quitRecord] [] [])) eq_refl).
Defined.


(** ** Exceptions inside the loops *)

Lemma main_loop_running_unfold (fuel : nat) (w : World) :
  running w = true ->
  MainTs.loop (S fuel) w = (MainTs.iteration;; MainTs.loop fuel) w.
Proof. intros H. cbn [MainTs.loop]. now rewrite H. Qed.

Lemma r3f_loop_running_unfold (fuel : nat) (w : World) :
  running w = true ->
  R3f.loop (S fuel) w = (R3f.iteration;; R3f.loop fuel) w.
Proof. intros H. cbn [R3f.loop]. now rewrite H. Qed.

(** An iteration of r3f.tsx that ends with the loop stopped is the last
    one. *)
Lemma r3f_last_iteration (fuel : nat) (w : World) :
  bufs_ok w ->
  running w = true ->
  running (snd (R3f.iteration w)) = false ->
  R3f.loop (S fuel) w = (Ok tt, snd (R3f.iteration w)).
Proof.
  intros Hw Hr Hs. rewrite r3f_loop_running_unfold by exact Hr.
  pose proof (r3f_iteration_ok w Hw) as Hok.
  destruct (R3f.iteration w) as [r w1] eqn:E. cbn [fst snd] in *. subst r.
  rewrite (bind_ok _ _ w w1 tt E). now apply r3f_loop_stopped.
Qed.

Lemma r3f_region_after_last_iteration (window : pointer) (fuel : nat) (w : World) :
  bufs_ok w ->
  running (snd (R3f.iteration (r3fEntered w))) = false ->
  R3f.mainLoopRegion window (S fuel) w
  = (Ok tt,
     set_trace (trace (snd (R3f.iteration (r3fEntered w)))
                ++ [ActDestroyWindow window; ActQuit; ActExit 0])
       (snd (R3f.iteration (r3fEntered w)))).
Proof.
  intros Hw Hs. rewrite r3f_region_unfold.
  rewrite (bind_ok _ _ _ _ tt
             (r3f_last_iteration fuel (r3fEntered w) Hw eq_refl Hs)).
  apply shutdown_run.
Qed.

(** The iteration of r3f.tsx whose first poll throws. *)
Lemma r3f_iteration_poll_throws (w : World) (e : string) (q : list PollResult) :
  pollQueue w = PollThrows e :: q ->
  exists during,
    trace (snd (R3f.iteration w))
    = trace w ++ [ActPollEvent; ActError "Error in SDL loop:";
                  ActSetRunning false; ActSleep 1] ++ during
    /\ Forall frame_alphabet during
    /\ running (snd (R3f.iteration w)) = false.
Proof.
  intros Hq. unfold R3f.iteration.
  set (w2 := set_running false
               (set_trace (trace w ++ [ActPollEvent; ActError "Error in SDL loop:";
                                       ActSetRunning false])
                  (set_pollQueue q w))).
  assert (Eg : tryCatch R3f.drainEvents
                 (fun _ => console_error "Error in SDL loop:";;
                           assign_running false) w = (Ok tt, w2)).
  { unfold tryCatch, R3f.drainEvents. rewrite r3f_pollLoop_unfold, Hq.
    subst w2. destruct w as [pq ps fs eb wb rn fr tr].
    unfold_calls. world_simpl. now rewrite <- !app_assoc. }
  rewrite (bind_ok _ _ w w2 tt Eg).
  unfold R3f.sleep. unfold bind at 1. cbn [emit].
  destruct (r3f_scheduledFrames_may frame_alphabet (fun _ Ha => Ha)
              (set_trace (trace w2 ++ [ActSleep 1]) w2))
    as ((during & Ed & Fd) & Hst & _).
  exists during. split; [|split; [exact Fd | now apply Hst]].
  rewrite Ed. subst w2. cbn [trace set_trace set_running].
  now rewrite <- !app_assoc.
Qed.

(** X7. An exception thrown by [SDL_PollEvent].  In r3f.tsx the loop's
    [catch] logs it and stops the loop: that iteration still sleeps, no
    further poll is made, the region returns normally and the shutdown
    sequence runs once.  In main.ts nothing catches it: the exception
    leaves the module after that single poll, before any frame is
    rendered, and neither [SDL_DestroyWindow] nor [SDL_Quit] is called. *)
Theorem poll_exception_caught_in_r3f_only
    (window : pointer) (fuel : nat) (w : World)
    (e : string) (q : list PollResult) :
  bufs_ok w ->
  pollQueue w = PollThrows e :: q ->
  (fst (R3f.mainLoopRegion window (S fuel) w) = Ok tt
   /\ shuts_down_once window (run_trace (R3f.mainLoopRegion window (S fuel)) w)
   /\ In (ActError "Error in SDL loop:")
         (run_trace (R3f.mainLoopRegion window (S fuel)) w)
   /\ occ ActPollEvent (run_trace (R3f.mainLoopRegion window (S fuel)) w) = 1%nat)
  /\ (fst (MainTs.mainLoopRegion window (S fuel) w) = Throw e
      /\ run_trace (MainTs.mainLoopRegion window (S fuel)) w
         = [ActLog "Entering render loop" []; ActPollEvent]).
Proof.
  intros Hw Hq. split.
  - destruct (r3f_iteration_poll_throws (r3fEntered w) e q Hq)
      as (during & Et & Fd & Hs).
    pose proof (r3f_region_after_last_iteration window fuel w Hw Hs) as Er.
    assert (Hne : fst (R3f.mainLoopRegion window (S fuel) w) <> OutOfFuel)
      by (rewrite Er; discriminate).
    destruct (r3f_region_shuts_down_once window (S fuel) w Hw Hne) as [Hok Hsd].
    assert (Erun : run_trace (R3f.mainLoopRegion window (S fuel)) w
                   = ActLog "Entering SDL2 loop" []
                     :: [ActPollEvent; ActError "Error in SDL loop:";
                         ActSetRunning false; ActSleep 1]
                     ++ during ++ [ActDestroyWindow window; ActQuit; ActExit 0]).
    { apply run_trace_app. rewrite Er. cbn [snd trace set_trace]. rewrite Et.
      cbn [trace r3fEntered set_running set_trace].
      now rewrite <- !app_assoc. }
    split; [exact Hok|]. split; [exact Hsd|]. rewrite Erun. split.
    + cbn. auto.
    + change (ActLog "Entering SDL2 loop" []
              :: [ActPollEvent; ActError "Error in SDL loop:";
                  ActSetRunning false; ActSleep 1]
              ++ during ++ [ActDestroyWindow window; ActQuit; ActExit 0])
        with ([ActLog "Entering SDL2 loop" []; ActPollEvent;
               ActError "Error in SDL loop:"; ActSetRunning false; ActSleep 1]
              ++ during ++ [ActDestroyWindow window; ActQuit; ActExit 0]).
      rewrite !occ_app, (occ_none frame_alphabet ActPollEvent during)
        by (cbn; tauto).
      reflexivity.
  - set (wT := set_pollQueue q
                 (set_trace (trace (mainEntered w) ++ [ActPollEvent])
                    (mainEntered w))).
    assert (Ed : MainTs.drainEvents (mainEntered w) = (Throw e, wT))
      by (unfold MainTs.drainEvents; rewrite main_pollLoop_unfold;
          cbn [pollQueue mainEntered set_trace set_frame set_running];
          now rewrite Hq).
    assert (El : MainTs.loop (S fuel) (mainEntered w) = (Throw e, wT)).
    { rewrite main_loop_running_unfold by reflexivity.
      apply bind_throw. apply main_iteration_drain_throws. exact Ed. }
    assert (Er : MainTs.mainLoopRegion window (S fuel) w = (Throw e, wT))
      by (rewrite main_region_unfold; apply bind_throw; exact El).
    rewrite Er. split; [reflexivity|].
    apply run_trace_app. rewrite Er. subst wT.
    cbn [snd trace set_pollQueue set_trace mainEntered].
    now rewrite <- app_assoc.
Qed.

Lemma poll_exception_caught_in_r3f_only_witness :
  fst (R3f.mainLoopRegion 4096 1 (boot [PollThrows "library closed"] [] []))
    = Ok tt
  /\ fst (MainTs.mainLoopRegion 4096 1 (boot [PollThrows "library closed"] [] []))
    = Throw "library closed".
Proof.
  pose proof (poll_exception_caught_in_r3f_only 4096 0
                (boot [PollThrows "library closed"] [] [])
                "library closed" [] (conj eq_refl eq_refl) eq_refl) as H.
  exact (conj (proj1 (proj1 H)) (proj1 (proj2 H))).
Defined.

(** The guarded drain of r3f.tsx leaves the scripts of presents and
    frames alone. *)
Lemma r3f_guarded_drain_keeps_scripts (w : World) :
  let w1 := snd (tryCatch R3f.drainEvents
                   (fun _ => console_error "Error in SDL loop:";;
                             assign_running false) w) in
  presentScript w1 = presentScript w /\ frameSchedule w1 = frameSchedule w.
Proof.
  cbv zeta. unfold tryCatch, R3f.drainEvents.
  destruct (r3f_pollLoop_keeps_frame (S (length (pollQueue w))) w) as (_ & Hp & Hf).
  destruct (R3f.pollLoop _ w) as [[[]| e | |] w1]; cbn [fst snd] in *; auto.
Qed.

(** The first frame of a sleep, when its present throws. *)
Lemma r3f_frames_first_present_throws (n : nat) (w : World) (p : list bool) :
  presentScript w = true :: p ->
  exists tail,
    trace (snd (R3f.r3fFrames (S n) w))
    = trace w ++ [ActRender; ActPresent; ActError "Error in surface.present():";
                  ActSetRunning false] ++ tail
    /\ running (snd (R3f.r3fFrames (S n) w)) = false.
Proof.
  intros Hp. cbn [R3f.r3fFrames].
  set (w1 := set_running false
               (set_trace (trace w ++ [ActRender; ActPresent;
                                       ActError "Error in surface.present():";
                                       ActSetRunning false])
                  (set_presentScript p w))).
  assert (E1 : R3f.r3fFrame w = (Ok tt, w1)).
  { subst w1. destruct w as [pq ps fs eb wb rn fr tr]. cbn in Hp. subst ps.
    unfold R3f.r3fFrame, R3f.afterEffect, surface_present.
    unfold_calls. world_simpl. now rewrite <- !app_assoc. }
  rewrite (bind_ok _ _ w w1 tt E1).
  destruct (r3f_r3fFrames_may anything (fun _ _ => I) n w1)
    as ((tail & Et & _) & Hst & _).
  exists tail. split; [|now apply Hst].
  rewrite Et. subst w1. cbn [trace set_trace set_running].
  now rewrite <- !app_assoc.
Qed.

(** X8. A failed present ends the loop of r3f.tsx in good order.  If the
    first frame rendered while the loop sleeps meets a
    [surface.present()] that throws, the hook logs the error and stops
    the loop: that iteration is the last, the region returns normally and
    the shutdown sequence runs once, whatever the event queue holds. *)
Theorem r3f_failed_present_shuts_down
    (window : pointer) (fuel n : nat) (w : World)
    (s : list nat) (p : list bool) :
  bufs_ok w ->
  frameSchedule w = S n :: s ->
  presentScript w = true :: p ->
  fst (R3f.mainLoopRegion window (S fuel) w) = Ok tt
  /\ shuts_down_once window (run_trace (R3f.mainLoopRegion window (S fuel)) w)
  /\ In (ActError "Error in surface.present():")
        (run_trace (R3f.mainLoopRegion window (S fuel)) w)
  /\ running (snd (R3f.mainLoopRegion window (S fuel) w)) = false.
Proof.
  intros Hw Hf Hp.
  (* the last iteration *)
  assert (Hit : running (snd (R3f.iteration (r3fEntered w))) = false
                /\ exists pre post,
                     trace (snd (R3f.iteration (r3fEntered w)))
                     = trace w ++ pre
                       ++ ActError "Error in surface.present():" :: post).
  { unfold R3f.iteration.
    destruct (r3f_guarded_drain_keeps_scripts (r3fEntered w)) as (Kp & Kf).
    destruct (r3f_guarded_drain_may anything (fun _ _ => I) (r3fEntered w))
      as ((body & Eb & _) & _).
    pose proof (r3f_guarded_drain_ok (r3fEntered w) Hw) as Hg.
    destruct (tryCatch R3f.drainEvents _ (r3fEntered w)) as [r w1] eqn:Eg.
    cbn [fst snd] in *. subst r.
    rewrite (bind_ok _ _ _ w1 tt Eg).
    set (w1' := set_trace (trace w1 ++ [ActSleep 1]) w1).
    assert (Hf' : frameSchedule w1' = S n :: s)
      by (subst w1'; cbn [frameSchedule set_trace]; rewrite Kf; exact Hf).
    assert (Hp' : presentScript (set_frameSchedule s w1') = true :: p)
      by (subst w1'; cbn [presentScript set_frameSchedule set_trace];
          rewrite Kp; exact Hp).
    assert (Esl : R3f.sleep 1 w1 = R3f.r3fFrames (S n) (set_frameSchedule s w1')).
    { unfold R3f.sleep.
      rewrite (bind_ok (emit (ActSleep 1)) (fun _ => R3f.scheduledFrames)
                 w1 w1' tt eq_refl).
      unfold R3f.scheduledFrames. now rewrite Hf'. }
    rewrite Esl.
    destruct (r3f_frames_first_present_throws n (set_frameSchedule s w1') p Hp')
      as (tail & Et & Hs).
    split; [exact Hs|].
    exists (ActLog "Entering SDL2 loop" [] :: body
            ++ [ActSleep 1; ActRender; ActPresent]),
           (ActSetRunning false :: tail).
    rewrite Et. subst w1'. cbn [trace set_frameSchedule set_trace]. rewrite Eb.
    cbn [trace r3fEntered set_running set_trace].
    rewrite <- !app_assoc. cbn [app]. now rewrite <- !app_assoc. }
  destruct Hit as (Hs & pre & post & Et).
  pose proof (r3f_region_after_last_iteration window fuel w Hw Hs) as Er.
  assert (Hne : fst (R3f.mainLoopRegion window (S fuel) w) <> OutOfFuel)
    by (rewrite Er; discriminate).
  destruct (r3f_region_shuts_down_once window (S fuel) w Hw Hne) as [Hok Hsd].
  split; [exact Hok|]. split; [exact Hsd|]. split.
  - rewrite (run_trace_app _ w
               (pre ++ ActError "Error in surface.present():" :: post
                ++ [ActDestroyWindow window; ActQuit; ActExit 0])).
    + apply in_or_app. right. left. reflexivity.
    + rewrite Er. cbn [snd trace set_trace]. rewrite Et.
      rewrite <- !app_assoc. cbn [app]. reflexivity.
  - rewrite Er. exact Hs.
Qed.

Lemma r3f_failed_present_shuts_down_witness :
  shuts_down_once 4096
    (run_trace (R3f.mainLoopRegion 4096 1)
       (boot [PollRet 1 keyDown] [true; false] [2; 1]%nat)).
Proof.
  refine (proj1 (proj2 (r3f_failed_present_shuts_down 4096 0 1
    (boot [PollRet 1 keyDown] [true; false] [2; 1]%nat) [1%nat] [false]
    (conj eq_refl eq_refl) eq_refl eq_refl))).
Defined.

(** X9. r3f.tsx lets no exception out of its loop and always shuts
    down.  From buffers of the allocated sizes, every run of the region
    that is not cut off returns normally, and its shutdown calls are
    exactly [SDL_DestroyWindow] of the given window followed by
    [SDL_Quit], once each. *)
Theorem r3f_every_exit_shuts_down (window : pointer) (fuel : nat) (w : World) :
  bufs_ok w ->
  fst (R3f.mainLoopRegion window fuel w) <> OutOfFuel ->
  fst (R3f.mainLoopRegion window fuel w) = Ok tt
  /\ shuts_down_once window (run_trace (R3f.mainLoopRegion window fuel) w).
Proof. apply r3f_region_shuts_down_once. Qed.

Lemma r3f_every_exit_shuts_down_witness :
  shuts_down_once 4096
    (run_trace (R3f.mainLoopRegion 4096 2)
       (boot [PollRet 1 quitRecord] [] [3%nat])).
Proof.
  refine (proj2 (r3f_every_exit_shuts_down 4096 2
    (boot [PollRet 1 quitRecord] [] [3%nat]) (conj eq_refl eq_refl) _)).
  vm_compute. discriminate.
Defined.

(** X10. main.ts shuts down exactly when its loop returns.  For every
    run of the region: it ends normally if and only if its shutdown calls
    are [SDL_DestroyWindow] of the given window followed by [SDL_Quit],
    once each; and it ends otherwise (an exception, or the run cut off)
    if and only if it makes no shutdown call at all. *)
Theorem main_shuts_down_iff_loop_returns
    (window : pointer) (fuel : nat) (w : World) :
  (fst (MainTs.mainLoopRegion window fuel w) = Ok tt
   <-> shuts_down_once window (run_trace (MainTs.mainLoopRegion window fuel) w))
  /\ (fst (MainTs.mainLoopRegion window fuel w) <> Ok tt
      <-> filter isShutdown (run_trace (MainTs.mainLoopRegion window fuel) w) = []).
Proof.
  destruct (main_region_shutdown window fuel w) as [Hok Hno].
  unfold shuts_down_once in *.
  destruct (fst (MainTs.mainLoopRegion window fuel w)) as [[]| e | |].
  - specialize (Hok eq_refl). rewrite Hok.
    split; split; auto; try congruence; discriminate.
  - rewrite Hno by discriminate. split; split; auto; discriminate.
  - rewrite Hno by discriminate. split; split; auto; discriminate.
  - rewrite Hno by discriminate. split; split; auto; discriminate.
Qed.


(** ** More on surface creation *)

(** The [system] each discriminant selects. *)
Definition systemName (sub : Z) : string :=
  if sub =? SDL_SYSWM_WINDOWS then "win32"
  else if sub =? SDL_SYSWM_X11 then "x11"
  else if sub =? SDL_SYSWM_COCOA then "cocoa"
  else if sub =? SDL_SYSWM_WAYLAND then "wayland"
  else "".

Ltac case_os h :=
  destruct (String.eqb_spec (BUILD_OS h) "darwin") as [Ed|Nd];
  [| destruct (String.eqb_spec (BUILD_OS h) "windows") as [Ew|Nw];
     [| destruct (String.eqb_spec (BUILD_OS h) "linux") as [El|Nl]]].

Ltac case_sub sub :=
  destruct (Z.eqb_spec sub SDL_SYSWM_COCOA);
  destruct (Z.eqb_spec sub SDL_SYSWM_WINDOWS);
  destruct (Z.eqb_spec sub SDL_SYSWM_WINRT);
  destruct (Z.eqb_spec sub SDL_SYSWM_X11);
  destruct (Z.eqb_spec sub SDL_SYSWM_WAYLAND);
  subst; try discriminate; try congruence.

(** X11. [createSurface] of main.ts returns a surface exactly for the
    valid pairs.  Once the window-manager-info query has succeeded, it
    returns a surface if and only if the discriminant is valid for the
    build's OS (on an OS other than the three, never); and a returned
    surface has the [system] of its discriminant and the requested
    width and height. *)
Theorem main_createSurface_accepts_iff_valid
    (h : Host) (win mv wd ht : Z) (w : World) (sub : Z) :
  bufs_ok w ->
  wmInfoRet h <> 0 ->
  getUint32 (wmInfoAfterQuery h w) 4 = Some sub ->
  ((exists s, fst (MainTs.createSurface h win mv wd ht w) = Ok s)
   <-> validSubsystem (BUILD_OS h) sub = true)
  /\ (forall s, fst (MainTs.createSurface h win mv wd ht w) = Ok s ->
        system s = systemName sub /\ width s = wd /\ height s = ht).
Proof.
  intros Hw Hok Hs.
  destruct (decoded_fields h w Hw) as (sub' & p8 & p16 & p24 & F4 & F8 & F16 & F24).
  rewrite Hs in F4. injection F4 as <-.
  rewrite (main_createSurface_result h win mv wd ht w sub p8 p16 p24)
    by assumption.
  unfold validSubsystem, systemName.
  case_os h; case_sub sub; cbn [orb]; split;
    try (split; [intros [s Hs']; congruence | intros; eexists; reflexivity]);
    try (split; [intros [s Hs']; discriminate Hs' | discriminate]);
    try (intros s Hs'; discriminate Hs');
    try (intros s Hs'; injection Hs' as <-; repeat split).
Qed.

Definition waylandRecord : list byte :=
  syntheticWmInfo [x02; x1e; x0a; x00] SDL_SYSWM_WAYLAND 4660 22136 39612 [].

Definition linuxWayland : Host :=
  mkHost "linux" (fun _ => false) 4096 0 [x02; x1e; x0a] 1 waylandRecord.

Lemma main_createSurface_accepts_iff_valid_witness :
  exists s, fst (MainTs.createSurface linuxWayland 4096 0 WIDTH HEIGHT
                   (boot [] [] [])) = Ok s.
Proof.
  apply (proj1 (main_createSurface_accepts_iff_valid linuxWayland 4096 0
                  WIDTH HEIGHT (boot [] [] []) SDL_SYSWM_WAYLAND
                  (conj eq_refl eq_refl) ltac:(discriminate) eq_refl)).
  reflexivity.
Defined.




Lemma createSurface_query_failed (h : Host) (win mv wd ht : Z) (w : World) :
  wmInfoRet h = 0 ->
  fst (MainTs.createSurface h win mv wd ht w) = Throw "SDL_GetWindowWMInfo failed"
  /\ fst (R3f.createSurface h win mv wd ht w) = Throw "SDL_GetWindowWMInfo failed".
Proof.
  intros H0. destruct w as [pq ps fs eb wb rn fr tr].
  split; unfold MainTs.createSurface, R3f.createSurface; unfold_calls;
    world_simpl; rewrite H0; reflexivity.
Qed.

(** X13. A failed window-manager-info query.  When
    [SDL_GetWindowWMInfo] returns 0, [createSurface] throws
    "SDL_GetWindowWMInfo failed" in both files, after [SDL_GetVersion] and
    the query and before any read of the buffer: nothing is decoded from
    a record the library did not fill. *)
Theorem createSurface_query_failure
    (h : Host) (win mv wd ht : Z) (w : World) :
  wmInfoRet h = 0 ->
  (fst (MainTs.createSurface h win mv wd ht w) = Throw "SDL_GetWindowWMInfo failed"
   /\ run_trace (MainTs.createSurface h win mv wd ht) w
      = [ActLog "Creating UnsafeWindowSurface" [wd; ht]; ActGetVersion;
         ActGetWindowWMInfo win])
  /\ (fst (R3f.createSurface h win mv wd ht w) = Throw "SDL_GetWindowWMInfo failed"
      /\ run_trace (R3f.createSurface h win mv wd ht) w
         = [ActGetVersion; ActGetWindowWMInfo win]).
Proof.
  intros H0. destruct w as [pq ps fs eb wb rn fr tr].
  split; split;
    try (apply run_trace_app);
    unfold MainTs.createSurface, R3f.createSurface; unfold_calls; world_simpl;
    rewrite H0; cbn [Z.eqb fst snd trace];
    rewrite <- ?app_assoc; reflexivity.
Qed.

Definition failingQuery : Host :=
  mkHost "linux" (fun _ => false) 4096 0 [x02; x1e; x0a] 0 [].

Lemma createSurface_query_failure_witness :
  fst (R3f.createSurface failingQuery 4096 0 WIDTH HEIGHT (boot [] [] []))
  = Throw "SDL_GetWindowWMInfo failed".
Proof.
  exact (proj1 (proj2 (createSurface_query_failure failingQuery 4096 0
                         WIDTH HEIGHT (boot [] [] []) eq_refl))).
Defined.

Lemma slice_app_l (a b : list byte) (off len : nat) :
  (off + len <= length a)%nat -> slice (a ++ b) off len = slice a off len.
Proof.
  intros H. unfold slice. rewrite length_app.
  destruct (Nat.leb_spec (off + len) (length a + length b)); [|lia].
  destruct (Nat.leb_spec (off + len) (length a)); [|lia].
  f_equal. rewrite skipn_app, firstn_app, length_skipn.
  replace (len - (length a - off))%nat with 0%nat by lia.
  now rewrite firstn_0, app_nil_r.
Qed.

Lemma wmInfoAfterQuery_slice (h : Host) (w : World) (off len : nat) :
  bufs_ok w ->
  (length (wmInfoBytes h) <= sizeOfSDL_SysWMInfo)%nat ->
  (off + len <= length (wmInfoBytes h))%nat ->
  slice (wmInfoAfterQuery h w) off len = slice (wmInfoBytes h) off len.
Proof.
  intros [_ Hw] Hl Hb. unfold wmInfoAfterQuery.
  rewrite blit_prefix by (rewrite blit_length, Hw; exact Hl).
  now apply slice_app_l.
Qed.

(** X14. The reused window-manager-info buffer leaks nothing into the
    result.  When the query writes at least the 32 bytes that are ever
    decoded (and no more than the buffer holds), the outcome of
    [createSurface], in either file, is the same whatever the scratch
    buffer held before the call. *)
Theorem createSurface_ignores_stale_bytes
    (h : Host) (win mv wd ht : Z) (w1 w2 : World) :
  bufs_ok w1 ->
  bufs_ok w2 ->
  (32 <= length (wmInfoBytes h) <= sizeOfSDL_SysWMInfo)%nat ->
  fst (MainTs.createSurface h win mv wd ht w1)
  = fst (MainTs.createSurface h win mv wd ht w2)
  /\ fst (R3f.createSurface h win mv wd ht w1)
     = fst (R3f.createSurface h win mv wd ht w2).
Proof.
  intros Hw1 Hw2 [Hlo Hhi].
  destruct (Z.eq_dec (wmInfoRet h) 0) as [H0|Hok].
  - destruct (createSurface_query_failed h win mv wd ht w1 H0) as (-> & ->).
    destruct (createSurface_query_failed h win mv wd ht w2 H0) as (-> & ->).
    split; reflexivity.
  - destruct (decoded_fields h w1 Hw1)
      as (sub & p8 & p16 & p24 & F4 & F8 & F16 & F24).
    assert (E : forall off len, (off + len <= 32)%nat ->
              slice (wmInfoAfterQuery h w2) off len
              = slice (wmInfoAfterQuery h w1) off len).
    { intros off len Hb.
      rewrite !wmInfoAfterQuery_slice by (assumption || lia). reflexivity. }
    assert (G4 : getUint32 (wmInfoAfterQuery h w2) 4 = Some sub)
      by (unfold getUint32 in *; rewrite E by lia; exact F4).
    assert (G8 : getPointer (wmInfoAfterQuery h w2) 8 = Some p8)
      by (unfold getPointer, pointerSize in *; rewrite E by lia; exact F8).
    assert (G16 : getPointer (wmInfoAfterQuery h w2) 16 = Some p16)
      by (unfold getPointer, pointerSize in *; rewrite E by lia; exact F16).
    assert (G24 : getPointer (wmInfoAfterQuery h w2) 24 = Some p24)
      by (unfold getPointer, pointerSize in *; rewrite E by lia; exact F24).
    rewrite (main_createSurface_result h win mv wd ht w1 sub p8 p16 p24),
            (main_createSurface_result h win mv wd ht w2 sub p8 p16 p24),
            (r3f_createSurface_result h win mv wd ht w1 sub p8 p16 p24),
            (r3f_createSurface_result h win mv wd ht w2 sub p8 p16 p24)
      by assumption.
    split; reflexivity.
Qed.

(** A scratch buffer left full of 0xff by an earlier use. *)
Definition dirtyWorld : World :=
  set_wmInfoBuf (repeat xff sizeOfSDL_SysWMInfo) (boot [] [] []).

Lemma createSurface_ignores_stale_bytes_witness :
  fst (MainTs.createSurface macHost 4096 8192 WIDTH HEIGHT (boot [] [] []))
  = fst (MainTs.createSurface macHost 4096 8192 WIDTH HEIGHT dirtyWorld).
Proof.
  refine (proj1 (createSurface_ignores_stale_bytes macHost 4096 8192
                   WIDTH HEIGHT (boot [] [] []) dirtyWorld
                   (conj eq_refl eq_refl) (conj eq_refl eq_refl) _)).
  split; apply Nat.leb_le; reflexivity.
Defined.


(** ** More on library resolution *)

Lemma set_trace_same (w : World) : set_trace (trace w ++ []) w = w.
Proof. destruct w. unfold set_trace. cbn. now rewrite app_nil_r. Qed.

Lemma probe_run (h : Host) (cs : list string) : forall w,
  exists k r,
    probe h cs w
    = (Ok r, set_trace (trace w ++ map ActStat (firstn k cs)) w)
    /\ r = find (statOk h) cs
    /\ (forall c, r = Some c -> nth_error cs (k - 1) = Some c /\ (1 <= k)%nat).
Proof.
  induction cs as [|c rest IH]; intros w.
  - exists 0%nat, None. cbn. rewrite set_trace_same.
    repeat split; discriminate.
  - destruct (statOk h c) eqn:Ec.
    + exists 1%nat, (Some c). rewrite probe_step_found by exact Ec.
      cbn [find]. rewrite Ec. repeat split; try lia.
      injection H as <-. reflexivity.
    + destruct (IH (set_trace (trace w ++ [ActStat c]) w)) as (k & r & E & Hr & Hk).
      exists (S k), r. rewrite probe_step_missing by exact Ec.
      rewrite E. cbn [find]. rewrite Ec.
      split; [|split; [exact Hr|]].
      * f_equal. unfold set_trace. cbn. now rewrite <- app_assoc.
      * intros c0 Hc0. destruct (Hk c0 Hc0) as [Hn Hk1]. split; [|lia].
        destruct k as [|k]; [lia|]. cbn in *.
        now rewrite Nat.sub_0_r in Hn.
Qed.

(** X15. What [resolveSdl2Library] can return.  On every platform it
    returns (it never throws) one of the five candidates; a result other
    than the bare name "SDL2" is only returned on macOS and is a path
    whose [statSync] succeeded; and the probes it made are the candidates
    in their order, from the first up to the one returned, at most five
    and none after a success. *)
Theorem resolveSdl2Library_result (h : Host) (w : World) :
  exists c k,
    resolveSdl2Library h w
    = (Ok c, set_trace (trace w ++ map ActStat (firstn k candidates)) w)
    /\ In c candidates
    /\ (c <> "SDL2" ->
        BUILD_OS h = "darwin" /\ statOk h c = true
        /\ nth_error candidates (k - 1) = Some c).
Proof.
  unfold resolveSdl2Library.
  destruct (String.eqb_spec (BUILD_OS h) "darwin") as [Ed|Nd]; cbn [negb].
  - destruct (probe_run h candidates w) as (k & r & E & Hr & Hk).
    rewrite (bind_ok _ _ w _ r E).
    destruct r as [c|].
    + exists c, k. symmetry in Hr. split; [reflexivity|].
      split; [exact (proj1 (find_some _ _ Hr))|].
      intros _. split; [exact Ed|]. split; [exact (proj2 (find_some _ _ Hr))|].
      exact (proj1 (Hk c eq_refl)).
    + exists "SDL2", k. split; [reflexivity|].
      split; [cbn; tauto | intros H; now contradiction H].
  - exists "SDL2", 0%nat. split.
    + cbn. now rewrite set_trace_same.
    + split; [cbn; tauto | intros H; now contradiction H].
Qed.

Lemma resolve_is_find (h : Host) (w : World) :
  fst (resolveSdl2Library h w)
  = if String.eqb (BUILD_OS h) "darwin"
    then match find (statOk h) candidates with
         | Some c => Ok c
         | None => Ok "SDL2"
         end
    else Ok "SDL2".
Proof.
  unfold resolveSdl2Library.
  destruct (String.eqb (BUILD_OS h) "darwin"); cbn [negb]; [|reflexivity].
  destruct (probe_run h candidates w) as (k & r & E & Hr & _).
  rewrite (bind_ok _ _ w _ r E), <- Hr. now destruct r.
Qed.

(** X16. The fifth candidate changes nothing.  The last path probed on
    macOS is the bare name "SDL2" itself, which is also the fallback: two
    hosts that agree on the build OS and on every path but "SDL2" get the
    same library name, whether or not something called "SDL2" exists in
    the working directory. *)
Theorem resolveSdl2Library_last_candidate_redundant (h h' : Host) (w w' : World) :
  BUILD_OS h = BUILD_OS h' ->
  (forall p, p <> "SDL2" -> statOk h p = statOk h' p) ->
  fst (resolveSdl2Library h w) = fst (resolveSdl2Library h' w').
Proof.
  intros Hos Hst. rewrite !resolve_is_find, <- Hos.
  destruct (String.eqb (BUILD_OS h) "darwin"); [|reflexivity].
  unfold candidates. cbn [find].
  rewrite <- !Hst by discriminate.
  repeat match goal with
         | |- context [statOk ?x ?p] => destruct (statOk x p)
         end; reflexivity.
Qed.

Definition macWithLocalSdl2 : Host :=
  mkHost "darwin" (String.eqb "SDL2") 1 1 [] 1 [].

Definition macWithNothing : Host :=
  mkHost "darwin" (fun _ => false) 1 1 [] 1 [].

Lemma resolveSdl2Library_last_candidate_redundant_witness :
  fst (resolveSdl2Library macWithLocalSdl2 (boot [] [] []))
  = fst (resolveSdl2Library macWithNothing (boot [] [] [])).
Proof.
  apply resolveSdl2Library_last_candidate_redundant; [reflexivity|].
  intros p Hp. unfold macWithLocalSdl2, macWithNothing. cbn [statOk].
  destruct (String.eqb_spec "SDL2" p) as [E|E]; [|reflexivity].
  now contradiction Hp.
Defined.

(** * Start-up and the whole programs *)

(** What the top-level code asks of the runtime beyond [Host]: whether
    [Deno.dlopen] finds a library under a name, the status [SDL_Init]
    returns, and whether [navigator.gpu.requestAdapter()] resolves to an
    adapter.  These three calls leave no action in the trace; they are
    seen through what they decide.  The other calls into WebGPU and
    three.js made during start-up ([requestDevice], [resize],
    [configure], [renderer.init], [createRoot]) are taken to return. *)
Record Backend := mkBackend {
  dlopenOk : string -> bool;        (* Deno.dlopen returns, or throws *)
  sdlInitRet : Z;                   (* SDL_Init *)
  adapterFound : bool               (* requestAdapter() is not null *)
}.

Definition Deno_dlopen (b : Backend) (name : string) : M unit :=
  if dlopenOk b name then ret tt else throw "Could not open library".

Definition SDL_Init (b : Backend) (flags : Z) : M Z := ret (sdlInitRet b).

Definition requestAdapter (b : Backend) : M bool := ret (adapterFound b).

(** The head of the "SDL2 FFI" region (the same text in both files). *)
Definition loadLibrary (h : Host) (b : Backend) : M unit :=
  console_log "Loading SDL2 library" [];;
  name <- resolveSdl2Library h;;
  Deno_dlopen b name.

Module MainProgram.

Definition makeCanvas (width height : Z) : M unit :=
  console_log "Creating canvas shim" [width; height].

(** The "WebGPU init" region; its result is the pair of the window and
    the surface that the rest of the module uses. *)
Definition webgpuInit (h : Host) (b : Backend)
    : M (pointer * UnsafeWindowSurface) :=
  console_log "Initializing SDL2 video subsystem" [];;
  initResult <- SDL_Init b SDL_INIT_VIDEO;;
  if negb (initResult =? 0) then throw "SDL_Init failed"
  else
    console_log "SDL2 initialized" [];;
    console_log "Requesting WebGPU adapter" [];;
    adapter <- requestAdapter b;;
    if negb adapter then throw "No appropriate GPUAdapter found"
    else
      console_log "Requesting WebGPU device" [];;
      console_log "WebGPU device ready" [];;
      p <- MainTs.createWindow h "Deno + SDL2 + WebGPU" WIDTH HEIGHT;;
      console_log "Window handle" [window p];;
      surface <- MainTs.createSurface h (window p) (metalView p) WIDTH HEIGHT;;
      console_log "UnsafeWindowSurface created" [];;
      makeCanvas WIDTH HEIGHT;;
      console_log "Canvas shim created" [];;
      console_log "Resizing WebGPU surface" [];;
      console_log "Configuring WebGPU canvas context" [];;
      console_log "WebGPU canvas configured" [];;
      ret (window p, surface).

(** The "Scene setup" region. *)
Definition sceneSetup : M unit :=
  console_log "Creating WebGPURenderer" [];;
  console_log "Initializing WebGPURenderer" [];;
  console_log "WebGPURenderer initialized" [].

(** The module, top to bottom. *)
Definition program (h : Host) (b : Backend) (fuel : nat) : M unit :=
  loadLibrary h b;;
  ws <- webgpuInit h b;;
  sceneSetup;;
  MainTs.mainLoopRegion (fst ws) fuel.

End MainProgram.

Module R3fProgram.

(** The "WebGPU" region. *)
Definition webgpu (h : Host) (b : Backend)
    : M (pointer * UnsafeWindowSurface) :=
  console_log "Initializing SDL2 and WebGPU" [];;
  SDL_Init b SDL_INIT_VIDEO;;
  adapter <- requestAdapter b;;
  if negb adapter then throw "No WebGPU adapter found"
  else
    p <- R3f.createWindow h "Deno + R3F + WebGPU" WIDTH HEIGHT;;
    surface <- R3f.createSurface h (window p) (metalView p) WIDTH HEIGHT;;
    ret (window p, surface).

(** The "R3F setup" region: [root.configure] runs the [gl] callback. *)
Definition r3fSetup : M unit :=
  console_log "Initializing WebGPURenderer" [].

Definition program (h : Host) (b : Backend) (fuel : nat) : M unit :=
  loadLibrary h b;;
  ws <- webgpu h b;;
  r3fSetup;;
  R3f.mainLoopRegion (fst ws) fuel.

End R3fProgram.

(** ** What start-up may do *)

Definition startup_alphabet (a : Action) : Prop :=
  match a with
  | ActStat _ | ActCreateWindow _ _ _ _ _ _ | ActMetalCreateView _ => True
  | _ => surface_alphabet a
  end.

Lemma startup_alphabet_surface (a : Action) :
  surface_alphabet a -> startup_alphabet a.
Proof. destruct a; cbn; tauto. Qed.

Lemma startup_alphabet_quiet (a : Action) :
  startup_alphabet a ->
  isShutdown a = false /\ a <> ActPollEvent /\ isFrameAction a = false.
Proof. destruct a as [| | | | | | | |[]| | | | | | | |]; cbn; intuition discriminate. Qed.

Section StartupMay.

Variable P : Action -> Prop.
Hypothesis HP : forall a, startup_alphabet a -> P a.

Ltac side := solve [apply HP; cbn; intuition auto].

Lemma probe_may h cs : may P (probe h cs).
Proof.
  induction cs as [|c rest IH]; cbn [probe]; [apply may_ret|].
  apply may_bind.
  - apply may_tryCatch; [unfold Deno_statSync; may_tac side | intros; apply may_ret].
  - intros [c'|]; [apply may_ret | exact IH].
Qed.

Lemma resolveSdl2Library_may h : may P (resolveSdl2Library h).
Proof.
  unfold resolveSdl2Library. apply may_if; [apply may_ret|].
  apply may_bind; [apply probe_may | intros [c|]; apply may_ret].
Qed.

Lemma loadLibrary_may h b : may P (loadLibrary h b).
Proof.
  unfold loadLibrary, Deno_dlopen.
  apply may_bind; [apply may_console_log; side | intros _].
  apply may_bind; [apply resolveSdl2Library_may | intros name].
  may_tac side.
Qed.

Lemma main_createWindow_may h title wd ht :
  may P (MainTs.createWindow h title wd ht).
Proof.
  unfold MainTs.createWindow, SDL_CreateWindow, SDL_Metal_CreateView.
  may_tac side.
Qed.

Lemma r3f_createWindow_may h title wd ht :
  may P (R3f.createWindow h title wd ht).
Proof.
  unfold R3f.createWindow, SDL_CreateWindow, SDL_Metal_CreateView.
  may_tac side.
Qed.

Lemma surface_in_P (a : Action) : surface_alphabet a -> P a.
Proof. intros Ha. apply HP, startup_alphabet_surface, Ha. Qed.

Lemma main_webgpuInit_may h b : may P (MainProgram.webgpuInit h b).
Proof.
  unfold MainProgram.webgpuInit, MainProgram.makeCanvas, SDL_Init,
    requestAdapter.
  repeat first
    [ apply main_createWindow_may
    | apply (main_createSurface_may P surface_in_P)
    | may_step side ].
Qed.

Lemma main_sceneSetup_may : may P MainProgram.sceneSetup.
Proof. unfold MainProgram.sceneSetup. may_tac side. Qed.

Lemma r3f_webgpu_may h b : may P (R3fProgram.webgpu h b).
Proof.
  unfold R3fProgram.webgpu, SDL_Init, requestAdapter.
  repeat first
    [ apply r3f_createWindow_may
    | apply (r3f_createSurface_may P surface_in_P)
    | may_step side ].
Qed.

Lemma r3f_r3fSetup_may : may P R3fProgram.r3fSetup.
Proof. unfold R3fProgram.r3fSetup. may_tac side. Qed.

End StartupMay.

(** ** The start-up regions, step by step *)

(** The Metal view [createWindow] hands on: made on macOS only. *)
Definition viewOf (h : Host) : pointer :=
  if String.eqb (BUILD_OS h) "darwin" then metalViewRet h else null.

Definition mainBeforeWindow : list Action :=
  [ ActLog "Initializing SDL2 video subsystem" [];
    ActLog "SDL2 initialized" [];
    ActLog "Requesting WebGPU adapter" [];
    ActLog "Requesting WebGPU device" [];
    ActLog "WebGPU device ready" [] ].

Definition mainWindowCalls : list Action :=
  [ ActLog "Creating SDL window" [WIDTH; HEIGHT];
    ActCreateWindow (asCString "Deno + SDL2 + WebGPU") 0x2FFF0000 0x2FFF0000
                    WIDTH HEIGHT windowFlags ].

Definition mainWindowMade (h : Host) : list Action :=
  ActLog "SDL window created" [createWindowRet h]
  :: (if String.eqb (BUILD_OS h) "darwin"
      then [ActMetalCreateView (createWindowRet h)] else [])
  ++ [ ActLog "Metal view created" [viewOf h];
       ActLog "Window handle" [createWindowRet h] ].

Definition mainAfterSurface (win : pointer) (surface : UnsafeWindowSurface)
    : M (pointer * UnsafeWindowSurface) :=
  console_log "UnsafeWindowSurface created" [];;
  MainProgram.makeCanvas WIDTH HEIGHT;;
  console_log "Canvas shim created" [];;
  console_log "Resizing WebGPU surface" [];;
  console_log "Configuring WebGPU canvas context" [];;
  console_log "WebGPU canvas configured" [];;
  ret (win, surface).

Lemma main_webgpuInit_run (h : Host) (b : Backend) (w : World) :
  MainProgram.webgpuInit h b w =
    if negb (sdlInitRet b =? 0) then
      (Throw "SDL_Init failed",
       set_trace (trace w ++ firstn 1 mainBeforeWindow) w)
    else if negb (adapterFound b) then
      (Throw "No appropriate GPUAdapter found",
       set_trace (trace w ++ firstn 3 mainBeforeWindow) w)
    else if createWindowRet h =? null then
      (Throw "SDL_CreateWindow failed",
       set_trace (trace w ++ mainBeforeWindow ++ mainWindowCalls) w)
    else
      (surface <- MainTs.createSurface h (createWindowRet h) (viewOf h)
                    WIDTH HEIGHT;;
       mainAfterSurface (createWindowRet h) surface)
        (set_trace (trace w ++ mainBeforeWindow ++ mainWindowCalls
                      ++ mainWindowMade h) w).
Proof.
  destruct w as [pq ps fs eb wb rn fr tr].
  unfold MainProgram.webgpuInit, MainTs.createWindow, SDL_Init, requestAdapter,
    mainAfterSurface, mainWindowMade, viewOf.
  unfold_calls. world_simpl.
  destruct (negb (sdlInitRet b =? 0)); [cbn; reflexivity|].
  destruct (negb (adapterFound b)); [cbn; now rewrite <- !app_assoc|].
  destruct (createWindowRet h =? null); [cbn; now rewrite <- !app_assoc|].
  destruct (String.eqb (BUILD_OS h) "darwin"); cbn;
    rewrite <- !app_assoc; reflexivity.
Qed.

Definition r3fWindowCalls : list Action :=
  [ ActLog "Initializing SDL2 and WebGPU" [];
    ActCreateWindow (asCString "Deno + R3F + WebGPU") 0x2FFF0000 0x2FFF0000
                    WIDTH HEIGHT windowFlags ].

Definition r3fWindowMade (h : Host) : list Action :=
  if String.eqb (BUILD_OS h) "darwin"
  then [ActMetalCreateView (createWindowRet h)] else [].

Lemma r3f_webgpu_run (h : Host) (b : Backend) (w : World) :
  R3fProgram.webgpu h b w =
    if negb (adapterFound b) then
      (Throw "No WebGPU adapter found",
       set_trace (trace w ++ firstn 1 r3fWindowCalls) w)
    else if createWindowRet h =? null then
      (Throw "SDL_CreateWindow failed",
       set_trace (trace w ++ r3fWindowCalls) w)
    else
      (surface <- R3f.createSurface h (createWindowRet h) (viewOf h)
                    WIDTH HEIGHT;;
       ret (createWindowRet h, surface))
        (set_trace (trace w ++ r3fWindowCalls ++ r3fWindowMade h) w).
Proof.
  destruct w as [pq ps fs eb wb rn fr tr].
  unfold R3fProgram.webgpu, R3f.createWindow, SDL_Init, requestAdapter,
    r3fWindowMade, viewOf.
  unfold_calls. world_simpl.
  destruct (negb (adapterFound b)); [cbn; reflexivity|].
  destruct (createWindowRet h =? null); [cbn; now rewrite <- !app_assoc|].
  destruct (String.eqb (BUILD_OS h) "darwin"); cbn;
    rewrite <- ?app_assoc; reflexivity.
Qed.

(** The outcome of [createSurface] does not depend on what has been
    logged before it. *)
Lemma createSurface_after_logs (h : Host) (win mv wd ht : Z) (w : World)
    (t : list Action) :
  bufs_ok w ->
  fst (MainTs.createSurface h win mv wd ht (set_trace t w))
  = fst (MainTs.createSurface h win mv wd ht w)
  /\ fst (R3f.createSurface h win mv wd ht (set_trace t w))
     = fst (R3f.createSurface h win mv wd ht w).
Proof.
  intros Hw.
  assert (Hw' : bufs_ok (set_trace t w)) by (destruct w; exact Hw).
  assert (Eq : wmInfoAfterQuery h (set_trace t w) = wmInfoAfterQuery h w)
    by (destruct w; reflexivity).
  destruct (Z.eq_dec (wmInfoRet h) 0) as [H0|H0].
  - destruct (createSurface_query_failed h win mv wd ht w H0) as (-> & ->).
    destruct (createSurface_query_failed h win mv wd ht (set_trace t w) H0)
      as (-> & ->).
    split; reflexivity.
  - destruct (decoded_fields h w Hw) as (sub & p8 & p16 & p24 & F4 & F8 & F16 & F24).
    rewrite (main_createSurface_result h win mv wd ht w sub p8 p16 p24),
            (r3f_createSurface_result h win mv wd ht w sub p8 p16 p24)
      by assumption.
    rewrite (main_createSurface_result h win mv wd ht (set_trace t w) sub p8 p16 p24),
            (r3f_createSurface_result h win mv wd ht (set_trace t w) sub p8 p16 p24)
      by (try rewrite Eq; assumption).
    split; reflexivity.
Qed.

(** What each start-up region returns, in terms of its checks and of
    [createSurface] run on the initial buffers. *)
Definition withWindow (win : pointer) (r : Result UnsafeWindowSurface)
    : Result (pointer * UnsafeWindowSurface) :=
  match r with
  | Ok s => Ok (win, s)
  | Throw e => Throw e
  | Fault => Fault
  | OutOfFuel => OutOfFuel
  end.

Lemma main_webgpuInit_result (h : Host) (b : Backend) (w : World) :
  bufs_ok w ->
  fst (MainProgram.webgpuInit h b w) =
    if negb (sdlInitRet b =? 0) then Throw "SDL_Init failed"
    else if negb (adapterFound b) then Throw "No appropriate GPUAdapter found"
    else if createWindowRet h =? null then Throw "SDL_CreateWindow failed"
    else withWindow (createWindowRet h)
           (fst (MainTs.createSurface h (createWindowRet h) (viewOf h)
                   WIDTH HEIGHT w)).
Proof.
  intros Hw. rewrite main_webgpuInit_run.
  destruct (negb (sdlInitRet b =? 0)); [reflexivity|].
  destruct (negb (adapterFound b)); [reflexivity|].
  destruct (createWindowRet h =? null); [reflexivity|].
  rewrite <- (proj1 (createSurface_after_logs h (createWindowRet h) (viewOf h)
                       WIDTH HEIGHT w
                       (trace w ++ mainBeforeWindow ++ mainWindowCalls
                          ++ mainWindowMade h) Hw)).
  unfold bind at 1.
  destruct (MainTs.createSurface h (createWindowRet h) (viewOf h) WIDTH HEIGHT _)
    as [[s| e | |] w2]; reflexivity.
Qed.

Lemma r3f_webgpu_result (h : Host) (b : Backend) (w : World) :
  bufs_ok w ->
  fst (R3fProgram.webgpu h b w) =
    if negb (adapterFound b) then Throw "No WebGPU adapter found"
    else if createWindowRet h =? null then Throw "SDL_CreateWindow failed"
    else withWindow (createWindowRet h)
           (fst (R3f.createSurface h (createWindowRet h) (viewOf h)
                   WIDTH HEIGHT w)).
Proof.
  intros Hw. rewrite r3f_webgpu_run.
  destruct (negb (adapterFound b)); [reflexivity|].
  destruct (createWindowRet h =? null); [reflexivity|].
  rewrite <- (proj2 (createSurface_after_logs h (createWindowRet h) (viewOf h)
                       WIDTH HEIGHT w
                       (trace w ++ r3fWindowCalls ++ r3fWindowMade h) Hw)).
  unfold bind at 1.
  destruct (R3f.createSurface h (createWindowRet h) (viewOf h) WIDTH HEIGHT _)
    as [[s| e | |] w2]; reflexivity.
Qed.

(** The two start-up regions that end with a window and a surface. *)
Definition isStartup
    (st : Host -> Backend -> M (pointer * UnsafeWindowSurface)) : Prop :=
  st = MainProgram.webgpuInit \/ st = R3fProgram.webgpu.

Lemma createSurface_ok_shape (h : Host) (win mv wd ht : Z) (w : World)
    (s : UnsafeWindowSurface) :
  bufs_ok w ->
  fst (MainTs.createSurface h win mv wd ht w) = Ok s
  \/ fst (R3f.createSurface h win mv wd ht w) = Ok s ->
  wmInfoRet h <> 0 /\ width s = wd /\ height s = ht
  /\ (BUILD_OS h = "darwin" ->
      system s = "cocoa"
      /\ getPointer (wmInfoAfterQuery h w) 8 = Some (windowHandle s)
      /\ displayHandle s = mv)
  /\ (BUILD_OS h = "windows" ->
      system s = "win32"
      /\ getPointer (wmInfoAfterQuery h w) 8 = Some (windowHandle s)
      /\ getPointer (wmInfoAfterQuery h w) 24 = Some (displayHandle s))
  /\ (BUILD_OS h = "linux" ->
      (system s = "x11" \/ system s = "wayland")
      /\ getPointer (wmInfoAfterQuery h w) 16 = Some (windowHandle s)
      /\ getPointer (wmInfoAfterQuery h w) 8 = Some (displayHandle s))
  /\ supportedOs (BUILD_OS h).
Proof.
  intros Hw H.
  destruct (Z.eq_dec (wmInfoRet h) 0) as [H0|H0].
  { destruct (createSurface_query_failed h win mv wd ht w H0) as (E1 & E2).
    rewrite E1, E2 in H. destruct H; discriminate. }
  destruct (decoded_fields h w Hw) as (sub & p8 & p16 & p24 & F4 & F8 & F16 & F24).
  rewrite (main_createSurface_result h win mv wd ht w sub p8 p16 p24),
          (r3f_createSurface_result h win mv wd ht w sub p8 p16 p24)
    in H by assumption.
  split; [exact H0|]. unfold supportedOs.
  revert H. case_os h; intros [H|H];
    repeat match type of H with
           | context [if ?c then _ else _] => destruct c
           end;
    try discriminate H; injection H as <-;
    cbn [system windowHandle displayHandle width height];
    (split; [reflexivity | split; [reflexivity | split; [| split; [| split]]]]);
    try (intros E; exfalso; congruence);
    try (intros _; repeat split; auto);
    tauto.
Qed.

(** X17. Start-up hands the loop a surface for the window it created.
    In both files, when the start-up region completes, the adapter was
    found, the window is the non-null pointer [SDL_CreateWindow]
    returned, the window-manager-info query succeeded, the build is for
    one of the three supported systems, and the surface has the size
    800 x 600 and the handles decoded from the record: on macOS the NSView
    at offset 8 with, as display handle, the Metal view that
    [createWindow] made for this window; on Windows the HWND at offset 8
    and the HINSTANCE at offset 24; on Linux the window at offset 16 and
    the display at offset 8. *)
Theorem startup_surface_for_created_window
    (st : Host -> Backend -> M (pointer * UnsafeWindowSurface))
    (h : Host) (b : Backend) (w : World)
    (win : pointer) (s : UnsafeWindowSurface) :
  isStartup st ->
  bufs_ok w ->
  fst (st h b w) = Ok (win, s) ->
  adapterFound b = true /\ win = createWindowRet h /\ win <> null
  /\ wmInfoRet h <> 0 /\ width s = WIDTH /\ height s = HEIGHT
  /\ (BUILD_OS h = "darwin" ->
      system s = "cocoa"
      /\ getPointer (wmInfoAfterQuery h w) 8 = Some (windowHandle s)
      /\ displayHandle s = metalViewRet h)
  /\ (BUILD_OS h = "windows" ->
      system s = "win32"
      /\ getPointer (wmInfoAfterQuery h w) 8 = Some (windowHandle s)
      /\ getPointer (wmInfoAfterQuery h w) 24 = Some (displayHandle s))
  /\ (BUILD_OS h = "linux" ->
      (system s = "x11" \/ system s = "wayland")
      /\ getPointer (wmInfoAfterQuery h w) 16 = Some (windowHandle s)
      /\ getPointer (wmInfoAfterQuery h w) 8 = Some (displayHandle s))
  /\ supportedOs (BUILD_OS h).
Proof.
  intros Hst Hw H.
  assert (K : adapterFound b = true /\ createWindowRet h <> null
              /\ win = createWindowRet h
              /\ (fst (MainTs.createSurface h win (viewOf h) WIDTH HEIGHT w) = Ok s
                  \/ fst (R3f.createSurface h win (viewOf h) WIDTH HEIGHT w) = Ok s)).
  { destruct Hst as [-> | ->];
      [rewrite main_webgpuInit_result in H by exact Hw
      |rewrite r3f_webgpu_result in H by exact Hw];
      repeat match type of H with
             | context [if negb ?c then _ else _] =>
                 destruct c eqn:?; cbn [negb] in H; try discriminate H
             end;
      destruct (Z.eqb_spec (createWindowRet h) null) as [En|En];
      try discriminate H.
    - destruct (fst (MainTs.createSurface h (createWindowRet h) (viewOf h)
                       WIDTH HEIGHT w)) as [s'| | |] eqn:Es;
        try discriminate H.
      cbn in H. injection H as <- <-. rewrite Es. auto.
    - destruct (fst (R3f.createSurface h (createWindowRet h) (viewOf h)
                       WIDTH HEIGHT w)) as [s'| | |] eqn:Es;
        try discriminate H.
      cbn in H. injection H as <- <-. rewrite Es. auto. }
  destruct K as (Ha & Hn & -> & Hs).
  destruct (createSurface_ok_shape h _ _ _ _ w s Hw Hs)
    as (H0 & Hwd & Hht & Hd & Hwin & Hl & Hos).
  repeat (split; [first [assumption | reflexivity]|]).
  split; [|split; [exact Hwin | split; [exact Hl | exact Hos]]].
  intros Ed. destruct (Hd Ed) as (S1 & S2 & S3).
  repeat split; try assumption.
  rewrite S3. unfold viewOf. now rewrite Ed.
Qed.

Definition goodBackend : Backend := mkBackend (fun _ => true) 0 true.

Lemma startup_surface_for_created_window_witness :
  4096 = createWindowRet macHost /\ 4096 <> null.
Proof.
  pose proof (startup_surface_for_created_window MainProgram.webgpuInit
                macHost goodBackend (boot [] [] []) 4096
                (mkSurface "cocoa" 4660 8192 WIDTH HEIGHT)
                (or_introl eq_refl) (conj eq_refl eq_refl) eq_refl) as H.
  exact (conj (proj1 (proj2 H)) (proj1 (proj2 (proj2 H)))).
Defined.

(** ** Traces and results of sequences *)

Lemma may_emits_only {A} (P : Action -> Prop) (m : M A) :
  may P m -> emits_only P m.
Proof. intros H w. exact (proj1 (H w)). Qed.

Lemma bind_fst {A B} (m : M A) (k : A -> M B) (w : World) :
  fst (bind m k w) =
    match fst (m w) with
    | Ok a => fst (k a (snd (m w)))
    | Throw e => Throw e
    | Fault => Fault
    | OutOfFuel => OutOfFuel
    end.
Proof. unfold bind. destruct (m w) as [[a|e| |] w1]; reflexivity. Qed.

Lemma bind_run_trace {A B} (P Q : Action -> Prop) (m : M A) (k : A -> M B)
    (w : World) :
  emits_only P m -> (forall a, emits_only Q (k a)) ->
  run_trace (bind m k) w =
    run_trace m w ++ match fst (m w) with
                     | Ok a => run_trace (k a) (snd (m w))
                     | _ => []
                     end.
Proof.
  intros Hm Hk. apply run_trace_app.
  destruct (emits_only_run_trace P m w Hm) as (E & _).
  unfold bind. destruct (m w) as [[a|e| |] w1] eqn:Em; cbn [fst snd] in *;
    try (now rewrite app_nil_r).
  destruct (emits_only_run_trace Q (k a) w1 (Hk a)) as (E2 & _).
  rewrite E2, E. now rewrite app_assoc.
Qed.

Lemma startup_trace_quiet (tr : list Action) :
  Forall startup_alphabet tr ->
  filter isShutdown tr = [] /\ ~ In ActPollEvent tr.
Proof.
  intros F. split.
  - apply (filter_none startup_alphabet); [|exact F].
    intros a Ha. apply startup_alphabet_quiet, Ha.
  - intros Hin. rewrite Forall_forall in F.
    destruct (startup_alphabet_quiet _ (F _ Hin)) as (_ & Hp & _).
    now apply Hp.
Qed.

(** ** Loading the library *)

(** The name [resolveSdl2Library] comes to. *)
Definition resolvedName (h : Host) : string :=
  if String.eqb (BUILD_OS h) "darwin"
  then match find (statOk h) candidates with
       | Some c => c
       | None => "SDL2"
       end
  else "SDL2".

Definition isStatCall (a : Action) : Prop := exists p, a = ActStat p.

Lemma resolveSdl2Library_run (h : Host) (w : World) :
  exists t,
    resolveSdl2Library h w = (Ok (resolvedName h), set_trace (trace w ++ t) w)
    /\ Forall isStatCall t.
Proof.
  unfold resolveSdl2Library, resolvedName.
  destruct (String.eqb (BUILD_OS h) "darwin"); cbn [negb].
  - destruct (probe_run h candidates w) as (k & r & E & Hr & _).
    exists (map ActStat (firstn k candidates)).
    rewrite (bind_ok _ _ w _ r E), <- Hr.
    split; [now destruct r|].
    apply Forall_forall. intros a Ha. apply in_map_iff in Ha.
    destruct Ha as (p & <- & _). now exists p.
  - exists []. rewrite set_trace_same. split; [reflexivity | constructor].
Qed.

Lemma loadLibrary_run (h : Host) (b : Backend) (w : World) :
  exists t,
    loadLibrary h b w =
      ((if dlopenOk b (resolvedName h)
        then Ok tt else Throw "Could not open library"),
       set_trace (trace w ++ ActLog "Loading SDL2 library" [] :: t) w)
    /\ Forall isStatCall t.
Proof.
  destruct (resolveSdl2Library_run h
              (set_trace (trace w ++ [ActLog "Loading SDL2 library" []]) w))
    as (t & E & F).
  exists t. split; [|exact F].
  unfold loadLibrary.
  rewrite (bind_ok (console_log "Loading SDL2 library" []) _ w _ tt eq_refl),
          (bind_ok _ _ _ _ _ E).
  unfold Deno_dlopen. destruct w as [pq ps fs eb wb rn fr tr].
  destruct (dlopenOk b (resolvedName h)); cbn; now rewrite <- app_assoc.
Qed.

(** ** The programs as start-up followed by the loop region *)

Definition mainStartup (h : Host) (b : Backend) : M pointer :=
  loadLibrary h b;;
  ws <- MainProgram.webgpuInit h b;;
  MainProgram.sceneSetup;;
  ret (fst ws).

Definition r3fStartup (h : Host) (b : Backend) : M pointer :=
  loadLibrary h b;;
  ws <- R3fProgram.webgpu h b;;
  R3fProgram.r3fSetup;;
  ret (fst ws).

Lemma main_program_split (h : Host) (b : Backend) (fuel : nat) (w : World) :
  MainProgram.program h b fuel w
  = bind (mainStartup h b) (fun win => MainTs.mainLoopRegion win fuel) w.
Proof.
  unfold MainProgram.program, mainStartup, bind.
  destruct (loadLibrary h b w) as [[[]|e| |] w1]; try reflexivity.
  destruct (MainProgram.webgpuInit h b w1) as [[ws|e| |] w2]; reflexivity.
Qed.

Lemma r3f_program_split (h : Host) (b : Backend) (fuel : nat) (w : World) :
  R3fProgram.program h b fuel w
  = bind (r3fStartup h b) (fun win => R3f.mainLoopRegion win fuel) w.
Proof.
  unfold R3fProgram.program, r3fStartup, bind.
  destruct (loadLibrary h b w) as [[[]|e| |] w1]; try reflexivity.
  destruct (R3fProgram.webgpu h b w1) as [[ws|e| |] w2]; reflexivity.
Qed.

Lemma mainStartup_may (h : Host) (b : Backend) :
  may startup_alphabet (mainStartup h b).
Proof.
  unfold mainStartup.
  apply may_bind; [apply loadLibrary_may; auto | intros _].
  apply may_bind; [apply main_webgpuInit_may; auto | intros ws].
  apply may_bind; [apply main_sceneSetup_may; auto | intros _].
  apply may_ret.
Qed.

Lemma r3fStartup_may (h : Host) (b : Backend) :
  may startup_alphabet (r3fStartup h b).
Proof.
  unfold r3fStartup.
  apply may_bind; [apply loadLibrary_may; auto | intros _].
  apply may_bind; [apply r3f_webgpu_may; auto | intros ws].
  apply may_bind; [apply r3f_r3fSetup_may; auto | intros _].
  apply may_ret.
Qed.

Lemma main_webgpuInit_window (h : Host) (b : Backend) (w : World)
    (win : pointer) (s : UnsafeWindowSurface) :
  fst (MainProgram.webgpuInit h b w) = Ok (win, s) ->
  win = createWindowRet h /\ win <> null.
Proof.
  rewrite main_webgpuInit_run.
  destruct (negb (sdlInitRet b =? 0)); [discriminate|].
  destruct (negb (adapterFound b)); [discriminate|].
  destruct (Z.eqb_spec (createWindowRet h) null) as [En|En]; [discriminate|].
  unfold bind at 1.
  destruct (MainTs.createSurface h (createWindowRet h) (viewOf h) WIDTH HEIGHT _)
    as [[s'|e| |] w2]; try discriminate.
  cbn. intros H. injection H as <- _. auto.
Qed.

Lemma r3f_webgpu_window (h : Host) (b : Backend) (w : World)
    (win : pointer) (s : UnsafeWindowSurface) :
  fst (R3fProgram.webgpu h b w) = Ok (win, s) ->
  win = createWindowRet h /\ win <> null.
Proof.
  rewrite r3f_webgpu_run.
  destruct (negb (adapterFound b)); [discriminate|].
  destruct (Z.eqb_spec (createWindowRet h) null) as [En|En]; [discriminate|].
  unfold bind at 1.
  destruct (R3f.createSurface h (createWindowRet h) (viewOf h) WIDTH HEIGHT _)
    as [[s'|e| |] w2]; try discriminate.
  cbn. intros H. injection H as <- _. auto.
Qed.

Lemma mainStartup_window (h : Host) (b : Backend) (w : World) (win : pointer) :
  fst (mainStartup h b w) = Ok win -> win = createWindowRet h.
Proof.
  unfold mainStartup, bind.
  destruct (loadLibrary h b w) as [[[]|e| |] w1]; try discriminate.
  destruct (MainProgram.webgpuInit h b w1) as [[[win' s]|e| |] w2] eqn:Ew;
    try discriminate.
  cbn. intros H. injection H as <-.
  apply (main_webgpuInit_window h b w1 win' s). now rewrite Ew.
Qed.

Lemma r3fStartup_window (h : Host) (b : Backend) (w : World) (win : pointer) :
  fst (r3fStartup h b w) = Ok win -> win = createWindowRet h.
Proof.
  unfold r3fStartup, bind.
  destruct (loadLibrary h b w) as [[[]|e| |] w1]; try discriminate.
  destruct (R3fProgram.webgpu h b w1) as [[[win' s]|e| |] w2] eqn:Ew;
    try discriminate.
  cbn. intros H. injection H as <-.
  apply (r3f_webgpu_window h b w1 win' s). now rewrite Ew.
Qed.

(** The loop regions only add to the trace. *)
Lemma main_region_grows (win : pointer) (fuel : nat) :
  emits_only anything (MainTs.mainLoopRegion win fuel).
Proof.
  intros w. rewrite main_region_unfold.
  assert (G0 : grows anything w (mainEntered w)).
  { exists [ActLog "Entering render loop" []]. split.
    - destruct w; reflexivity.
    - repeat constructor. }
  eapply grows_trans; [exact G0|].
  generalize (mainEntered w). clear w G0.
  apply (respects_bind _ (grows_trans anything)).
  - apply may_emits_only, main_loop_may. intros; exact I.
  - intros _ w. eexists.
    split; [destruct w; unfold_calls; cbn; rewrite <- !app_assoc; reflexivity
           | repeat constructor].
Qed.

Lemma r3f_region_grows (win : pointer) (fuel : nat) :
  emits_only anything (R3f.mainLoopRegion win fuel).
Proof.
  intros w. rewrite r3f_region_unfold.
  assert (G0 : grows anything w (r3fEntered w)).
  { exists [ActLog "Entering SDL2 loop" []]. split.
    - destruct w; reflexivity.
    - repeat constructor. }
  eapply grows_trans; [exact G0|].
  generalize (r3fEntered w). clear w G0.
  apply (respects_bind _ (grows_trans anything)).
  - apply may_emits_only, r3f_loop_may. intros; exact I.
  - intros _ w. eexists.
    split; [destruct w; unfold_calls; cbn; rewrite <- !app_assoc; reflexivity
           | repeat constructor].
Qed.

Lemma main_program_trace (h : Host) (b : Backend) (fuel : nat) (w : World) :
  run_trace (MainProgram.program h b fuel) w =
    run_trace (mainStartup h b) w
    ++ match fst (mainStartup h b w) with
       | Ok win => run_trace (MainTs.mainLoopRegion win fuel)
                             (snd (mainStartup h b w))
       | _ => []
       end.
Proof.
  rewrite <- (bind_run_trace startup_alphabet anything (mainStartup h b)
                (fun win => MainTs.mainLoopRegion win fuel) w).
  - unfold run_trace. now rewrite main_program_split.
  - apply may_emits_only, mainStartup_may.
  - intros win. apply main_region_grows.
Qed.

Lemma r3f_program_trace (h : Host) (b : Backend) (fuel : nat) (w : World) :
  run_trace (R3fProgram.program h b fuel) w =
    run_trace (r3fStartup h b) w
    ++ match fst (r3fStartup h b w) with
       | Ok win => run_trace (R3f.mainLoopRegion win fuel)
                             (snd (r3fStartup h b w))
       | _ => []
       end.
Proof.
  rewrite <- (bind_run_trace startup_alphabet anything (r3fStartup h b)
                (fun win => R3f.mainLoopRegion win fuel) w).
  - unfold run_trace. now rewrite r3f_program_split.
  - apply may_emits_only, r3fStartup_may.
  - intros win. apply r3f_region_grows.
Qed.

Lemma main_program_fst (h : Host) (b : Backend) (fuel : nat) (w : World) :
  fst (MainProgram.program h b fuel w) =
    match fst (mainStartup h b w) with
    | Ok win => fst (MainTs.mainLoopRegion win fuel (snd (mainStartup h b w)))
    | Throw e => Throw e
    | Fault => Fault
    | OutOfFuel => OutOfFuel
    end.
Proof.
  rewrite main_program_split.
  exact (bind_fst (mainStartup h b)
           (fun win => MainTs.mainLoopRegion win fuel) w).
Qed.

Lemma r3f_program_fst (h : Host) (b : Backend) (fuel : nat) (w : World) :
  fst (R3fProgram.program h b fuel w) =
    match fst (r3fStartup h b w) with
    | Ok win => fst (R3f.mainLoopRegion win fuel (snd (r3fStartup h b w)))
    | Throw e => Throw e
    | Fault => Fault
    | OutOfFuel => OutOfFuel
    end.
Proof.
  rewrite r3f_program_split.
  exact (bind_fst (r3fStartup h b)
           (fun win => R3f.mainLoopRegion win fuel) w).
Qed.

(** ** Start-up failures *)

Definition mainCreateWindowCall : Action :=
  ActCreateWindow (asCString "Deno + SDL2 + WebGPU") 0x2FFF0000 0x2FFF0000
                  WIDTH HEIGHT windowFlags.

Definition r3fCreateWindowCall : Action :=
  ActCreateWindow (asCString "Deno + R3F + WebGPU") 0x2FFF0000 0x2FFF0000
                  WIDTH HEIGHT windowFlags.

Lemma main_webgpuInit_trace (h : Host) (b : Backend) (w : World) :
  sdlInitRet b = 0 -> adapterFound b = true ->
  exists rest,
    run_trace (MainProgram.webgpuInit h b) w
    = mainBeforeWindow ++ mainWindowCalls ++ rest.
Proof.
  intros Hi Ha.
  assert (E : exists rest, trace (snd (MainProgram.webgpuInit h b w))
                = trace w ++ mainBeforeWindow ++ mainWindowCalls ++ rest).
  { rewrite main_webgpuInit_run, Hi, Ha. cbn [Z.eqb negb].
    destruct (createWindowRet h =? null).
    - exists []. destruct w; cbn. rewrite ?app_nil_r. reflexivity.
    - set (w1 := set_trace _ w).
      set (m := bind _ _).
      assert (Hm : may startup_alphabet m).
      { subst m. unfold mainAfterSurface, MainProgram.makeCanvas.
        apply may_bind;
          [apply main_createSurface_may, startup_alphabet_surface | intros s].
        may_tac ltac:(solve [exact I]). }
      destruct (may_run_trace _ m w1 Hm) as (E & _).
      exists (mainWindowMade h ++ run_trace m w1). rewrite E.
      subst w1. destruct w; cbn [trace set_trace].
      now rewrite <- !app_assoc. }
  destruct E as (rest & E). exists rest. now apply run_trace_app.
Qed.

Lemma r3f_webgpu_trace (h : Host) (b : Backend) (w : World) :
  adapterFound b = true ->
  exists rest,
    run_trace (R3fProgram.webgpu h b) w = r3fWindowCalls ++ rest.
Proof.
  intros Ha.
  assert (E : exists rest, trace (snd (R3fProgram.webgpu h b w))
                = trace w ++ r3fWindowCalls ++ rest).
  { rewrite r3f_webgpu_run, Ha. cbn [negb].
    destruct (createWindowRet h =? null).
    - exists []. destruct w; cbn. reflexivity.
    - set (w1 := set_trace _ w).
      set (m := bind _ _).
      assert (Hm : may startup_alphabet m).
      { subst m.
        apply may_bind;
          [apply r3f_createSurface_may, startup_alphabet_surface | intros s].
        apply may_ret. }
      destruct (may_run_trace _ m w1 Hm) as (E & _).
      exists (r3fWindowMade h ++ run_trace m w1). rewrite E.
      subst w1. destruct w; cbn [trace set_trace].
      now rewrite <- !app_assoc. }
  destruct E as (rest & E). exists rest. now apply run_trace_app.
Qed.

(** X18. The status of [SDL_Init] is checked by main.ts only.  When
    [SDL_Init] returns a non-zero status, main.ts throws "SDL_Init failed"
    right after its first console line, before asking for an adapter or
    a window.  r3f.tsx drops the status: its start-up runs exactly as
    if the call had returned 0, and with an adapter present it goes on to
    call [SDL_CreateWindow]. *)
Theorem failed_SDL_Init_stops_main_only (h : Host) (b : Backend) (w : World) :
  sdlInitRet b <> 0 ->
  (fst (MainProgram.webgpuInit h b w) = Throw "SDL_Init failed"
   /\ run_trace (MainProgram.webgpuInit h b) w
      = [ActLog "Initializing SDL2 video subsystem" []])
  /\ R3fProgram.webgpu h b w
     = R3fProgram.webgpu h (mkBackend (dlopenOk b) 0 (adapterFound b)) w
  /\ (adapterFound b = true ->
      In r3fCreateWindowCall (run_trace (R3fProgram.webgpu h b) w)).
Proof.
  intros Hi. split; [|split].
  - assert (E : MainProgram.webgpuInit h b w
                = (Throw "SDL_Init failed",
                   set_trace (trace w ++ firstn 1 mainBeforeWindow) w)).
    { rewrite main_webgpuInit_run.
      destruct (Z.eqb_spec (sdlInitRet b) 0); [contradiction | reflexivity]. }
    split; [now rewrite E|].
    apply run_trace_app. rewrite E. destruct w; reflexivity.
  - reflexivity.
  - intros Ha. destruct (r3f_webgpu_trace h b w Ha) as (rest & ->).
    cbn. auto.
Qed.

Definition initFails : Backend := mkBackend (fun _ => true) (-1) true.

Lemma failed_SDL_Init_stops_main_only_witness :
  fst (MainProgram.webgpuInit macHost initFails (boot [] [] []))
  = Throw "SDL_Init failed"
  /\ In r3fCreateWindowCall
        (run_trace (R3fProgram.webgpu macHost initFails) (boot [] [] [])).
Proof.
  pose proof (failed_SDL_Init_stops_main_only macHost initFails (boot [] [] [])
                ltac:(discriminate)) as H.
  exact (conj (proj1 (proj1 H)) (proj2 (proj2 H) eq_refl)).
Defined.

(** X19. Without a WebGPU adapter no window is made.  When
    [requestAdapter] resolves to null, r3f.tsx throws "No WebGPU adapter
    found" and main.ts (once [SDL_Init] has succeeded) "No appropriate
    GPUAdapter found"; up to there each program has written console lines
    only: no native window call has been made. *)
Theorem missing_adapter_stops_before_window (h : Host) (b : Backend) (w : World) :
  adapterFound b = false ->
  (sdlInitRet b = 0 ->
   fst (MainProgram.webgpuInit h b w) = Throw "No appropriate GPUAdapter found")
  /\ Forall (fun a => isLog a = true) (run_trace (MainProgram.webgpuInit h b) w)
  /\ fst (R3fProgram.webgpu h b w) = Throw "No WebGPU adapter found"
  /\ run_trace (R3fProgram.webgpu h b) w
     = [ActLog "Initializing SDL2 and WebGPU" []].
Proof.
  intros Ha. split; [|split; [|split]].
  - intros Hi. now rewrite main_webgpuInit_run, Hi, Ha.
  - destruct (negb (sdlInitRet b =? 0)) eqn:Ei.
    + rewrite (run_trace_app _ _ (firstn 1 mainBeforeWindow));
        [repeat constructor|].
      rewrite main_webgpuInit_run, Ei. destruct w; reflexivity.
    + rewrite (run_trace_app _ _ (firstn 3 mainBeforeWindow));
        [repeat constructor|].
      rewrite main_webgpuInit_run, Ei, Ha. destruct w; reflexivity.
  - now rewrite r3f_webgpu_run, Ha.
  - apply run_trace_app. rewrite r3f_webgpu_run, Ha. destruct w; reflexivity.
Qed.

Definition noAdapter : Backend := mkBackend (fun _ => true) 0 false.

Lemma missing_adapter_stops_before_window_witness :
  fst (R3fProgram.webgpu macHost noAdapter (boot [] [] []))
  = Throw "No WebGPU adapter found".
Proof.
  exact (proj1 (proj2 (proj2 (missing_adapter_stops_before_window
                                macHost noAdapter (boot [] [] []) eq_refl)))).
Defined.

(** X20. A null window is never queried.  When [SDL_CreateWindow]
    returns null (with [SDL_Init] and the adapter fine), both programs
    throw "SDL_CreateWindow failed" with the create-window call as their
    last action: no Metal view is made, neither [SDL_GetVersion] nor
    [SDL_GetWindowWMInfo] is called on the null pointer, and the
    window-manager-info buffer is left as it was. *)
Theorem null_window_skips_surface (h : Host) (b : Backend) (w : World) :
  createWindowRet h = null ->
  sdlInitRet b = 0 ->
  adapterFound b = true ->
  (fst (MainProgram.webgpuInit h b w) = Throw "SDL_CreateWindow failed"
   /\ run_trace (MainProgram.webgpuInit h b) w
      = mainBeforeWindow ++ [ActLog "Creating SDL window" [WIDTH; HEIGHT];
                             mainCreateWindowCall]
   /\ wmInfoBuf (snd (MainProgram.webgpuInit h b w)) = wmInfoBuf w)
  /\ (fst (R3fProgram.webgpu h b w) = Throw "SDL_CreateWindow failed"
      /\ run_trace (R3fProgram.webgpu h b) w
         = [ActLog "Initializing SDL2 and WebGPU" []; r3fCreateWindowCall]
      /\ wmInfoBuf (snd (R3fProgram.webgpu h b w)) = wmInfoBuf w).
Proof.
  intros Hn Hi Ha. split.
  - assert (E : MainProgram.webgpuInit h b w
                = (Throw "SDL_CreateWindow failed",
                   set_trace (trace w ++ mainBeforeWindow ++ mainWindowCalls) w))
      by now rewrite main_webgpuInit_run, Hi, Ha, Hn.
    rewrite E. split; [reflexivity | split; [|destruct w; reflexivity]].
    apply run_trace_app. rewrite E. destruct w; reflexivity.
  - assert (E : R3fProgram.webgpu h b w
                = (Throw "SDL_CreateWindow failed",
                   set_trace (trace w ++ r3fWindowCalls) w))
      by now rewrite r3f_webgpu_run, Ha, Hn.
    rewrite E. split; [reflexivity | split; [|destruct w; reflexivity]].
    apply run_trace_app. rewrite E. destruct w; reflexivity.
Qed.

Definition noWindowHost : Host :=
  mkHost "linux" (fun _ => false) 0 0 [x02; x1e; x0a] 1 x11Record.

Lemma null_window_skips_surface_witness :
  fst (MainProgram.webgpuInit noWindowHost goodBackend (boot [] [] []))
  = Throw "SDL_CreateWindow failed".
Proof.
  exact (proj1 (proj1 (null_window_skips_surface noWindowHost goodBackend
                         (boot [] [] []) eq_refl eq_refl eq_refl))).
Defined.

(** ** The whole programs *)

(** X21. main.ts from top to bottom.  The program returns normally if
    and only if, over the whole run, it shuts down once: one
    [SDL_DestroyWindow], of the window [SDL_CreateWindow] returned,
    followed by one [SDL_Quit].  Whenever it ends otherwise (a failure
    during start-up, an exception in the loop, or the fuel of the model
    running out) it has made no shutdown call at all. *)
Theorem main_program_shuts_down_iff_completes
    (h : Host) (b : Backend) (fuel : nat) (w : World) :
  let r := fst (MainProgram.program h b fuel w) in
  let tr := run_trace (MainProgram.program h b fuel) w in
  (r = Ok tt <-> shuts_down_once (createWindowRet h) tr)
  /\ (r <> Ok tt <-> filter isShutdown tr = []).
Proof.
  cbv zeta. rewrite main_program_fst, main_program_trace.
  destruct (may_run_trace startup_alphabet (mainStartup h b) w
              (mainStartup_may h b)) as (_ & F).
  destruct (startup_trace_quiet _ F) as (Q & _).
  unfold shuts_down_once. rewrite filter_app, Q. cbn [app].
  destruct (fst (mainStartup h b w)) as [win|e| |] eqn:Es.
  - pose proof (mainStartup_window h b w win Es) as ->.
    pose proof (main_region_shutdown (createWindowRet h) fuel
                  (snd (mainStartup h b w))) as H.
    cbv zeta in H. unfold shuts_down_once in H. destruct H as (A & B).
    destruct (fst (MainTs.mainLoopRegion (createWindowRet h) fuel
                     (snd (mainStartup h b w)))) as [[]|e| |].
    + rewrite (A eq_refl).
      split; split; intros; try reflexivity; try discriminate; congruence.
    + rewrite (B ltac:(discriminate)).
      split; split; intros; try reflexivity; try discriminate.
    + rewrite (B ltac:(discriminate)).
      split; split; intros; try reflexivity; try discriminate.
    + rewrite (B ltac:(discriminate)).
      split; split; intros; try reflexivity; try discriminate.
  - split; split; intros; try reflexivity; try discriminate.
  - split; split; intros; try reflexivity; try discriminate.
  - split; split; intros; try reflexivity; try discriminate.
Qed.

(** X22. r3f.tsx from top to bottom.  With the buffers at their
    sizes, a run that is not cut off ends in one of two ways: the
    program returns normally, having shut down once (one
    [SDL_DestroyWindow], of the window [SDL_CreateWindow] returned,
    followed by one [SDL_Quit]); or start-up failed, and the program made
    only start-up calls: no event was polled, no frame rendered and
    nothing shut down.  No exception thrown after the loop was entered
    escapes. *)
Theorem r3f_program_outcome
    (h : Host) (b : Backend) (fuel : nat) (w : World) :
  bufs_ok w ->
  fst (R3fProgram.program h b fuel w) <> OutOfFuel ->
  let r := fst (R3fProgram.program h b fuel w) in
  let tr := run_trace (R3fProgram.program h b fuel) w in
  (r = Ok tt /\ shuts_down_once (createWindowRet h) tr)
  \/ (r <> Ok tt /\ Forall startup_alphabet tr).
Proof.
  intros Hw. cbv zeta. rewrite r3f_program_fst, r3f_program_trace.
  destruct (may_run_trace startup_alphabet (r3fStartup h b) w
              (r3fStartup_may h b)) as (_ & F).
  destruct (startup_trace_quiet _ F) as (Q & _).
  pose proof (proj2 (proj2 (r3fStartup_may h b w)) Hw) as Hw'.
  destruct (fst (r3fStartup h b w)) as [win|e| |] eqn:Es; intros Hf.
  - left. pose proof (r3fStartup_window h b w win Es) as ->.
    destruct (r3f_region_shuts_down_once (createWindowRet h) fuel
                (snd (r3fStartup h b w)) Hw' Hf) as (A & B).
    split; [exact A|].
    unfold shuts_down_once in *. now rewrite filter_app, Q, B.
  - right. rewrite app_nil_r. split; [discriminate | exact F].
  - right. rewrite app_nil_r. split; [discriminate | exact F].
  - right. rewrite app_nil_r. split; [discriminate | exact F].
Qed.

Lemma r3f_program_outcome_witness :
  fst (R3fProgram.program macHost goodBackend 3
         (boot [PollRet 1 quitRecord] [] [])) = Ok tt
  /\ shuts_down_once (createWindowRet macHost)
       (run_trace (R3fProgram.program macHost goodBackend 3)
          (boot [PollRet 1 quitRecord] [] [])).
Proof.
  destruct (r3f_program_outcome macHost goodBackend 3
              (boot [PollRet 1 quitRecord] [] [])
              (conj eq_refl eq_refl) ltac:(discriminate)) as [H | [H _]].
  - exact H.
  - exfalso. apply H. reflexivity.
Defined.




(** The start-up regions behave the same whatever has been logged. *)
Lemma webgpu_after_logs (h : Host) (b : Backend) (w : World) (t : list Action) :
  bufs_ok w ->
  fst (MainProgram.webgpuInit h b (set_trace t w))
  = fst (MainProgram.webgpuInit h b w)
  /\ fst (R3fProgram.webgpu h b (set_trace t w))
     = fst (R3fProgram.webgpu h b w).
Proof.
  intros Hw.
  assert (Hw' : bufs_ok (set_trace t w)) by (destruct w; exact Hw).
  rewrite !main_webgpuInit_result, !r3f_webgpu_result by assumption.
  destruct (createSurface_after_logs h (createWindowRet h) (viewOf h)
              WIDTH HEIGHT w t Hw) as (-> & ->).
  split; reflexivity.
Qed.

(** X24. A surface that cannot be made leaves the window open.  When
    the library is loaded, the adapter found and the window created, but
    [createSurface] throws (the query fails, or the subsystem is
    refused), the program ends with that exception: it has called
    [SDL_CreateWindow], and calls neither [SDL_DestroyWindow] nor
    [SDL_Quit].  This holds for main.ts (with [SDL_Init] returning 0) and
    for r3f.tsx. *)
Theorem surface_failure_leaves_window_open
    (h : Host) (b : Backend) (fuel : nat) (w : World) :
  bufs_ok w ->
  fst (loadLibrary h b w) = Ok tt ->
  adapterFound b = true ->
  createWindowRet h <> null ->
  (forall e,
     sdlInitRet b = 0 ->
     fst (MainTs.createSurface h (createWindowRet h) (viewOf h) WIDTH HEIGHT w)
     = Throw e ->
     let tr := run_trace (MainProgram.program h b fuel) w in
     fst (MainProgram.program h b fuel w) = Throw e
     /\ In mainCreateWindowCall tr
     /\ filter isShutdown tr = [])
  /\ (forall e,
     fst (R3f.createSurface h (createWindowRet h) (viewOf h) WIDTH HEIGHT w)
     = Throw e ->
     let tr := run_trace (R3fProgram.program h b fuel) w in
     fst (R3fProgram.program h b fuel w) = Throw e
     /\ In r3fCreateWindowCall tr
     /\ filter isShutdown tr = []).
Proof.
  intros Hw Hl Ha Hn.
  destruct (loadLibrary_run h b w) as (t & L & _).
  set (w1 := set_trace (trace w ++ ActLog "Loading SDL2 library" [] :: t) w) in L.
  assert (L' : loadLibrary h b w = (Ok tt, w1)).
  { rewrite L in Hl |- *. cbn [fst] in Hl.
    destruct (dlopenOk b (resolvedName h)); [reflexivity | discriminate Hl]. }
  assert (Hw1 : bufs_ok w1) by (subst w1; destruct w; exact Hw).
  destruct (Z.eqb_spec (createWindowRet h) null) as [|_]; [contradiction|].
  split; intros e.
  - intros Hi He. cbv zeta.
    assert (Ei : fst (MainProgram.webgpuInit h b w1) = Throw e).
    { subst w1. rewrite (proj1 (webgpu_after_logs h b w _ Hw)).
      rewrite main_webgpuInit_result by exact Hw.
      rewrite Hi, Ha, He. cbn [Z.eqb negb].
      destruct (Z.eqb_spec (createWindowRet h) null); [contradiction|reflexivity]. }
    assert (Es : fst (mainStartup h b w) = Throw e).
    { unfold mainStartup. rewrite (bind_ok _ _ w w1 tt L'), bind_fst.
      now rewrite Ei. }
    rewrite main_program_fst, main_program_trace, Es, app_nil_r.
    split; [reflexivity|].
    destruct (may_run_trace startup_alphabet (mainStartup h b) w
                (mainStartup_may h b)) as (_ & F).
    split; [|apply (startup_trace_quiet _ F)].
    unfold mainStartup.
    rewrite (bind_run_trace startup_alphabet startup_alphabet).
    + apply in_or_app. right. rewrite L'. cbn [fst snd].
      rewrite (bind_run_trace startup_alphabet startup_alphabet).
      * apply in_or_app. left.
        destruct (main_webgpuInit_trace h b w1 Hi Ha) as (rest & ->).
        cbn. auto 10.
      * apply may_emits_only, main_webgpuInit_may; auto.
      * intros ws. apply may_emits_only.
        apply may_bind; [apply main_sceneSetup_may; auto | intros _; apply may_ret].
    + apply may_emits_only, loadLibrary_may; auto.
    + intros _. apply may_emits_only.
      apply may_bind; [apply main_webgpuInit_may; auto | intros ws].
      apply may_bind; [apply main_sceneSetup_may; auto | intros _; apply may_ret].
  - intros He. cbv zeta.
    assert (Ei : fst (R3fProgram.webgpu h b w1) = Throw e).
    { subst w1. rewrite (proj2 (webgpu_after_logs h b w _ Hw)).
      rewrite r3f_webgpu_result by exact Hw.
      rewrite Ha, He. cbn [negb].
      destruct (Z.eqb_spec (createWindowRet h) null); [contradiction|reflexivity]. }
    assert (Es : fst (r3fStartup h b w) = Throw e).
    { unfold r3fStartup. rewrite (bind_ok _ _ w w1 tt L'), bind_fst.
      now rewrite Ei. }
    rewrite r3f_program_fst, r3f_program_trace, Es, app_nil_r.
    split; [reflexivity|].
    destruct (may_run_trace startup_alphabet (r3fStartup h b) w
                (r3fStartup_may h b)) as (_ & F).
    split; [|apply (startup_trace_quiet _ F)].
    unfold r3fStartup.
    rewrite (bind_run_trace startup_alphabet startup_alphabet).
    + apply in_or_app. right. rewrite L'. cbn [fst snd].
      rewrite (bind_run_trace startup_alphabet startup_alphabet).
      * apply in_or_app. left.
        destruct (r3f_webgpu_trace h b w1 Ha) as (rest & ->).
        cbn. auto 10.
      * apply may_emits_only, r3f_webgpu_may; auto.
      * intros ws. apply may_emits_only.
        apply may_bind; [apply r3f_r3fSetup_may; auto | intros _; apply may_ret].
    + apply may_emits_only, loadLibrary_may; auto.
    + intros _. apply may_emits_only.
      apply may_bind; [apply r3f_webgpu_may; auto | intros ws].
      apply may_bind; [apply r3f_r3fSetup_may; auto | intros _; apply may_ret].
Qed.

Definition failingQueryMac : Host :=
  mkHost "darwin" (fun _ => false) 4096 8192 [x02; x1e; x0a] 0 [].

Lemma surface_failure_leaves_window_open_witness :
  fst (R3fProgram.program failingQueryMac goodBackend 3 (boot [] [] []))
  = Throw "SDL_GetWindowWMInfo failed".
Proof.
  exact (proj1 (proj2 (surface_failure_leaves_window_open failingQueryMac
                         goodBackend 3 (boot [] [] [])
                         (conj eq_refl eq_refl) eq_refl eq_refl
                         ltac:(discriminate))
                  "SDL_GetWindowWMInfo failed" eq_refl)).
Defined.

(** * scripts/build-mac.sh: the library copied into the app bundle *)

Definition homebrewPaths : list string :=
  [ "/opt/homebrew/opt/sdl2/lib/libSDL2.dylib";
    "/opt/homebrew/lib/libSDL2.dylib";
    "/usr/local/opt/sdl2/lib/libSDL2.dylib";
    "/usr/local/lib/libSDL2.dylib" ].

(** The array [SDL2_CANDIDATES].  The environment variable [SDL2_PATH] is
    a string; unset and empty are both the empty string, as
    ["${SDL2_PATH:-}"] reads them. *)
Definition SDL2_CANDIDATES (SDL2_PATH : string) : list string :=
  (if String.eqb SDL2_PATH "" then [] else [SDL2_PATH]) ++ homebrewPaths.

(** The [for candidate ... break] loop; its value is [SDL2_PATH] after
    the loop.  [isFile] is the test [[[ -f ... ]]]. *)
Fixpoint pickCandidate (isFile : string -> bool) (cs : list string)
    (SDL2_PATH : string) : string :=
  match cs with
  | [] => SDL2_PATH
  | candidate :: rest =>
      if isFile candidate then candidate
      else pickCandidate isFile rest SDL2_PATH
  end.

(** The file copied to Contents/Frameworks/libSDL2.dylib; [None] is
    [exit 1]. *)
Definition bundledLibrary (isFile : string -> bool) (SDL2_PATH : string)
    : option string :=
  let chosen := pickCandidate isFile (SDL2_CANDIDATES SDL2_PATH) SDL2_PATH in
  if String.eqb chosen "" || negb (isFile chosen) then None else Some chosen.

Lemma pickCandidate_find (isFile : string -> bool) (cs : list string)
    (d : string) :
  pickCandidate isFile cs d
  = match find isFile cs with Some c => c | None => d end.
Proof.
  induction cs as [|c rest IH]; cbn; [reflexivity|].
  destruct (isFile c); [reflexivity | exact IH].
Qed.

Lemma find_over_app {A} (f : A -> bool) (l1 l2 : list A) :
  find f (l1 ++ l2)
  = match find f l1 with Some x => Some x | None => find f l2 end.
Proof.
  induction l1 as [|x l IH]; cbn; [reflexivity|].
  destruct (f x); [reflexivity | exact IH].
Qed.

Lemma find_agree {A} (f g : A -> bool) (l : list A) :
  (forall x, In x l -> f x = g x) -> find f l = find g l.
Proof.
  induction l as [|x l IH]; intros H; cbn; [reflexivity|].
  rewrite (H x (or_introl eq_refl)).
  destruct (g x); [reflexivity|].
  apply IH. intros y Hy. apply H. now right.
Qed.

Lemma homebrewPaths_named (p : string) :
  In p homebrewPaths -> String.eqb p "" = false.
Proof. intros [<-|[<-|[<-|[<-|[]]]]]; reflexivity. Qed.



(** X26. The build script and the program look in the same places.
    On a macOS machine where each of the four Homebrew paths exists
    exactly when it is a regular file, and with [SDL2_PATH] unset, the
    library the script bundles is the one [resolveSdl2Library] loads at
    run time; and where the script gives up, the program falls back to
    the bare name "SDL2". *)
Theorem bundle_and_runtime_agree
    (h : Host) (isFile : string -> bool) (w : World) :
  BUILD_OS h = "darwin" ->
  (forall p, In p homebrewPaths -> statOk h p = isFile p) ->
  fst (resolveSdl2Library h w)
  = Ok (match bundledLibrary isFile "" with
        | Some p => p
        | None => "SDL2"
        end).
Proof.
  intros Hos Hst. rewrite resolve_is_find, Hos. cbn [String.eqb Ascii.eqb Bool.eqb].
  change candidates with (homebrewPaths ++ ["SDL2"]).
  rewrite find_over_app, (find_agree _ _ _ Hst).
  unfold bundledLibrary. cbv zeta. rewrite pickCandidate_find.
  change (SDL2_CANDIDATES "") with homebrewPaths.
  destruct (find isFile homebrewPaths) as [c|] eqn:Ef.
  - destruct (find_some _ _ Ef) as (Hin & Hc).
    now rewrite (homebrewPaths_named c Hin), Hc.
  - cbn. now destruct (statOk h "SDL2").
Qed.

Lemma bundle_and_runtime_agree_witness :
  fst (resolveSdl2Library onlySecondExists (boot [] [] []))
  = Ok (match bundledLibrary (String.eqb "/opt/homebrew/lib/libSDL2.dylib") ""
        with Some p => p | None => "SDL2" end).
Proof.
  apply bundle_and_runtime_agree; [reflexivity|].
  intros p _. reflexivity.
Defined.
